(** * WHO COVID-19 dashboard (covid.py): data pipeline

    A shallow embedding of [load_data], [preprocess] and of the tables that
    [main] derives from the filtered window, followed by the properties of
    the specification that were checked against it.

    Numbers.  pandas stores the numeric columns as float64.  The embedding
    reads a stored number as an exact rational ([Q]) and the result of a
    float division as a rational or one of the three special values
    (+inf, -inf, NaN); rounding and overflow are not modelled.  NaN is also
    pandas' marker of a missing value.  An infinity that a column of a raw
    table holds is a cell of its own, which [preprocess] keeps; the tables
    of [main] are taken over windows whose stored counts are numbers. *)

From Stdlib Require Import List String Ascii Bool ZArith QArith Qminmax Lia.
From Stdlib Require Import Permutation Sorted Setoid.
From Stdlib Require OrderedTypeEx.
Import ListNotations.

Local Open Scope Q_scope.

(** ** Float results *)

Module Float.

Inductive num : Type :=
| Fin (q : Q)
| PInf
| NInf
| NaN.

(** Equality of results: rationals up to [Qeq], special values by name. *)
Definition num_eq (a b : num) : Prop :=
  match a, b with
  | Fin p, Fin q => p == q
  | PInf, PInf | NInf, NInf | NaN, NaN => True
  | _, _ => False
  end.

Definition is_inf (a : num) : bool :=
  match a with PInf | NInf => true | _ => false end.

(** [a / b] with IEEE 754 conventions: x/0 is an infinity of the sign of x,
    0/0 and inf/inf are NaN, and NaN propagates. *)
Definition ndiv (a b : num) : num :=
  match a, b with
  | NaN, _ | _, NaN => NaN
  | Fin p, Fin q =>
      if Qeq_bool q 0 then
        if Qeq_bool p 0 then NaN
        else if Qle_bool 0 p then PInf else NInf
      else Fin (p / q)
  | Fin _, PInf | Fin _, NInf => Fin 0
  | PInf, Fin q => if Qle_bool 0 q then PInf else NInf
  | NInf, Fin q => if Qle_bool 0 q then NInf else PInf
  | _, _ => NaN
  end.

(** [a - b], same conventions. *)
Definition nsub (a b : num) : num :=
  match a, b with
  | NaN, _ | _, NaN => NaN
  | Fin p, Fin q => Fin (p - q)
  | Fin _, PInf => NInf
  | Fin _, NInf => PInf
  | PInf, PInf => NaN
  | PInf, _ => PInf
  | NInf, NInf => NaN
  | NInf, _ => NInf
  end.

(** [Series.fillna(d)]: only the missing marker is replaced. *)
Definition fillna (d : Q) (a : num) : num :=
  match a with NaN => Fin d | _ => a end.

End Float.
Import Float.

(** ** Generic table helpers *)

(** [Series.sum()] over stored numbers. *)
Fixpoint total (l : list Q) : Q :=
  match l with
  | [] => 0
  | x :: r => x + total r
  end.

(** Insertion of [x] into a list ordered by [le]; equal keys keep their
    arrival order. *)
Fixpoint insert_by {A : Type} (le : A -> A -> bool) (x : A) (l : list A) : list A :=
  match l with
  | [] => [x]
  | y :: r => if le x y then x :: l else y :: insert_by le x r
  end.

Fixpoint sort_by {A : Type} (le : A -> A -> bool) (l : list A) : list A :=
  match l with
  | [] => []
  | x :: r => insert_by le x (sort_by le r)
  end.

(** [df.groupby(key)[val].sum().reset_index()]: one row per distinct
    non-null key, keys ascending (groupby sorts its keys and drops null
    keys), each with the sum of [val] over the rows of that key. *)
Section GroupBy.
Context {R K : Type}.
Variable keq_dec : forall a b : K, {a = b} + {a <> b}.
Variable kle : K -> K -> bool.
Variable key : R -> option K.
Variable val : R -> Q.

Definition has_key (k : K) (r : R) : bool :=
  match key r with
  | Some k' => if keq_dec k' k then true else false
  | None => false
  end.

Fixpoint keys_of (rows : list R) : list K :=
  match rows with
  | [] => []
  | r :: rest =>
      match key r with
      | Some k => k :: keys_of rest
      | None => keys_of rest
      end
  end.

Definition group_keys (rows : list R) : list K :=
  sort_by kle (nodup keq_dec (keys_of rows)).

Definition group_sum (rows : list R) (k : K) : Q :=
  total (map val (filter (has_key k) rows)).

Definition groupby_sum (rows : list R) : list (K * Q) :=
  map (fun k => (k, group_sum rows k)) (group_keys rows).

End GroupBy.

(** ** The cleaned table *)

(** One row of the table that [preprocess] returns, restricted to the
    columns [main] reads.  [Date] is the calendar day as an ordinal, [None]
    where the reported date did not parse (NaT). *)
Record Row : Type := mkRow {
  Country : string;
  Date : option Z;
  New_cases : Q;
  New_deaths : Q;
  Cumulative_cases : Q;
  Cumulative_deaths : Q
}.

(** The sidebar's metric: one of the two daily count columns. *)
Inductive Metric : Type := New_cases_metric | New_deaths_metric.

Definition col (m : Metric) (r : Row) : Q :=
  match m with
  | New_cases_metric => New_cases r
  | New_deaths_metric => New_deaths r
  end.

(** [mask = (df["Date"] >= date_range[0]) & (df["Date"] <= date_range[1])];
    a null date compares false on both sides. *)
Definition mask (date_range : Z * Z) (r : Row) : bool :=
  match Date r with
  | Some d => (fst date_range <=? d)%Z && (d <=? snd date_range)%Z
  | None => false
  end.

Definition filter_window (df : list Row) (date_range : Z * Z) : list Row :=
  filter (mask date_range) df.

(** [df.assign(Country=c)] *)
Definition assign_Country (c : string) (r : Row) : Row :=
  mkRow c (Date r) (New_cases r) (New_deaths r)
        (Cumulative_cases r) (Cumulative_deaths r).

(** [groupby(...).shift(1)] in row order: each row receives the value of
    the previous row of its own group, NaN when there is none.  [last] holds
    the latest value seen for every group. *)
Fixpoint groupby_shift (last : string -> num) (rows : list (string * Q)) : list num :=
  match rows with
  | [] => []
  | (k, v) :: rest =>
      last k :: groupby_shift (fun k' => if String.eqb k' k then Fin v else last k') rest
  end.

(** [pct_change]: [filled / shifted - 1].  The metric column holds no NaN
    after [preprocess], so the forward fill that precedes the division
    changes nothing and is left out. *)
Definition pct (v : Q) (shifted : num) : num :=
  nsub (ndiv (Fin v) shifted) (Fin 1).

Definition groupby_pct_change (rows : list (string * Q)) : list num :=
  map (fun vs => pct (fst vs) (snd vs))
      (combine (map snd rows) (groupby_shift (fun _ => NaN) rows)).

(** [Series.replace({0: None})] *)
Definition replace_zero_None (q : Q) : num :=
  if Qeq_bool q 0 then NaN else Fin q.

(** One step of the loop [for sel in [c1, c2]] that completes the ranking. *)
Definition add_selected (df_rank df_top : list (string * Q)) (sel : string)
  : list (string * Q) :=
  if existsb (String.eqb sel) (map fst df_top) then df_top
  else df_top ++ filter (fun r => String.eqb (fst r) sel) df_rank.

(** ** The derived tables of [main] *)

Section Main.

(** The filtered window, the two selected countries and the metric. *)
Variable df_f : list Row.
Variables c1 c2 : string.
Variable metric : Metric.

(** [DataFrame.sort_values(metric, ascending=False)] on the ranking table;
    what is known of it is stated where it is used. *)
Variable sort_values : list (string * Q) -> list (string * Q).

Definition df_c1 : list Row := filter (fun r => String.eqb (Country r) c1) df_f.
Definition df_c2 : list Row := filter (fun r => String.eqb (Country r) c2) df_f.

(** [df_f.groupby("Date")[["New_cases", "New_deaths"]].sum().reset_index()] *)
Definition df_global : list (Z * (Q * Q)) :=
  map (fun d => (d, (group_sum Z.eq_dec Date New_cases df_f d,
                     group_sum Z.eq_dec Date New_deaths df_f d)))
      (group_keys Z.eq_dec Z.leb Date df_f).

Definition df_compare : list Row :=
  map (assign_Country c1) df_c1 ++ map (assign_Country c2) df_c2.

(** The column [GrowthRate] of [df_gr]. *)
Definition GrowthRate : list num :=
  map (fillna 0)
      (groupby_pct_change (map (fun r => (Country r, col metric r)) df_compare)).

Definition df_gr : list (Row * num) := combine df_compare GrowthRate.

Definition df_world : list (Z * Q) :=
  groupby_sum Z.eq_dec Z.leb Date (col metric) df_f.

Definition df_two : list (Z * Q) :=
  groupby_sum Z.eq_dec Z.leb Date (col metric) df_compare.

Definition total_two : Q := total (map snd df_two).
Definition total_world : Q := total (map snd df_world).
Definition total_rest : Q := total_world - total_two.

Definition df_comp : list (string * Q) :=
  [ ((c1 ++ " + " ++ c2)%string, total_two); ("Rest of World"%string, total_rest) ].

(** The column [CFR] of [df_cfr]; the table itself is [df_compare] again. *)
Definition CFR (r : Row) : num :=
  ndiv (Fin (Cumulative_deaths r)) (replace_zero_None (Cumulative_cases r)).

Definition df_cfr : list (Row * num) := map (fun r => (r, CFR r)) df_compare.

Definition df_rank : list (string * Q) :=
  sort_values
    (groupby_sum string_dec String.leb (fun r => Some (Country r)) (col metric) df_f).

Definition df_top : list (string * Q) :=
  fold_left (add_selected df_rank) [c1; c2] (firstn 10 df_rank).

(** [lambda x: f"{x} (Selected)" if x in [c1, c2] else "Other"] *)
Definition Selected (x : string) : string :=
  if existsb (String.eqb x) [c1; c2] then (x ++ " (Selected)")%string
  else "Other"%string.

Definition df_top_flagged : list ((string * Q) * string) :=
  map (fun r => (r, Selected (fst r))) df_top.

End Main.

(** ** Raw tables *)

(** A cell of a table as [read_csv] delivers it: missing, a finite number,
    an infinity of a float column, text, or a timestamp (kept as its
    calendar day). *)
Inductive cell : Type :=
| Null
| Num (q : Q)
| Inf (negative : bool)
| Str (s : string)
| Stamp (day : Z).

(** A DataFrame: the length of its index and its labelled columns in
    order.  Every column has [nrows] cells. *)
Record DataFrame : Type := mkFrame {
  nrows : nat;
  columns : list (string * list cell)
}.

Definition labels (df : DataFrame) : list string := map fst (columns df).

(** What a Python exception of [preprocess] is in the model. *)
Inductive exn : Type :=
| KeyError (label : string)
| NotASeries (label : string)
| NotDatetimeLike (label : string).

Inductive res (A : Type) : Type :=
| Ok (a : A)
| Raise (e : exn).
Arguments Ok {A} a.
Arguments Raise {A} e.

Definition bind {A B : Type} (m : res A) (k : A -> res B) : res B :=
  match m with
  | Ok a => k a
  | Raise e => Raise e
  end.

Notation "x <- m ;; k" := (bind m (fun x => k))
  (at level 61, m at next level, right associativity).

(** [df[label]] read as a Series.  A label that is absent raises KeyError;
    a label carried by several columns selects a DataFrame, on which every
    Series operation of [preprocess] raises. *)
Definition getitem (df : DataFrame) (label : string) : res (list cell) :=
  match filter (fun c => String.eqb (fst c) label) (columns df) with
  | [] => Raise (KeyError label)
  | [c] => Ok (snd c)
  | _ => Raise (NotASeries label)
  end.

(** [df[label] = values]: an existing label is overwritten in place, a new
    one is appended as the last column. *)
Definition setitem (df : DataFrame) (label : string) (values : list cell) : DataFrame :=
  if existsb (String.eqb label) (labels df) then
    mkFrame (nrows df)
            (map (fun c => if String.eqb (fst c) label then (fst c, values) else c)
                 (columns df))
  else mkFrame (nrows df) (columns df ++ [(label, values)]).

(** *** Text operations *)

(** [str.isspace] on ASCII: tab to carriage return, the four separators
    and the blank. *)
Definition is_space (c : ascii) : bool :=
  let n := nat_of_ascii c in
  ((9 <=? n)%nat && (n <=? 13)%nat) || ((28 <=? n)%nat && (n <=? 32)%nat).

Fixpoint lstrip (s : string) : string :=
  match s with
  | EmptyString => EmptyString
  | String c r => if is_space c then lstrip r else s
  end.

Fixpoint rev_string (s acc : string) : string :=
  match s with
  | EmptyString => acc
  | String c r => rev_string r (String c acc)
  end.

Definition rstrip (s : string) : string :=
  rev_string (lstrip (rev_string s EmptyString)) EmptyString.

(** [str.strip()] *)
Definition strip (s : string) : string := rstrip (lstrip s).

Definition lower_ascii (c : ascii) : ascii :=
  let n := nat_of_ascii c in
  if ((65 <=? n)%nat && (n <=? 90)%nat)%bool then ascii_of_nat (n + 32) else c.

(** [str.lower()] on ASCII letters. *)
Fixpoint lower (s : string) : string :=
  match s with
  | EmptyString => EmptyString
  | String c r => String (lower_ascii c) (lower r)
  end.

(** [sub in s] *)
Fixpoint contains (sub s : string) : bool :=
  if String.prefix sub s then true
  else match s with
       | EmptyString => false
       | String _ r => contains sub r
       end.

Definition nl : string := String (ascii_of_nat 10) EmptyString.

(** The text is empty or made of whitespace only. *)
Fixpoint all_space (s : string) : bool :=
  match s with
  | EmptyString => true
  | String c r => is_space c && all_space r
  end.

(** ** [load_data] *)

(** The outcome of one [pd.read_csv(p, parse_dates=["Date_reported"])]:
    a table, FileNotFoundError, or any other exception with its text. *)
Inductive read_result : Type :=
| ReadOk (df : DataFrame)
| FileNotFound
| ReadError (e : string).

(** What the app shows before [st.stop()]. *)
Inductive message : Type :=
| st_error (text : string)
| st_info (text : string).

(** [load_data] either returns a table or halts the script run after
    showing messages. *)
Inductive outcome : Type :=
| Return (df : DataFrame)
| Stop (shown : list message).

Definition filename : string := "WHO-COVID-19-global-data.csv".

Definition github_raw : string :=
  "https://raw.githubusercontent.com/Tomifemme/dashboard/main/WHO-COVID-19-global-data.csv".

(** [os.path.join(dir, file)] on POSIX, for a relative [file]. *)
Definition path_join (dir file : string) : string :=
  match rev_string dir "" with
  | EmptyString => file
  | String c _ =>
      if Ascii.eqb c "/" then (dir ++ file)%string
      else (dir ++ "/" ++ file)%string
  end.

Definition strip_columns (df : DataFrame) : DataFrame :=
  mkFrame (nrows df) (map (fun c => (strip (fst c), snd c)) (columns df)).

Definition reading_error (p e : string) : string :=
  ("Error reading data from " ++ p ++ ": " ++ e)%string.

Definition not_found_text : string :=
  ("Data file 'WHO-COVID-19-global-data.csv' not found." ++ nl ++
   "Fix options:" ++ nl ++
   " - Add the CSV to the repository root and push to GitHub." ++ nl ++
   " - Set the DATA_URL environment variable to a public CSV URL." ++ nl ++
   " - Use Streamlit's file uploader to upload the CSV at runtime." ++ nl)%string.

Definition offer_text : string :=
  "If you want, I can add the CSV file to the repo for you. Or set DATA_URL in Streamlit Cloud settings.".

Section Loader.

(** The world [load_data] runs in: what reading each path or URL gives,
    the directory of the script, and the variable DATA_URL. *)
Variable read_csv : string -> read_result.
Variable script_dir : string.
Variable DATA_URL : option string.

Definition try_paths : list string :=
  [filename; path_join script_dir filename] ++
  match DATA_URL with
  | Some env_url => if String.eqb env_url "" then [] else [env_url]
  | None => []
  end.

(** The loop [for p in try_paths]: [None] when it runs to its end. *)
Fixpoint try_each (paths : list string) : option outcome :=
  match paths with
  | [] => None
  | p :: rest =>
      match read_csv p with
      | ReadOk df => Some (Return (strip_columns df))
      | FileNotFound => try_each rest
      | ReadError e => Some (Stop [st_error (reading_error p e)])
      end
  end.

Definition load_data : outcome :=
  match try_each try_paths with
  | Some o => o
  | None =>
      match read_csv github_raw with
      | ReadOk df => Return (strip_columns df)
      | _ => Stop [st_error not_found_text; st_info offer_text]
      end
  end.

End Loader.

(** ** [preprocess] *)

Section Preprocess.

(** pandas' conversions of a cell of another kind: [to_numeric] of text or
    of a timestamp, which is a number, an infinity (the texts "inf",
    "-inf", "Infinity") or NaN for a value that does not convert;
    [to_datetime] of text or of a number, [None] for a value that does not
    convert; [str] of a number or of a timestamp. *)
Variable parse_numeric : cell -> num.
Variable parse_datetime : cell -> option Z.

(** Whether [pd.to_datetime(column, errors="coerce")] is a datetime column,
    on which [.dt] works.  It is not one when texts of the column carry
    different UTC offsets: pandas then keeps an object column and [.dt]
    raises AttributeError, or, from version 3, [to_datetime] itself raises
    ValueError. *)
Variable datetimelike : list cell -> bool.

Variable py_str : cell -> string.

(** [pd.to_numeric(..., errors="coerce")]: a value that does not convert
    becomes NaN; an infinity stays one. *)
Definition to_numeric (c : cell) : num :=
  match c with
  | Num q => Fin q
  | Inf negative => if negative then NInf else PInf
  | Null => NaN
  | _ => parse_numeric c
  end.

(** A numeric cell after [.fillna(0)]: only NaN is replaced. *)
Definition numeric_cell (c : cell) : cell :=
  match fillna 0 (to_numeric c) with
  | Fin q => Num q
  | PInf => Inf false
  | NInf => Inf true
  | NaN => Null
  end.

(** One cell of [pd.to_datetime(..., errors="coerce").dt.date]: the
    calendar day, or NaT ([Null]) for a value that does not convert. *)
Definition to_date (c : cell) : cell :=
  match c with
  | Stamp d => Stamp d
  | Null => Null
  | _ => match parse_datetime c with Some d => Stamp d | None => Null end
  end.

(** [pd.to_datetime(column, errors="coerce").dt.date] on the column
    [label]: the days cell by cell, or the exception of a column that is
    not datetime-like. *)
Definition dt_date (label : string) (column : list cell) : res (list cell) :=
  if datetimelike column then Ok (map to_date column)
  else Raise (NotDatetimeLike label).

(** [.fillna("Unknown").astype(str)] on one cell. *)
Definition country_text (c : cell) : string :=
  match c with
  | Null => "Unknown"
  | Str s => s
  | _ => py_str c
  end.

(** A cell of the cleaned Country column: the text, stripped. *)
Definition country_cell (c : cell) : cell := Str (strip (country_text c)).

Definition numeric_columns : list string :=
  ["New_cases"; "New_deaths"; "Cumulative_cases"; "Cumulative_deaths"]%string.

(** The body of [for col in [...]]. *)
Definition coerce_column (acc : res DataFrame) (col : string) : res DataFrame :=
  df <- acc ;;
  if existsb (String.eqb col) (labels df) then
    s <- getitem df col ;;
    Ok (setitem df col (map numeric_cell s))
  else Ok df.

Definition ensure_Country (df : DataFrame) : res DataFrame :=
  if negb (existsb (String.eqb "Country") (labels df)) then
    let country_cols := filter (fun c => contains "country" (lower c)) (labels df) in
    match country_cols with
    | c0 :: _ => s <- getitem df c0 ;; Ok (setitem df "Country" s)
    | [] => Ok (setitem df "Country" (repeat (Str "Unknown") (nrows df)))
    end
  else Ok df.

Definition preprocess (df : DataFrame) : res DataFrame :=
  df <- ensure_Country df ;;
  dates <- getitem df "Date_reported" ;;
  days <- dt_date "Date_reported" dates ;;
  let df := setitem df "Date" days in
  df <- fold_left coerce_column numeric_columns (Ok df) ;;
  country <- getitem df "Country" ;;
  Ok (setitem df "Country" (map country_cell country)).

End Preprocess.

(** ** Vocabulary of the statements *)

(** Ranking order: the sum of [a] is at least the sum of [b]. *)
Definition desc (a b : string * Q) : Prop := snd b <= snd a.

(** What [sort_values(..., ascending=False)] guarantees, whichever
    algorithm breaks the ties. *)
Definition sorts_descending (sort : list (string * Q) -> list (string * Q)) : Prop :=
  forall l, Permutation (sort l) l /\ Sorted desc (sort l).

(** A sort that meets it: stable insertion by decreasing sum. *)
Definition stable_sort_desc (l : list (string * Q)) : list (string * Q) :=
  sort_by (fun a b => Qle_bool (snd b) (snd a)) l.

(** Rows compared by date, null dates last. *)
Definition date_leb (a b : Row) : bool :=
  match Date a, Date b with
  | Some x, Some y => (x <=? y)%Z
  | _, None => true
  | None, Some _ => false
  end.

(** The rows are stored in ascending date order. *)
Definition date_ascending (rows : list Row) : Prop :=
  Sorted (fun a b => date_leb a b = true) rows.

(** The rows of country [c] in the window, in table order. *)
Definition country_rows (c : string) (df_f : list Row) : list Row :=
  filter (fun r => String.eqb (Country r) c) df_f.

(** The rows that [df_gr] holds for country [c], in row order. *)
Definition rows_of (c : string) (gr : list (Row * num)) : list (Row * num) :=
  filter (fun x => String.eqb (Country (fst x)) c) gr.

(** Their growth rates, in row order. *)
Definition growth_of (c : string) (gr : list (Row * num)) : list num :=
  map snd (rows_of c gr).

(** Their growth rates, read in ascending date order. *)
Definition growth_by_date (c : string) (gr : list (Row * num)) : list num :=
  map snd (sort_by (fun a b => date_leb (fst a) (fst b)) (rows_of c gr)).

(** The growth-rate series of the specification for the metric values [vs]
    of one country in date order: one value per observation, 0 for the
    first one, (current - previous) / previous after a nonzero previous
    value. *)
Definition growth_rate_series (vs : list Q) (g : list num) : Prop :=
  List.length g = List.length vs /\
  (vs <> [] -> nth_error g 0 = Some (Fin 0)) /\
  (forall i p x,
      nth_error vs i = Some p -> nth_error vs (S i) = Some x -> ~ p == 0 ->
      exists q, nth_error g (S i) = Some (Fin q) /\ q == (x - p) / p).

(** Growth rates of one series whose previous value is [prev]. *)
Fixpoint growth_from (prev : num) (vs : list Q) : list num :=
  match vs with
  | [] => []
  | v :: r => fillna 0 (pct v prev) :: growth_from (Fin v) r
  end.

(** The number of distinct countries in the window. *)
Definition n_countries (df_f : list Row) : nat :=
  List.length (nodup string_dec (map Country df_f)).

(** The sum of the metric over the rows of country [c]. *)
Definition country_total (metric : Metric) (c : string) (df_f : list Row) : Q :=
  total (map (col metric) (country_rows c df_f)).

(** *** Sample data *)

(** An observation with only its daily case count set. *)
Definition obs (c : string) (day : Z) (cases : Q) : Row :=
  mkRow c (Some day) cases 0 0 0.

(** A row with cumulative counts only. *)
Definition cum (c : string) (day : Z) (cases deaths : Q) : Row :=
  mkRow c (Some day) 0 0 cases deaths.

Definition italy_window : list Row :=
  [ obs "Germany" 1 3; obs "Italy" 1 10; obs "Germany" 2 5;
    obs "Italy" 2 20; obs "Italy" 3 0 ].

Definition italy_two_days : list Row := [ obs "Italy" 1 10; obs "Italy" 2 20 ].

(** The same two observations of Italy, stored latest first, after one
    observation of Germany. *)
Definition italy_latest_first : list Row :=
  [ obs "Germany" 1 3; obs "Italy" 2 20; obs "Italy" 1 10 ].

(** Italy reports no case on the first day and five on the second. *)
Definition zero_then_five : list Row :=
  [ obs "Germany" 1 3; obs "Italy" 1 0; obs "Italy" 2 5 ].

Definition cfr_window : list Row :=
  [ cum "Germany" 1 4 1; cum "Italy" 1 0 0; cum "Italy" 2 5 1; cum "Italy" 3 10 2 ].

Definition one_country : list Row := [ obs "Italy" 1 7 ].

(** A table with two countries of which only Italy reports inside the
    date range 1..3. *)
Definition italy_spain_table : list Row := [ obs "Italy" 1 7; obs "Spain" 5 9 ].

(** Twelve countries on one day, with sums 12 down to 1. *)
Definition twelve_countries : list Row :=
  [ obs "A" 1 12; obs "B" 1 11; obs "C" 1 10; obs "D" 1 9; obs "E" 1 8; obs "F" 1 7;
    obs "G" 1 6; obs "H" 1 5; obs "I" 1 4; obs "J" 1 3; obs "K" 1 2; obs "L" 1 1 ].

(** A deployment in which neither local file exists, DATA_URL is not set
    and the fallback URL answers with a server error. *)
Definition server_error : string := "HTTP Error 503: Service Unavailable".

Definition fallback_down (p : string) : read_result :=
  if String.eqb p github_raw then ReadError server_error else FileNotFound.

(** A deployment in which the file beside the script exists but does not
    parse. *)
Definition parser_error : string := "Error tokenizing data. C error: Expected 8 fields in line 3, saw 9".

Definition local_file_broken (p : string) : read_result :=
  if String.eqb p "/app/WHO-COVID-19-global-data.csv" then ReadError parser_error
  else FileNotFound.

(** The country column from which the cleaned one is made: the column
    Country, else the first column whose lowered label contains "country",
    else the constant "Unknown". *)
Definition source_country (df : DataFrame) (src : list cell) : Prop :=
  getitem df "Country" = Ok src \/
  (~ In "Country"%string (labels df) /\
   ((exists c0 rest,
        filter (fun c => contains "country" (lower c)) (labels df) = c0 :: rest /\
        getitem df c0 = Ok src) \/
    (filter (fun c => contains "country" (lower c)) (labels df) = [] /\
     src = repeat (Str "Unknown") (nrows df)))).

(** The conversions on the cells of the sample tables below.  Of their
    texts only "inf" and "-inf" are numbers and none is a date; "+01:00"
    and "+02:00" at the end of a text are its UTC offset, and a column is
    datetime-like when the offsets of its texts agree. *)
Definition text_numeric (c : cell) : num :=
  match c with
  | Str s => if String.eqb s "inf" then PInf
             else if String.eqb s "-inf" then NInf else NaN
  | _ => NaN
  end.

Definition no_datetime (c : cell) : option Z := None.
Definition str_nan (c : cell) : string := "nan".

Definition ends_with (suffix s : string) : bool :=
  String.prefix (rev_string suffix "") (rev_string s "").

Definition utc_offset (c : cell) : option Z :=
  match c with
  | Str s => if ends_with "+01:00" s then Some 60%Z
             else if ends_with "+02:00" s then Some 120%Z else None
  | _ => None
  end.

Definition offsets_agree (column : list cell) : bool :=
  match keys_of utc_offset column with
  | [] => true
  | o :: r => forallb (Z.eqb o) r
  end.

(** A table whose reported dates carry two different UTC offsets. *)
Definition mixed_offsets_frame : DataFrame :=
  mkFrame 2 [ ("Date_reported"%string,
               [Str "2020-01-03T00:00:00+01:00"; Str "2020-01-04T00:00:00+02:00"]);
              ("Country"%string, [Str "Italy"; Str "Italy"]);
              ("New_cases"%string, [Num 1; Num 2]) ].

(** A table in which two columns that [preprocess] does not read carry the
    same label. *)
Definition duplicate_unread_frame : DataFrame :=
  mkFrame 1 [ ("Date_reported"%string, [Stamp 1]); ("Country"%string, [Str "Italy"]);
              ("WHO_region"%string, [Str "EURO"]); ("WHO_region"%string, [Str "EUR"]);
              ("New_cases"%string, [Num 10]) ].

(** A table with an infinite count, written as text and as a float. *)
Definition infinite_count_frame : DataFrame :=
  mkFrame 3 [ ("Date_reported"%string, [Stamp 1; Stamp 2; Stamp 3]);
              ("Country"%string, [Str "Italy"; Str "Italy"; Str "Italy"]);
              ("New_cases"%string, [Str "inf"; Num 4; Str "many"]);
              ("New_deaths"%string, [Inf true; Num 0; Null]) ].

Definition infinite_count_cleaned : DataFrame :=
  mkFrame 3 [ ("Date_reported"%string, [Stamp 1; Stamp 2; Stamp 3]);
              ("Country"%string, [Str "Italy"; Str "Italy"; Str "Italy"]);
              ("New_cases"%string, [Inf false; Num 4; Num 0]);
              ("New_deaths"%string, [Inf true; Num 0; Num 0]);
              ("Date"%string, [Stamp 1; Stamp 2; Stamp 3]) ].

(** At most one column of the frame carries the label [l]: reading it does
    not select several columns. *)
Definition read_once (df : DataFrame) (l : string) : Prop :=
  ~ In l (labels df) \/ exists v, getitem df l = Ok v.

(** The column taken in place of an absent Country, the first whose label
    contains "country", is a single one. *)
Definition country_settled (df : DataFrame) : Prop :=
  ~ In "Country"%string (labels df) ->
  forall c0 rest,
    filter (fun c => contains "country" (lower c)) (labels df) = c0 :: rest ->
    read_once df c0.

(** What [preprocess] needs of a table: one column Date_reported that
    converts to a datetime column, and at most one column for each other
    label it reads: Country, the column taken in its place when it is
    absent, and the four numeric labels. *)
Definition cleanable (datetimelike : list cell -> bool) (df : DataFrame) : Prop :=
  (exists dates, getitem df "Date_reported" = Ok dates /\ datetimelike dates = true) /\
  read_once df "Country" /\
  (forall col, In col numeric_columns -> read_once df col) /\
  country_settled df.

(** A table without the column Date_reported. *)
Definition no_dates_frame : DataFrame :=
  mkFrame 1 [ ("Country"%string, [Str "Italy"]); ("New_cases"%string, [Num 10]) ].

(** A table in which two columns carry the label New_cases. *)
Definition duplicate_label_frame : DataFrame :=
  mkFrame 1 [ ("Date_reported"%string, [Stamp 1]); ("Country"%string, [Str "Italy"]);
              ("New_cases"%string, [Num 10]); ("New_cases"%string, [Num 11]) ].

(** A table with a blank country, a missing country, a negative count and
    a count that is not a number. *)
Definition blank_country_frame : DataFrame :=
  mkFrame 2 [ ("Date_reported"%string, [Stamp 1; Stamp 2]);
              ("Country"%string, [Str "  "; Null]);
              ("New_cases"%string, [Num (-5); Str "n/a"]) ].

(** A table without a country column and without two of the numeric
    columns. *)
Definition sparse_frame : DataFrame :=
  mkFrame 2 [ ("Date_reported"%string, [Stamp 1; Str "yesterday"]);
              ("New_cases"%string, [Num 4; Null]);
              ("Cumulative_cases"%string, [Str "many"; Num 9]) ].

(** What [preprocess] makes of the last two tables. *)
Definition blank_country_cleaned : DataFrame :=
  mkFrame 2 [ ("Date_reported"%string, [Stamp 1; Stamp 2]);
              ("Country"%string, [Str ""; Str "Unknown"]);
              ("New_cases"%string, [Num (-5); Num 0]);
              ("Date"%string, [Stamp 1; Stamp 2]) ].

Definition sparse_cleaned : DataFrame :=
  mkFrame 2 [ ("Date_reported"%string, [Stamp 1; Str "yesterday"]);
              ("New_cases"%string, [Num 4; Num 0]);
              ("Cumulative_cases"%string, [Num 0; Num 9]);
              ("Country"%string, [Str "Unknown"; Str "Unknown"]);
              ("Date"%string, [Stamp 1; Null]) ].

(** ** The sidebar and the key metrics of [main] *)

(** [sorted(df["Country"].unique())]: the distinct countries of the whole
    table, in ascending order. *)
Definition all_countries (df : list Row) : list string :=
  sort_by String.leb (nodup string_dec (map Country df)).

(** [list.index(x)]: the position of the first occurrence, [None] for the
    ValueError of an absent value. *)
Fixpoint index (x : string) (l : list string) : option nat :=
  match l with
  | [] => None
  | y :: r => if String.eqb y x then Some 0%nat else option_map S (index x r)
  end.

(** The value a select box shows first: [options[index]].  [None] stands
    for no selection: Streamlit refuses an index outside the options and
    returns nothing for an empty list. *)
Definition selectbox (options : list string) (i : nat) : option string :=
  nth_error options i.

(** [all_countries.index("Italy") if "Italy" in all_countries else 1] *)
Definition comparison_index (options : list string) : option nat :=
  if existsb (String.eqb "Italy") options then index "Italy" options
  else Some 1%nat.

Definition primary_default (df : list Row) : option string :=
  selectbox (all_countries df) 0.

Definition comparison_default (df : list Row) : option string :=
  match comparison_index (all_countries df) with
  | Some i => selectbox (all_countries df) i
  | None => None
  end.

(** [df["Date_reported"].min().date()] and [.max().date()], null dates
    skipped; [None] is NaT, the result on a table without a dated row.  The
    reported date is read as a timestamp column whose calendar day is the
    column [Date], as [read_csv] delivers it with [parse_dates]. *)
Definition date_min (df : list Row) : option Z :=
  match keys_of Date df with
  | [] => None
  | d :: r => Some (fold_left Z.min r d)
  end.

Definition date_max (df : list Row) : option Z :=
  match keys_of Date df with
  | [] => None
  | d :: r => Some (fold_left Z.max r d)
  end.

(** The value the date slider starts with: [(date_min, date_max)]. *)
Definition default_range (df : list Row) : option (Z * Z) :=
  match date_min df, date_max df with
  | Some lo, Some hi => Some (lo, hi)
  | _, _ => None
  end.

(** [Series.max()]: NaN on an empty series. *)
Definition Series_max (l : list Q) : num :=
  match l with
  | [] => NaN
  | x :: r => Fin (fold_left Qmax r x)
  end.

(** [Series.mean()]: the sum over the count, NaN (0/0) on an empty
    series. *)
Definition Series_mean (l : list Q) : num :=
  ndiv (Fin (total l)) (Fin (inject_Z (Z.of_nat (List.length l)))).

(** [df_c1[metric].max()] and [df_c1[metric].mean()] of the key metrics,
    for the selected country [c]. *)
Definition peak (df_f : list Row) (c : string) (metric : Metric) : num :=
  Series_max (map (col metric) (df_c1 df_f c)).

Definition average (df_f : list Row) (c : string) (metric : Metric) : num :=
  Series_mean (map (col metric) (df_c1 df_f c)).

(** Every column of the frame has as many cells as the index. *)
Definition well_formed (df : DataFrame) : Prop :=
  Forall (fun c => List.length (snd c) = nrows df) (columns df).

(** A deployment in which only the file beside the script exists; its
    header has blanks around two labels. *)
Definition padded_frame : DataFrame :=
  mkFrame 1 [ ("Date_reported"%string, [Stamp 1]); (" Country"%string, [Str "Italy"]);
              ("New_cases "%string, [Num 10]) ].

Definition beside_script (p : string) : read_result :=
  if String.eqb p "/app/WHO-COVID-19-global-data.csv" then ReadOk padded_frame
  else FileNotFound.

(** The text starts with a character that is not whitespace, or is empty. *)
Definition no_leading_space (s : string) : Prop :=
  match s with
  | EmptyString => True
  | String c _ => is_space c = false
  end.

(** * Properties *)

(** ** Sums *)

Lemma total_app (a b : list Q) : total (a ++ b) == total a + total b.
Proof.
  induction a as [|x a IH]; simpl.
  - ring.
  - rewrite IH. ring.
Qed.

Lemma total_map_ext {A : Type} (f g : A -> Q) (l : list A) :
  (forall a, In a l -> f a == g a) -> total (map f l) == total (map g l).
Proof.
  induction l as [|a l IH]; intros H; simpl.
  - reflexivity.
  - rewrite (H a (or_introl eq_refl)), IH.
    + reflexivity.
    + intros b Hb. apply H. now right.
Qed.

Lemma total_map_plus {A : Type} (f g : A -> Q) (l : list A) :
  total (map (fun a => f a + g a) l) == total (map f l) + total (map g l).
Proof.
  induction l as [|a l IH]; simpl.
  - ring.
  - rewrite IH. ring.
Qed.

Lemma total_map_zero {A : Type} (l : list A) : total (map (fun _ => 0) l) == 0.
Proof.
  induction l as [|a l IH]; simpl.
  - reflexivity.
  - rewrite IH. ring.
Qed.

(** ** Sorting by insertion *)

Lemma insert_by_perm {A : Type} (le : A -> A -> bool) (x : A) (l : list A) :
  Permutation (insert_by le x l) (x :: l).
Proof.
  induction l as [|y l IH]; simpl.
  - apply Permutation_refl.
  - destruct (le x y).
    + apply Permutation_refl.
    + eapply perm_trans; [apply perm_skip, IH | apply perm_swap].
Qed.

Lemma sort_by_perm {A : Type} (le : A -> A -> bool) (l : list A) :
  Permutation (sort_by le l) l.
Proof.
  induction l as [|x l IH]; simpl.
  - constructor.
  - eapply perm_trans; [apply insert_by_perm | now apply perm_skip].
Qed.

Lemma sort_by_sorted_id {A : Type} (le : A -> A -> bool) (l : list A) :
  Sorted (fun a b => le a b = true) l -> sort_by le l = l.
Proof.
  induction 1 as [|x l Hs IH Hd]; simpl.
  - reflexivity.
  - rewrite IH. destruct Hd as [|y l Hxy]; simpl.
    + reflexivity.
    + now rewrite Hxy.
Qed.

Lemma insert_by_sorted {A : Type} (le : A -> A -> bool) (x : A) (l : list A) :
  (forall a b, le a b = false -> le b a = true) ->
  Sorted (fun a b => le a b = true) l ->
  Sorted (fun a b => le a b = true) (insert_by le x l).
Proof.
  intros Htot Hs. induction Hs as [|y l Hs IH Hd]; simpl.
  - repeat constructor.
  - destruct (le x y) eqn:E.
    + constructor; [now constructor | now constructor].
    + constructor; [exact IH|].
      destruct Hd as [|z l Hyz]; simpl.
      * constructor. now apply Htot.
      * destruct (le x z); constructor; auto.
Qed.

Lemma sort_by_sorted {A : Type} (le : A -> A -> bool) (l : list A) :
  (forall a b, le a b = false -> le b a = true) ->
  Sorted (fun a b => le a b = true) (sort_by le l).
Proof.
  intros Htot. induction l as [|x l IH]; simpl.
  - constructor.
  - now apply insert_by_sorted.
Qed.

(** ** Group-by sums *)

Section GroupByFacts.
Context {R K : Type}.
Variable keq_dec : forall a b : K, {a = b} + {a <> b}.
Variable kle : K -> K -> bool.
Variable key : R -> option K.
Variable val : R -> Q.

Lemma keys_of_In (rows : list R) (k : K) :
  In k (keys_of key rows) <-> exists r, In r rows /\ key r = Some k.
Proof.
  induction rows as [|r rows IH]; simpl.
  - split; [tauto | intros [r [[] _]]].
  - destruct (key r) as [k'|] eqn:E; simpl; rewrite IH; split.
    + intros [->|[r' [Hin Hk]]]; [exists r | exists r']; auto.
    + intros [r' [[->|Hin] Hk]].
      * left. congruence.
      * right. now exists r'.
    + intros [r' [Hin Hk]]. exists r'. auto.
    + intros [r' [[->|Hin] Hk]]; [congruence | now exists r'].
Qed.

Lemma group_keys_In (rows : list R) (k : K) :
  In k (group_keys keq_dec kle key rows) <-> exists r, In r rows /\ key r = Some k.
Proof.
  rewrite <- keys_of_In. unfold group_keys. split; intros H.
  - apply (nodup_In keq_dec). eapply Permutation_in; [apply sort_by_perm | exact H].
  - eapply Permutation_in; [apply Permutation_sym, sort_by_perm|].
    now apply (nodup_In keq_dec).
Qed.

Lemma group_keys_NoDup (rows : list R) : NoDup (group_keys keq_dec kle key rows).
Proof.
  unfold group_keys.
  eapply Permutation_NoDup; [apply Permutation_sym, sort_by_perm | apply NoDup_nodup].
Qed.

Lemma group_keys_length (rows : list R) :
  List.length (group_keys keq_dec kle key rows)
  = List.length (nodup keq_dec (keys_of key rows)).
Proof. unfold group_keys. apply Permutation_length, sort_by_perm. Qed.

Lemma groupby_sum_keys (rows : list R) :
  map fst (groupby_sum keq_dec kle key val rows) = group_keys keq_dec kle key rows.
Proof. unfold groupby_sum. rewrite map_map. simpl. apply map_id. Qed.

Lemma groupby_sum_In (rows : list R) (x : K * Q) :
  In x (groupby_sum keq_dec kle key val rows) ->
  snd x = group_sum keq_dec key val rows (fst x) /\
  exists r, In r rows /\ key r = Some (fst x).
Proof.
  unfold groupby_sum. rewrite in_map_iff. intros [k [<- Hk]]. simpl.
  split; [reflexivity | now apply group_keys_In].
Qed.

(** The value [v] counted once for the key [k0] among distinct keys. *)
Lemma total_indicator (ks : list K) (k0 : K) (v : Q) :
  NoDup ks -> In k0 ks ->
  total (map (fun k => if keq_dec k0 k then v else 0) ks) == v.
Proof.
  induction 1 as [|k ks Hnin Hnd IH]; simpl; intros Hin.
  - contradiction.
  - destruct (keq_dec k0 k) as [->|Hne].
    + rewrite (total_map_ext _ (fun _ => 0)), total_map_zero; [ring|].
      intros a Ha. destruct (keq_dec k a) as [->|]; [contradiction | reflexivity].
    + destruct Hin as [->|Hin]; [congruence|]. rewrite IH by assumption. ring.
Qed.

Lemma group_sum_cons (r : R) (rows : list R) (k : K) :
  group_sum keq_dec key val (r :: rows) k
  == (if has_key keq_dec key k r then val r else 0) + group_sum keq_dec key val rows k.
Proof.
  unfold group_sum. simpl. destruct (has_key keq_dec key k r); simpl; ring.
Qed.

(** Summing the group sums over distinct keys that cover every row gives
    the sum over all rows. *)
Lemma total_group_sums (ks : list K) (rows : list R) :
  NoDup ks ->
  (forall r, In r rows -> exists k, key r = Some k /\ In k ks) ->
  total (map (group_sum keq_dec key val rows) ks) == total (map val rows).
Proof.
  intros Hnd. induction rows as [|r rows IH]; intros Hcov.
  - simpl. unfold group_sum. simpl. apply total_map_zero.
  - rewrite (total_map_ext _ _ _ (fun k _ => group_sum_cons r rows k)).
    rewrite (total_map_plus
               (fun k => if has_key keq_dec key k r then val r else 0)
               (group_sum keq_dec key val rows)).
    rewrite IH by (intros r' Hr'; apply Hcov; now right).
    destruct (Hcov r (or_introl eq_refl)) as [k0 [Hk0 Hin]].
    rewrite (total_map_ext _ (fun k => if keq_dec k0 k then val r else 0)).
    + rewrite total_indicator by assumption. simpl. ring.
    + intros k _. unfold has_key. rewrite Hk0.
      destruct (keq_dec k0 k); reflexivity.
Qed.

Lemma total_groupby_sum (rows : list R) :
  (forall r, In r rows -> key r <> None) ->
  total (map snd (groupby_sum keq_dec kle key val rows)) == total (map val rows).
Proof.
  intros Hkey. unfold groupby_sum. rewrite map_map. simpl.
  apply total_group_sums.
  - apply group_keys_NoDup.
  - intros r Hr. destruct (key r) as [k|] eqn:E.
    + exists k. split; [reflexivity|]. apply group_keys_In. now exists r.
    + now apply Hkey in Hr.
Qed.

End GroupByFacts.

(** ** The window and the two-country table *)

Lemma filter_window_dated (df : list Row) (date_range : Z * Z) (r : Row) :
  In r (filter_window df date_range) -> Date r <> None.
Proof.
  unfold filter_window. rewrite filter_In. unfold mask.
  intros [_ H]. destruct (Date r); [discriminate | discriminate H].
Qed.

Lemma assign_Country_same (c : string) (r : Row) :
  Country r = c -> assign_Country c r = r.
Proof. destruct r; simpl; intros <-; reflexivity. Qed.

Lemma country_rows_Country (c : string) (df_f : list Row) (r : Row) :
  In r (country_rows c df_f) -> Country r = c.
Proof.
  unfold country_rows. rewrite filter_In. intros [_ H]. now apply String.eqb_eq.
Qed.

Lemma map_assign_country_rows (c : string) (df_f : list Row) :
  map (assign_Country c) (country_rows c df_f) = country_rows c df_f.
Proof.
  rewrite <- (map_id (country_rows c df_f)) at 2.
  apply map_ext_in. intros r Hr.
  apply assign_Country_same. now apply country_rows_Country in Hr.
Qed.

(** The two-country table is the rows of the first country followed by
    the rows of the second one, unchanged. *)
Lemma df_compare_rows (df_f : list Row) (c1 c2 : string) :
  df_compare df_f c1 c2 = country_rows c1 df_f ++ country_rows c2 df_f.
Proof.
  unfold df_compare, df_c1, df_c2.
  change (filter (fun r => String.eqb (Country r) c1) df_f) with (country_rows c1 df_f).
  change (filter (fun r => String.eqb (Country r) c2) df_f) with (country_rows c2 df_f).
  now rewrite !map_assign_country_rows.
Qed.

Lemma df_compare_In (df_f : list Row) (c1 c2 : string) (r : Row) :
  In r (df_compare df_f c1 c2) -> In r df_f.
Proof.
  rewrite df_compare_rows, in_app_iff. unfold country_rows.
  rewrite !filter_In. tauto.
Qed.

Lemma total_world_all (df_f : list Row) (metric : Metric) :
  (forall r, In r df_f -> Date r <> None) ->
  total_world df_f metric == total (map (col metric) df_f).
Proof. intros H. unfold total_world, df_world. now apply total_groupby_sum. Qed.

Lemma total_two_countries (df_f : list Row) (c1 c2 : string) (metric : Metric) :
  (forall r, In r df_f -> Date r <> None) ->
  total_two df_f c1 c2 metric
  == country_total metric c1 df_f + country_total metric c2 df_f.
Proof.
  intros H. unfold total_two, df_two, country_total.
  rewrite total_groupby_sum.
  - rewrite df_compare_rows, map_app. apply total_app.
  - intros r Hr. apply H. now apply df_compare_In in Hr.
Qed.

(** ** Combined contribution versus rest of world *)

(** C2.  For every filtered window, metric and pair of selected countries:
    the global total is the sum of the metric over all rows of the window,
    the combined total is the sum over the rows of the two countries, the
    rest of world is the global total minus the combined total, and hence
    combined + rest equals the global total exactly.  The value put in the
    "Rest of World" row of the chart table is that difference as it is: when
    the combined total exceeds the global total the reported value is
    negative. *)
Theorem combined_plus_rest_is_global
  (df : list Row) (date_range : Z * Z) (c1 c2 : string) (metric : Metric) :
  let df_f := filter_window df date_range in
  total_world df_f metric == total (map (col metric) df_f) /\
  total_two df_f c1 c2 metric
    == country_total metric c1 df_f + country_total metric c2 df_f /\
  total_rest df_f c1 c2 metric == total_world df_f metric - total_two df_f c1 c2 metric /\
  total_two df_f c1 c2 metric + total_rest df_f c1 c2 metric == total_world df_f metric /\
  nth_error (df_comp df_f c1 c2 metric) 1
    = Some ("Rest of World"%string, total_rest df_f c1 c2 metric) /\
  (total_world df_f metric < total_two df_f c1 c2 metric ->
   total_rest df_f c1 c2 metric < 0).
Proof.
  intros df_f.
  assert (Hd : forall r, In r df_f -> Date r <> None)
    by (intros r; apply filter_window_dated).
  split; [now apply total_world_all|].
  split; [now apply total_two_countries|].
  unfold total_rest.
  split; [reflexivity|].
  split; [ring|].
  split; [reflexivity|].
  intros Hlt. apply (Qplus_lt_l _ _ (total_two df_f c1 c2 metric)).
  ring_simplify. exact Hlt.
Qed.

(** The rest of world is negative on a window that both selectors cover
    with the same country: 38 cases in the world, 60 counted for the pair. *)
Example rest_of_world_negative :
  df_comp (filter_window italy_window (1, 3)%Z) "Italy" "Italy" New_cases_metric
  = [ ("Italy + Italy"%string, total_two italy_window "Italy" "Italy" New_cases_metric);
      ("Rest of World"%string, total_rest italy_window "Italy" "Italy" New_cases_metric) ] /\
  total_world italy_window New_cases_metric == 38 /\
  total_two italy_window "Italy" "Italy" New_cases_metric == 60 /\
  total_rest italy_window "Italy" "Italy" New_cases_metric == -22.
Proof. repeat split; vm_compute; reflexivity. Qed.

(** The example of the specification: a global sum of 1000 with 300 for
    the two selected countries leaves 700. *)
Example rest_of_world_700 :
  let w := [ obs "Italy" 1 100; obs "Spain" 1 200; obs "France" 1 700 ] in
  total_world w New_cases_metric == 1000 /\
  total_two w "Italy" "Spain" New_cases_metric == 300 /\
  total_rest w "Italy" "Spain" New_cases_metric == 700.
Proof. repeat split; vm_compute; reflexivity. Qed.

(** C10.  When both selectors name the same country, the two-country table
    holds every row of that country twice, the combined total is exactly
    twice the total of that country over the window, and the reported rest
    of world is the global total minus this doubled sum: it is negative as
    soon as the country accounts for more than half of the global total,
    which happens on data whose counts are all non-negative. *)
Theorem same_country_double_counts :
  (forall (df : list Row) (date_range : Z * Z) (c : string) (metric : Metric),
     let df_f := filter_window df date_range in
     df_compare df_f c c = country_rows c df_f ++ country_rows c df_f /\
     total_two df_f c c metric == 2 * country_total metric c df_f /\
     total_rest df_f c c metric
       == total (map (col metric) df_f) - 2 * country_total metric c df_f /\
     (total (map (col metric) df_f) < 2 * country_total metric c df_f <->
      total_rest df_f c c metric < 0)) /\
  (exists (df : list Row) (date_range : Z * Z) (c : string) (metric : Metric),
     (forall r, In r df ->
        0 <= New_cases r /\ 0 <= New_deaths r /\
        0 <= Cumulative_cases r /\ 0 <= Cumulative_deaths r) /\
     total_rest (filter_window df date_range) c c metric < 0).
Proof.
  split.
  - intros df date_range c metric df_f.
    assert (Hd : forall r, In r df_f -> Date r <> None)
      by (intros r; apply filter_window_dated).
    assert (H2 : total_two df_f c c metric == 2 * country_total metric c df_f)
      by (rewrite total_two_countries by assumption; ring).
    assert (Hr : total_rest df_f c c metric
                 == total (map (col metric) df_f) - 2 * country_total metric c df_f)
      by (unfold total_rest; rewrite H2, total_world_all by assumption; reflexivity).
    split; [apply df_compare_rows|].
    split; [exact H2|].
    split; [exact Hr|].
    rewrite Hr. split; intros H.
    + apply (Qplus_lt_l _ _ (2 * country_total metric c df_f)). ring_simplify. exact H.
    + apply (Qplus_lt_l _ _ (- (2 * country_total metric c df_f))). ring_simplify.
      ring_simplify in H. exact H.
  - exists one_country, (1, 1)%Z, "Italy"%string, New_cases_metric. split.
    + intros r [<-|[]]. repeat split; discriminate.
    + reflexivity.
Qed.

(** A single country with 7 cases, selected twice: 14 for the pair, -7
    for the rest of the world. *)
Example same_country_negative_rest :
  total_world one_country New_cases_metric == 7 /\
  total_two one_country "Italy" "Italy" New_cases_metric == 14 /\
  total_rest one_country "Italy" "Italy" New_cases_metric == -7.
Proof. repeat split; vm_compute; reflexivity. Qed.

(** ** Growth rates *)

Lemma groupby_pct_change_cons (last : string -> num) (k : string) (v : Q)
      (rest : list (string * Q)) :
  map (fun vs => pct (fst vs) (snd vs))
      (combine (map snd ((k, v) :: rest)) (groupby_shift last ((k, v) :: rest)))
  = pct v (last k)
    :: map (fun vs => pct (fst vs) (snd vs))
         (combine (map snd rest)
            (groupby_shift (fun k' => if String.eqb k' k then Fin v else last k') rest)).
Proof. reflexivity. Qed.

(** Within one group the shifted value is the previous value of the list. *)
Lemma growth_one_group (c : string) (rows : list (string * Q)) :
  Forall (fun x => fst x = c) rows ->
  forall last,
    map (fillna 0)
        (map (fun vs => pct (fst vs) (snd vs))
             (combine (map snd rows) (groupby_shift last rows)))
    = growth_from (last c) (map snd rows).
Proof.
  induction 1 as [|[k v] rows Hk Hall IH]; intros last.
  - reflexivity.
  - simpl in Hk. subst k. rewrite groupby_pct_change_cons. simpl map at 1.
    rewrite IH. simpl. now rewrite String.eqb_refl.
Qed.

(** Two groups stored one after the other do not see each other. *)
Lemma growth_two_groups (c1 c2 : string) (A B : list (string * Q)) :
  c1 <> c2 ->
  Forall (fun x => fst x = c1) A ->
  Forall (fun x => fst x = c2) B ->
  forall last,
    map (fillna 0)
        (map (fun vs => pct (fst vs) (snd vs))
             (combine (map snd (A ++ B)) (groupby_shift last (A ++ B))))
    = growth_from (last c1) (map snd A) ++ growth_from (last c2) (map snd B).
Proof.
  intros Hne HA HB. induction HA as [|[k v] A Hk Hall IH]; intros last.
  - simpl. now apply growth_one_group.
  - simpl in Hk. subst k. rewrite <- app_comm_cons, groupby_pct_change_cons.
    simpl map at 1. rewrite IH. simpl. rewrite String.eqb_refl.
    assert (E : String.eqb c2 c1 = false) by (apply String.eqb_neq; congruence).
    now rewrite E.
Qed.

Lemma growth_from_length (prev : num) (vs : list Q) :
  List.length (growth_from prev vs) = List.length vs.
Proof.
  revert prev. induction vs as [|v vs IH]; intros prev; simpl; [|rewrite IH]; reflexivity.
Qed.

Lemma pct_after_nonzero (x p : Q) :
  ~ p == 0 -> fillna 0 (pct x (Fin p)) = Fin (x / p - 1).
Proof.
  intros Hp. unfold pct. simpl.
  destruct (Qeq_bool p 0) eqn:E.
  - apply Qeq_bool_iff in E. contradiction.
  - reflexivity.
Qed.

(** After a zero the rate is not guarded: it is an infinity of the sign of
    the current value, and 0 only when the current value is 0 as well. *)
Lemma pct_after_zero (x p : Q) :
  p == 0 ->
  fillna 0 (pct x (Fin p))
  = if Qeq_bool x 0 then Fin 0 else if Qle_bool 0 x then PInf else NInf.
Proof.
  intros Hp. unfold pct. simpl.
  apply Qeq_bool_iff in Hp. rewrite Hp.
  destruct (Qeq_bool x 0); [reflexivity|].
  destruct (Qle_bool 0 x); reflexivity.
Qed.

Lemma growth_from_next (prev : num) (vs : list Q) (i : nat) (p x : Q) :
  nth_error vs i = Some p -> nth_error vs (S i) = Some x -> ~ p == 0 ->
  exists q, nth_error (growth_from prev vs) (S i) = Some (Fin q) /\ q == (x - p) / p.
Proof.
  revert prev vs. induction i as [|i IH]; intros prev vs Hp Hx Hnz.
  - destruct vs as [|p' [|x' vs]]; try discriminate.
    simpl in Hp, Hx. injection Hp as ->. injection Hx as ->.
    exists (x / p - 1). split.
    + simpl. now rewrite <- pct_after_nonzero.
    + field. exact Hnz.
  - destruct vs as [|v vs]; [discriminate|].
    simpl in Hp. change (nth_error (v :: vs) (S (S i))) with (nth_error vs (S i)) in Hx.
    destruct (IH (Fin v) vs Hp Hx Hnz) as [q [Hq Hq']].
    exists q. split; [exact Hq | exact Hq'].
Qed.

Lemma growth_from_series (vs : list Q) : growth_rate_series vs (growth_from NaN vs).
Proof.
  split; [apply growth_from_length|]. split.
  - destruct vs as [|v vs]; [congruence | reflexivity].
  - intros i p x. apply growth_from_next.
Qed.

Lemma combine_app_same {A B : Type} (a1 a2 : list A) (b1 b2 : list B) :
  List.length a1 = List.length b1 ->
  combine (a1 ++ a2) (b1 ++ b2) = combine a1 b1 ++ combine a2 b2.
Proof.
  revert b1. induction a1 as [|x a1 IH]; intros [|y b1] H; try discriminate.
  - reflexivity.
  - simpl. f_equal. apply IH. now injection H.
Qed.

Lemma map_snd_combine_same {A B : Type} (a : list A) (b : list B) :
  List.length a = List.length b -> map snd (combine a b) = b.
Proof.
  revert b. induction a as [|x a IH]; intros [|y b] H; try discriminate.
  - reflexivity.
  - simpl. f_equal. apply IH. now injection H.
Qed.

Lemma filter_combine_all {A B : Type} (f : A -> bool) (a : list A) (b : list B) :
  Forall (fun x => f x = true) a ->
  filter (fun x => f (fst x)) (combine a b) = combine a b.
Proof.
  intros H. revert b. induction H as [|x a Hx Ha IH]; intros [|y b]; try reflexivity.
  simpl. rewrite Hx. f_equal. apply IH.
Qed.

Lemma filter_combine_none {A B : Type} (f : A -> bool) (a : list A) (b : list B) :
  Forall (fun x => f x = false) a ->
  filter (fun x => f (fst x)) (combine a b) = [].
Proof.
  intros H. revert b. induction H as [|x a Hx Ha IH]; intros [|y b]; try reflexivity.
  simpl. rewrite Hx. apply IH.
Qed.

Lemma country_rows_tagged (metric : Metric) (c : string) (df_f : list Row) :
  Forall (fun x : string * Q => fst x = c)
         (map (fun r => (Country r, col metric r)) (country_rows c df_f)).
Proof.
  apply Forall_forall. intros x Hx. apply in_map_iff in Hx.
  destruct Hx as [r [<- Hr]]. simpl. now apply country_rows_Country in Hr.
Qed.

Lemma country_rows_eqb (c c' : string) (df_f : list Row) :
  Forall (fun r => String.eqb (Country r) c' = String.eqb c c') (country_rows c df_f).
Proof.
  apply Forall_forall. intros r Hr. now rewrite (country_rows_Country _ _ _ Hr).
Qed.

(** The column of growth rates when the two countries differ: the series
    of the first country followed by the series of the second one. *)
Lemma GrowthRate_distinct (df_f : list Row) (c1 c2 : string) (metric : Metric) :
  c1 <> c2 ->
  GrowthRate df_f c1 c2 metric
  = growth_from NaN (map (col metric) (country_rows c1 df_f))
    ++ growth_from NaN (map (col metric) (country_rows c2 df_f)).
Proof.
  intros Hne. unfold GrowthRate, groupby_pct_change.
  rewrite df_compare_rows, map_app.
  rewrite (growth_two_groups c1 c2) by
    (try assumption; apply country_rows_tagged).
  now rewrite !map_map.
Qed.

(** The column when both selectors name one country: a single series over
    the rows taken twice. *)
Lemma GrowthRate_same (df_f : list Row) (c : string) (metric : Metric) :
  GrowthRate df_f c c metric
  = growth_from NaN (map (col metric) (country_rows c df_f ++ country_rows c df_f)).
Proof.
  unfold GrowthRate, groupby_pct_change. rewrite df_compare_rows.
  rewrite (growth_one_group c).
  - now rewrite map_map.
  - rewrite map_app. apply Forall_app. split; apply country_rows_tagged.
Qed.

Lemma Sorted_combine_fst {A B : Type} (le : A -> A -> bool) (a : list A) (b : list B) :
  Sorted (fun x y => le x y = true) a ->
  Sorted (fun x y => le (fst x) (fst y) = true) (combine a b).
Proof.
  intros H. revert b. induction H as [|x a Hs IH Hd]; intros [|y b]; simpl;
    try constructor.
  - apply IH.
  - destruct Hd as [|z a Hxz]; [constructor|].
    destruct b as [|w b]; simpl; constructor. exact Hxz.
Qed.

(** The rows of [df_gr] when the two countries differ: each country keeps
    its own rows, paired with the growth rates of its own series. *)
Lemma rows_of_distinct (df_f : list Row) (c1 c2 : string) (metric : Metric) :
  c1 <> c2 ->
  rows_of c1 (df_gr df_f c1 c2 metric)
  = combine (country_rows c1 df_f)
            (growth_from NaN (map (col metric) (country_rows c1 df_f))) /\
  rows_of c2 (df_gr df_f c1 c2 metric)
  = combine (country_rows c2 df_f)
            (growth_from NaN (map (col metric) (country_rows c2 df_f))).
Proof.
  intros Hne. unfold rows_of, df_gr.
  rewrite GrowthRate_distinct, df_compare_rows by assumption.
  assert (L : forall c, List.length (country_rows c df_f)
                        = List.length (growth_from NaN (map (col metric) (country_rows c df_f))))
    by (intros c; now rewrite growth_from_length, length_map).
  rewrite combine_app_same by apply L.
  rewrite !filter_app.
  assert (E12 : String.eqb c1 c2 = false) by now apply String.eqb_neq.
  assert (E21 : String.eqb c2 c1 = false) by (apply String.eqb_neq; congruence).
  pose proof (fun c c' =>
    filter_combine_all (fun r => String.eqb (Country r) c') (country_rows c df_f)
      (growth_from NaN (map (col metric) (country_rows c df_f)))) as Hall.
  pose proof (fun c c' =>
    filter_combine_none (fun r => String.eqb (Country r) c') (country_rows c df_f)
      (growth_from NaN (map (col metric) (country_rows c df_f)))) as Hnone.
  cbv beta in Hall, Hnone.
  split.
  - rewrite (Hall c1 c1), (Hnone c2 c1), app_nil_r.
    + reflexivity.
    + eapply Forall_impl; [|apply (country_rows_eqb c2 c1)].
      intros r ->. exact E21.
    + eapply Forall_impl; [|apply (country_rows_eqb c1 c1)].
      intros r ->. apply String.eqb_refl.
  - rewrite (Hnone c1 c2), (Hall c2 c2).
    + reflexivity.
    + eapply Forall_impl; [|apply (country_rows_eqb c2 c2)].
      intros r ->. apply String.eqb_refl.
    + eapply Forall_impl; [|apply (country_rows_eqb c1 c2)].
      intros r ->. exact E12.
Qed.

Lemma growth_by_date_stored (rows : list Row) (g : list num) :
  date_ascending rows -> List.length rows = List.length g ->
  map snd (sort_by (fun a b : Row * num => date_leb (fst a) (fst b)) (combine rows g)) = g.
Proof.
  intros Hasc Hlen.
  rewrite (sort_by_sorted_id (fun a b : Row * num => date_leb (fst a) (fst b))).
  - now apply map_snd_combine_same.
  - now apply (Sorted_combine_fst date_leb).
Qed.

(** C1 (amended).  Let the two selected countries be distinct and let the
    rows of a selected country be stored in ascending date order.  Then,
    taking the rows of that country in date order, [df_gr] holds one growth
    rate per observation, the rate of the first observation is exactly 0,
    and the rate of every later observation whose previous value is nonzero
    is (current - previous) / previous. *)
Theorem growth_rate_series_of_selected
  (df_f : list Row) (c1 c2 c : string) (metric : Metric) :
  c1 <> c2 ->
  c = c1 \/ c = c2 ->
  date_ascending (country_rows c df_f) ->
  growth_rate_series
    (map (col metric) (sort_by date_leb (country_rows c df_f)))
    (growth_by_date c (df_gr df_f c1 c2 metric)).
Proof.
  intros Hne Hc Hasc.
  rewrite (sort_by_sorted_id date_leb) by exact Hasc.
  destruct (rows_of_distinct df_f c1 c2 metric Hne) as [G1 G2].
  unfold growth_by_date.
  destruct Hc as [-> | ->]; [rewrite G1 | rewrite G2];
    (rewrite growth_by_date_stored;
     [apply growth_from_series | exact Hasc
      | now rewrite growth_from_length, length_map]).
Qed.

(** The example of the specification: Italy with 10, 20 and 0 new cases on
    three consecutive days, compared with Germany. *)
Lemma growth_rate_series_Italy :
  "Germany"%string <> "Italy"%string /\
  date_ascending (country_rows "Italy" italy_window) /\
  growth_rate_series
    [10; 20; 0]
    (growth_by_date "Italy" (df_gr italy_window "Germany" "Italy" New_cases_metric)).
Proof.
  split; [discriminate|].
  split; [repeat constructor|].
  apply (growth_rate_series_of_selected
           italy_window "Germany" "Italy" "Italy" New_cases_metric).
  - discriminate.
  - right; reflexivity.
  - repeat constructor.
Defined.

Example growth_rate_Italy_values :
  Forall2 num_eq
    (growth_by_date "Italy" (df_gr italy_window "Germany" "Italy" New_cases_metric))
    [Fin 0; Fin 1; Fin (-1)].
Proof. vm_compute. repeat constructor. Qed.

(** C1 as stated fails in two ways.  When both selectors name the same
    country, its rows are differenced as one series of twice the length:
    the second copy of the first observation carries the change from the
    last value back to the first one.  When the rows of a country are not
    stored by date, they are differenced as stored: the earliest
    observation gets the change from the later one. *)
Lemma growth_rate_series_counterexample :
  (Forall2 num_eq
     (growth_by_date "Italy" (df_gr italy_two_days "Italy" "Italy" New_cases_metric))
     [Fin 0; Fin (-1 # 2); Fin 1; Fin 1] /\
   (exists g, nth_error (df_gr italy_two_days "Italy" "Italy" New_cases_metric) 2
              = Some (obs "Italy" 1 10, g) /\ num_eq g (Fin (-1 # 2))) /\
   ~ growth_rate_series
       (map (col New_cases_metric)
            (sort_by date_leb (country_rows "Italy" italy_two_days)))
       (growth_by_date "Italy" (df_gr italy_two_days "Italy" "Italy" New_cases_metric))) /\
  (map (col New_cases_metric) (sort_by date_leb (country_rows "Italy" italy_latest_first))
   = [10; 20] /\
   Forall2 num_eq
     (growth_by_date "Italy"
        (df_gr italy_latest_first "Germany" "Italy" New_cases_metric))
     [Fin (-1 # 2); Fin 0] /\
   ~ growth_rate_series
       (map (col New_cases_metric)
            (sort_by date_leb (country_rows "Italy" italy_latest_first)))
       (growth_by_date "Italy"
          (df_gr italy_latest_first "Germany" "Italy" New_cases_metric))).
Proof.
  split.
  - split; [vm_compute; repeat constructor|]. split.
    + eexists. split; vm_compute; reflexivity.
    + intros [Hlen _]. vm_compute in Hlen. discriminate Hlen.
  - split; [reflexivity|]. split; [vm_compute; repeat constructor|].
    intros [_ [Hfirst _]].
    assert (Hne : [10; 20] <> @nil Q) by discriminate.
    specialize (Hfirst Hne). vm_compute in Hfirst. discriminate Hfirst.
Qed.

(** C6 (the code at the failing input).  Italy reports 0 and then 5 new
    cases: the growth rate of the second day is 5/0 - 1, an infinity that
    [fillna(0)] leaves in place. *)
Theorem growth_rate_after_zero_is_infinite :
  GrowthRate zero_then_five "Germany" "Italy" New_cases_metric = [Fin 0; Fin 0; PInf] /\
  growth_by_date "Italy" (df_gr zero_then_five "Germany" "Italy" New_cases_metric)
  = [Fin 0; PInf] /\
  existsb is_inf (GrowthRate zero_then_five "Germany" "Italy" New_cases_metric) = true.
Proof. repeat split; reflexivity. Qed.

(** ** Case fatality ratio *)

Lemma CFR_zero_cases (r : Row) : Cumulative_cases r == 0 -> CFR r = NaN.
Proof.
  intros H. unfold CFR, replace_zero_None.
  apply Qeq_bool_iff in H. now rewrite H.
Qed.

Lemma CFR_nonzero_cases (r : Row) :
  ~ Cumulative_cases r == 0 ->
  CFR r = Fin (Cumulative_deaths r / Cumulative_cases r).
Proof.
  intros H. unfold CFR, replace_zero_None.
  destruct (Qeq_bool (Cumulative_cases r) 0) eqn:E.
  - apply Qeq_bool_iff in E. contradiction.
  - simpl. now rewrite E.
Qed.

(** C3.  [df_cfr] has one row per row of the two selected countries; its
    CFR is cumulative deaths divided by cumulative cases when cumulative
    cases is nonzero and the missing value when cumulative cases is zero;
    it is never an infinity. *)
Theorem case_fatality_ratio_series (df_f : list Row) (c1 c2 : string) :
  map fst (df_cfr df_f c1 c2) = country_rows c1 df_f ++ country_rows c2 df_f /\
  forall r v, In (r, v) (df_cfr df_f c1 c2) ->
    (Cumulative_cases r == 0 -> v = NaN) /\
    (~ Cumulative_cases r == 0 ->
     v = Fin (Cumulative_deaths r / Cumulative_cases r)) /\
    is_inf v = false.
Proof.
  split.
  - unfold df_cfr. rewrite map_map. simpl. rewrite map_id. apply df_compare_rows.
  - intros r v Hin. unfold df_cfr in Hin. apply in_map_iff in Hin.
    destruct Hin as [r' [E _]]. injection E as -> <-.
    split; [apply CFR_zero_cases|]. split; [apply CFR_nonzero_cases|].
    destruct (Qeq_dec (Cumulative_cases r) 0) as [Hz|Hnz].
    + now rewrite CFR_zero_cases.
    + now rewrite CFR_nonzero_cases.
Qed.

(** The example of the specification: cumulative cases 0, 5, 10 with
    cumulative deaths 0, 1, 2 give the ratios null, 0.2, 0.2. *)
Example case_fatality_ratio_values :
  Forall2 num_eq (map snd (rows_of "Italy" (df_cfr cfr_window "Germany" "Italy")))
          [NaN; Fin (2 # 10); Fin (2 # 10)].
Proof. vm_compute. repeat constructor. Qed.

(** ** Ranking *)

Lemma keys_of_total {R K : Type} (f : R -> K) (rows : list R) :
  keys_of (fun r => Some (f r)) rows = map f rows.
Proof. induction rows as [|r rows IH]; simpl; [|rewrite IH]; reflexivity. Qed.

Lemma existsb_eqb_In (x : string) (l : list string) :
  existsb (String.eqb x) l = true <-> In x l.
Proof.
  rewrite existsb_exists. split.
  - intros [y [Hy E]]. apply String.eqb_eq in E. now subst.
  - intros H. exists x. split; [exact H | apply String.eqb_refl].
Qed.

Lemma filter_fst_In {V : Type} (sel : string) (l : list (string * V)) (r : string * V) :
  In r (filter (fun r => String.eqb (fst r) sel) l) <-> In r l /\ fst r = sel.
Proof. rewrite filter_In, String.eqb_eq. reflexivity. Qed.

Lemma filter_fst_absent {V : Type} (sel : string) (l : list (string * V)) :
  ~ In sel (map fst l) -> filter (fun r => String.eqb (fst r) sel) l = [].
Proof.
  induction l as [|r l IH]; simpl; intros H; [reflexivity|].
  destruct (String.eqb (fst r) sel) eqn:E.
  - apply String.eqb_eq in E. tauto.
  - apply IH. tauto.
Qed.

(** With distinct countries, at most one row belongs to [sel]. *)
Lemma filter_fst_NoDup {V : Type} (sel : string) (l : list (string * V)) :
  NoDup (map fst l) ->
  (List.length (filter (fun r => String.eqb (fst r) sel) l) <= 1)%nat.
Proof.
  induction l as [|r l IH]; simpl; intros H; [lia|].
  inversion H as [|k ks Hnin Hnd]; subst.
  destruct (String.eqb (fst r) sel) eqn:E.
  - apply String.eqb_eq in E. subst sel.
    rewrite filter_fst_absent by exact Hnin. simpl. lia.
  - now apply IH.
Qed.

Lemma filter_fst_present {V : Type} (sel : string) (l : list (string * V)) :
  NoDup (map fst l) -> In sel (map fst l) ->
  List.length (filter (fun r => String.eqb (fst r) sel) l) = 1%nat.
Proof.
  intros Hnd Hin. pose proof (filter_fst_NoDup sel l Hnd) as Hle.
  apply in_map_iff in Hin. destruct Hin as [r [Hr Hin]].
  assert (Hf : In r (filter (fun r => String.eqb (fst r) sel) l))
    by (apply filter_fst_In; auto).
  destruct (filter (fun r => String.eqb (fst r) sel) l); simpl in *; [contradiction | lia].
Qed.

Section AddSelected.
Variable rank : list (string * Q).
Hypothesis rank_NoDup : NoDup (map fst rank).

Lemma add_selected_incl (top : list (string * Q)) (sel : string) :
  incl top rank -> incl (add_selected rank top sel) rank.
Proof.
  intros H. unfold add_selected.
  destruct (existsb (String.eqb sel) (map fst top)); [exact H|].
  apply incl_app; [exact H|]. intros r Hr. now apply filter_fst_In in Hr.
Qed.

Lemma add_selected_keeps (top : list (string * Q)) (sel : string) :
  exists extra,
    add_selected rank top sel = top ++ extra /\
    (List.length extra <= 1)%nat /\
    forall r, In r extra -> In r rank /\ fst r = sel /\ ~ In sel (map fst top).
Proof.
  unfold add_selected.
  destruct (existsb (String.eqb sel) (map fst top)) eqn:E.
  - exists []. rewrite app_nil_r. repeat split; simpl; try lia; contradiction.
  - exists (filter (fun r => String.eqb (fst r) sel) rank).
    split; [reflexivity|]. split; [now apply filter_fst_NoDup|].
    intros r Hr. apply filter_fst_In in Hr. destruct Hr as [Hin Hsel].
    repeat split; try assumption.
    intros Hc. apply existsb_eqb_In in Hc. congruence.
Qed.

Lemma add_selected_NoDup (top : list (string * Q)) (sel : string) :
  NoDup (map fst top) -> NoDup (map fst (add_selected rank top sel)).
Proof.
  intros Hnd. destruct (add_selected_keeps top sel) as [extra [-> [Hlen Hex]]].
  rewrite map_app. destruct extra as [|r [|r' extra]]; simpl in *.
  - now rewrite app_nil_r.
  - destruct (Hex r (or_introl eq_refl)) as [_ [Hsel Hnin]].
    eapply Permutation_NoDup; [apply Permutation_cons_append|].
    constructor; [now rewrite Hsel | exact Hnd].
  - lia.
Qed.

End AddSelected.

Lemma firstn_incl {A : Type} (n : nat) (l : list A) : incl (firstn n l) l.
Proof.
  intros x Hx. rewrite <- (firstn_skipn n l). apply in_or_app. now left.
Qed.

Lemma firstn_map_NoDup {A B : Type} (f : A -> B) (n : nat) (l : list A) :
  NoDup (map f l) -> NoDup (map f (firstn n l)).
Proof.
  intros H. rewrite <- (firstn_skipn n l), map_app in H.
  now apply NoDup_app_remove_r in H.
Qed.

Lemma Sorted_firstn {A : Type} (R : A -> A -> Prop) (n : nat) (l : list A) :
  Sorted R l -> Sorted R (firstn n l).
Proof.
  revert l. induction n as [|n IH]; intros l H; simpl; [constructor|].
  destruct H as [|x l Hs Hd]; constructor.
  - now apply IH.
  - destruct Hd as [|y l Hxy]; destruct n; simpl; constructor; assumption.
Qed.

Lemma desc_trans : Relations_1.Transitive desc.
Proof. intros a b c Hab Hbc. unfold desc in *. now apply Qle_trans with (snd b). Qed.

(** In a table sorted by decreasing sum, no row after the first [n] rows
    has a larger sum than one of the first [n]. *)
Lemma Sorted_desc_split (n : nat) (l : list (string * Q)) :
  Sorted desc l ->
  forall a b, In a (firstn n l) -> In b (skipn n l) -> snd b <= snd a.
Proof.
  intros Hs. apply Sorted_StronglySorted in Hs; [|exact desc_trans].
  revert l Hs. induction n as [|n IH]; intros l Hs a b Ha Hb; simpl in *.
  - contradiction.
  - destruct l as [|x l]; [contradiction|]. simpl in *.
    apply StronglySorted_inv in Hs. destruct Hs as [Hs Hall].
    destruct Ha as [->|Ha].
    + rewrite Forall_forall in Hall. apply Hall.
      rewrite <- (firstn_skipn n l). apply in_or_app. now right.
    + now apply (IH l Hs).
Qed.

Lemma stable_sort_desc_sorts : sorts_descending stable_sort_desc.
Proof.
  intros l. split; [apply sort_by_perm|].
  unfold stable_sort_desc.
  assert (H : Sorted (fun a b : string * Q => Qle_bool (snd b) (snd a) = true)
                     (sort_by (fun a b => Qle_bool (snd b) (snd a)) l)).
  { apply sort_by_sorted. intros a b E.
    apply Qle_bool_iff. destruct (Qlt_le_dec (snd a) (snd b)) as [Hlt|Hle].
    - now apply Qlt_le_weak.
    - apply Qle_bool_iff in Hle. congruence. }
  induction H as [|x s Hs IH Hd]; constructor; [exact IH|].
  destruct Hd as [|y s Hxy]; constructor. now apply Qle_bool_iff.
Qed.

Section RankingFacts.
Variable df_f : list Row.
Variables c1 c2 : string.
Variable metric : Metric.
Variable sort_values : list (string * Q) -> list (string * Q).
Hypothesis sort_values_sorts : sorts_descending sort_values.

Lemma df_rank_perm :
  Permutation (df_rank df_f metric sort_values)
    (groupby_sum string_dec String.leb (fun r => Some (Country r)) (col metric) df_f).
Proof. unfold df_rank. apply sort_values_sorts. Qed.

Lemma df_rank_sorted : Sorted desc (df_rank df_f metric sort_values).
Proof. unfold df_rank. apply sort_values_sorts. Qed.

Lemma df_rank_NoDup : NoDup (map fst (df_rank df_f metric sort_values)).
Proof.
  eapply Permutation_NoDup.
  - apply Permutation_sym, Permutation_map, df_rank_perm.
  - rewrite groupby_sum_keys. apply group_keys_NoDup.
Qed.

Lemma df_rank_length :
  List.length (df_rank df_f metric sort_values) = n_countries df_f.
Proof.
  rewrite (Permutation_length df_rank_perm).
  unfold groupby_sum. rewrite length_map, group_keys_length, keys_of_total.
  reflexivity.
Qed.

Lemma df_rank_countries (k : string) :
  In k (map fst (df_rank df_f metric sort_values)) <-> In k (map Country df_f).
Proof.
  assert (P := Permutation_map fst df_rank_perm).
  rewrite groupby_sum_keys in P.
  split; intros H.
  - apply (Permutation_in _ P) in H. apply group_keys_In in H.
    destruct H as [r [Hr E]]. injection E as <-. now apply in_map.
  - apply (Permutation_in _ (Permutation_sym P)). apply group_keys_In.
    apply in_map_iff in H. destruct H as [r [<- Hr]]. now exists r.
Qed.

Lemma group_sum_country (k : string) :
  group_sum string_dec (fun r => Some (Country r)) (col metric) df_f k
  = country_total metric k df_f.
Proof.
  unfold group_sum, country_total, country_rows. do 2 f_equal.
  apply filter_ext. intros r. unfold has_key.
  destruct (string_dec (Country r) k) as [->|Hne].
  - now rewrite String.eqb_refl.
  - symmetry. now apply String.eqb_neq.
Qed.

Lemma df_rank_rows (x : string * Q) :
  In x (df_rank df_f metric sort_values) ->
  snd x = country_total metric (fst x) df_f.
Proof.
  intros H. apply (Permutation_in _ df_rank_perm) in H.
  apply groupby_sum_In in H. destruct H as [-> _]. apply group_sum_country.
Qed.

Lemma df_top_steps :
  df_top df_f c1 c2 metric sort_values
  = add_selected (df_rank df_f metric sort_values)
      (add_selected (df_rank df_f metric sort_values)
         (firstn 10 (df_rank df_f metric sort_values)) c1) c2.
Proof. reflexivity. Qed.

(** The ranking is the first ten rows followed by the rows appended for
    the selected countries that were missing from them. *)
Lemma df_top_shape :
  exists extra,
    df_top df_f c1 c2 metric sort_values
    = firstn 10 (df_rank df_f metric sort_values) ++ extra /\
    (List.length extra <= 2)%nat /\
    forall r, In r extra ->
      In r (df_rank df_f metric sort_values) /\
      (fst r = c1 \/ fst r = c2) /\
      ~ In (fst r) (map fst (firstn 10 (df_rank df_f metric sort_values))).
Proof.
  rewrite df_top_steps.
  set (rank := df_rank df_f metric sort_values).
  destruct (add_selected_keeps rank df_rank_NoDup (firstn 10 rank) c1)
    as [e1 [E1 [L1 H1]]].
  destruct (add_selected_keeps rank df_rank_NoDup
              (add_selected rank (firstn 10 rank) c1) c2)
    as [e2 [E2 [L2 H2]]].
  exists (e1 ++ e2). rewrite E2, E1, <- app_assoc.
  split; [reflexivity|]. split; [rewrite length_app; lia|].
  intros r Hr. apply in_app_or in Hr. destruct Hr as [Hr|Hr].
  - destruct (H1 r Hr) as [Hin [Hsel Hnin]]. rewrite Hsel. auto.
  - destruct (H2 r Hr) as [Hin [Hsel Hnin]]. rewrite Hsel.
    repeat split; auto. intros Hc. apply Hnin.
    rewrite E1, map_app. apply in_or_app. now left.
Qed.

Lemma df_top_incl :
  incl (df_top df_f c1 c2 metric sort_values) (df_rank df_f metric sort_values).
Proof.
  rewrite df_top_steps. do 2 apply add_selected_incl. apply firstn_incl.
Qed.

Lemma df_top_NoDup : NoDup (map fst (df_top df_f c1 c2 metric sort_values)).
Proof.
  rewrite df_top_steps.
  do 2 (apply add_selected_NoDup; [apply df_rank_NoDup|]).
  apply firstn_map_NoDup, df_rank_NoDup.
Qed.

Lemma df_top_length :
  (Nat.min 10 (n_countries df_f)
   <= List.length (df_top df_f c1 c2 metric sort_values)
   <= Nat.min 10 (n_countries df_f) + 2)%nat.
Proof.
  destruct df_top_shape as [extra [-> [Hlen _]]].
  rewrite length_app, length_firstn, df_rank_length. lia.
Qed.

Lemma add_selected_has (rank top : list (string * Q)) (sel : string) :
  In sel (map fst rank) -> In sel (map fst (add_selected rank top sel)).
Proof.
  intros H. unfold add_selected.
  destruct (existsb (String.eqb sel) (map fst top)) eqn:E.
  - now apply existsb_eqb_In.
  - rewrite map_app. apply in_or_app. right.
    apply in_map_iff in H. destruct H as [r [Hr Hin]].
    apply in_map_iff. exists r. split; [exact Hr|]. apply filter_fst_In. auto.
Qed.

Lemma add_selected_mono (rank top : list (string * Q)) (sel k : string) :
  In k (map fst top) -> In k (map fst (add_selected rank top sel)).
Proof.
  intros H. unfold add_selected.
  destruct (existsb (String.eqb sel) (map fst top)); [exact H|].
  rewrite map_app. apply in_or_app. now left.
Qed.

(** A selected country is in the ranking exactly when it has a row in the
    window. *)
Lemma df_top_selected (sel : string) :
  sel = c1 \/ sel = c2 ->
  (In sel (map fst (df_top df_f c1 c2 metric sort_values))
   <-> In sel (map Country df_f)).
Proof.
  intros Hsel. rewrite <- df_rank_countries. split.
  - apply incl_map, df_top_incl.
  - intros H. rewrite df_top_steps. destruct Hsel as [->| ->].
    + now apply add_selected_mono, add_selected_has.
    + now apply add_selected_has.
Qed.

End RankingFacts.

(** C4 (amended).  For every window, metric and pair of selected
    countries, whatever the sort does with ties: the ranking lists every
    country of the window once with its sum of the metric, by decreasing
    sum; the table shown is its first ten rows, followed by the row of each
    selected country that is not among them and has a row in the window.
    It has no two rows of one country; with n distinct countries in the
    window it has between min(10, n) and min(10, n) + 2 rows, hence 10, 11
    or 12 rows when n is at least 10; a selected country is in it exactly
    when it has a row in the window; each row is flagged with its country
    followed by " (Selected)" when the country is one of the two chosen and
    with "Other" otherwise. *)
Theorem top_n_ranking
  (df_f : list Row) (c1 c2 : string) (metric : Metric)
  (sort_values : list (string * Q) -> list (string * Q)) :
  sorts_descending sort_values ->
  let rank := df_rank df_f metric sort_values in
  let top := df_top df_f c1 c2 metric sort_values in
  (Sorted desc rank /\
   NoDup (map fst rank) /\
   (forall k, In k (map fst rank) <-> In k (map Country df_f)) /\
   (forall x, In x rank -> snd x = country_total metric (fst x) df_f)) /\
  (forall a b, In a (firstn 10 rank) -> In b (skipn 10 rank) -> snd b <= snd a) /\
  (exists extra,
      top = firstn 10 rank ++ extra /\
      (List.length extra <= 2)%nat /\
      forall r, In r extra ->
        In r rank /\ (fst r = c1 \/ fst r = c2) /\
        ~ In (fst r) (map fst (firstn 10 rank))) /\
  NoDup (map fst top) /\
  (Nat.min 10 (n_countries df_f) <= List.length top
   <= Nat.min 10 (n_countries df_f) + 2)%nat /\
  (10 <= n_countries df_f -> 10 <= List.length top <= 12)%nat /\
  (forall sel, sel = c1 \/ sel = c2 ->
     (In sel (map fst top) <-> In sel (map Country df_f))) /\
  (forall r flag, In (r, flag) (df_top_flagged df_f c1 c2 metric sort_values) ->
     In r top /\
     (fst r = c1 \/ fst r = c2 -> flag = (fst r ++ " (Selected)")%string) /\
     (fst r <> c1 -> fst r <> c2 -> flag = "Other"%string)).
Proof.
  intros Hsort rank top.
  pose proof (df_top_length df_f c1 c2 metric sort_values Hsort) as Hlen.
  split.
  { split; [now apply df_rank_sorted|].
    split; [now apply df_rank_NoDup|].
    split; [intros k; now apply df_rank_countries|].
    intros x; now apply df_rank_rows. }
  split; [apply Sorted_desc_split; now apply df_rank_sorted|].
  split; [now apply df_top_shape|].
  split; [now apply df_top_NoDup|].
  split; [exact Hlen|].
  split; [fold top in Hlen; lia|].
  split; [intros sel; now apply df_top_selected|].
  intros r flag Hin. unfold df_top_flagged in Hin. apply in_map_iff in Hin.
  destruct Hin as [r' [E Hr]]. injection E as -> <-.
  split; [exact Hr|]. unfold Selected. simpl. split.
  - intros [->| ->]; rewrite String.eqb_refl; [reflexivity|].
    now rewrite orb_true_r.
  - intros H1 H2. apply String.eqb_neq in H1, H2. now rewrite H1, H2.
Qed.

(** Twelve countries with the two selected ones ranked last: the table has
    twelve rows. *)
Lemma top_n_ranking_twelve :
  sorts_descending stable_sort_desc /\
  NoDup (map fst (df_top twelve_countries "K" "L" New_cases_metric stable_sort_desc)) /\
  (10 <= List.length (df_top twelve_countries "K" "L" New_cases_metric stable_sort_desc)
   <= 12)%nat /\
  In "K"%string (map fst (df_top twelve_countries "K" "L" New_cases_metric stable_sort_desc)).
Proof.
  split; [exact stable_sort_desc_sorts|].
  destruct (top_n_ranking twelve_countries "K" "L" New_cases_metric
              stable_sort_desc stable_sort_desc_sorts)
    as [_ [_ [_ [Hnd [_ [Hlen [Hsel _]]]]]]].
  split; [exact Hnd|].
  split.
  - apply Hlen. vm_compute. lia.
  - apply (Hsel "K"%string).
    + left; reflexivity.
    + vm_compute. tauto.
Defined.

Example top_n_ranking_twelve_rows :
  map fst (df_top_flagged twelve_countries "K" "L" New_cases_metric stable_sort_desc)
  = [ ("A", 12); ("B", 11); ("C", 10); ("D", 9); ("E", 8); ("F", 7);
      ("G", 6); ("H", 5); ("I", 4); ("J", 3); ("K", 2); ("L", 1) ]%string /\
  map snd (df_top_flagged twelve_countries "K" "L" New_cases_metric stable_sort_desc)
  = [ "Other"; "Other"; "Other"; "Other"; "Other"; "Other"; "Other"; "Other";
      "Other"; "Other"; "K (Selected)"; "L (Selected)" ]%string.
Proof. split; reflexivity. Qed.

(** C4 as stated fails on a window with fewer than ten countries, and for a
    selected country that has no row inside the date range: with Italy
    alone reporting in the range and Spain selected as second country, the
    table has the one row of Italy. *)
Lemma top_n_ranking_counterexample :
  let top := df_top (filter_window italy_spain_table (1, 3)%Z)
                    "Italy" "Spain" New_cases_metric stable_sort_desc in
  In "Spain"%string (map Country italy_spain_table) /\
  top = [("Italy"%string, 7)] /\
  ~ (10 <= List.length top <= 12)%nat /\
  ~ In "Spain"%string (map fst top).
Proof.
  split; [simpl; tauto|].
  split; [reflexivity|].
  split; [vm_compute; lia|].
  vm_compute. intros [H|[]]. discriminate H.
Qed.

(** ** Countries absent from the window *)

Lemma country_rows_absent (c : string) (df_f : list Row) :
  ~ In c (map Country df_f) -> country_rows c df_f = [].
Proof.
  induction df_f as [|r df_f IH]; simpl; intros H; [reflexivity|].
  destruct (String.eqb (Country r) c) eqn:E.
  - apply String.eqb_eq in E. tauto.
  - apply IH. tauto.
Qed.

Lemma growth_of_absent (c : string) (rows : list Row) (g : list num) :
  ~ In c (map Country rows) -> growth_of c (combine rows g) = [].
Proof.
  intros H. unfold growth_of, rows_of.
  rewrite (filter_combine_none (fun r => String.eqb (Country r) c)); [reflexivity|].
  apply Forall_forall. intros r Hr. apply String.eqb_neq. intros <-.
  apply H. now apply in_map.
Qed.

Lemma sorts_descending_nil (sort_values : list (string * Q) -> list (string * Q)) :
  sorts_descending sort_values -> sort_values [] = [].
Proof. intros H. destruct (H []) as [P _]. now apply Permutation_nil. Qed.

(** What the derived tables are when a selected country [c] has no row in
    the window and the other selected country is [c']. *)
Lemma absent_country_tables
  (df_f : list Row) (c c' : string) (metric : Metric) :
  (forall r, In r df_f -> Date r <> None) ->
  ~ In c (map Country df_f) ->
  country_rows c df_f = [] /\
  df_compare df_f c c' = country_rows c' df_f /\
  df_compare df_f c' c = country_rows c' df_f /\
  growth_of c (df_gr df_f c c' metric) = [] /\
  growth_of c (df_gr df_f c' c metric) = [] /\
  total_two df_f c c' metric == country_total metric c' df_f /\
  total_two df_f c' c metric == country_total metric c' df_f.
Proof.
  intros Hd Habs. pose proof (country_rows_absent c df_f Habs) as E.
  assert (Hc : forall a b, ~ In c (map Country (df_compare df_f a b))).
  { intros a b Hin. apply Habs. apply in_map_iff in Hin.
    destruct Hin as [r [<- Hr]]. apply in_map. now apply df_compare_In in Hr. }
  split; [exact E|].
  split; [now rewrite df_compare_rows, E|].
  split; [now rewrite df_compare_rows, E, app_nil_r|].
  split; [apply growth_of_absent, Hc|].
  split; [apply growth_of_absent, Hc|].
  assert (Z0 : country_total metric c df_f = 0)
    by (unfold country_total; now rewrite E).
  split; rewrite total_two_countries by exact Hd; rewrite Z0; ring.
Qed.

(** ** The loader *)

Lemma prefix_append (p s : string) : String.prefix p (p ++ s) = true.
Proof.
  induction p as [|c p IH]; simpl.
  - now destruct s.
  - destruct (ascii_dec c c); [exact IH | contradiction].
Qed.

Lemma contains_unfold (sub s : string) :
  contains sub s
  = if String.prefix sub s then true
    else match s with
         | EmptyString => false
         | String _ r => contains sub r
         end.
Proof. destruct s; reflexivity. Qed.

Lemma contains_append (p a b : string) : contains p (a ++ p ++ b) = true.
Proof.
  induction a as [|c a IH].
  - simpl. now rewrite contains_unfold, prefix_append.
  - rewrite contains_unfold. simpl append.
    destruct (String.prefix p (String c (a ++ p ++ b))); [reflexivity | exact IH].
Qed.

Lemma append_empty_r (s : string) : (s ++ "")%string = s.
Proof. induction s as [|c s IH]; simpl; [reflexivity | now rewrite IH]. Qed.

Lemma append_assoc' (a b c : string) : ((a ++ b) ++ c)%string = (a ++ b ++ c)%string.
Proof. induction a as [|x a IH]; simpl; [reflexivity | now rewrite IH]. Qed.

(** The message of a failed read names the candidate and the cause. *)
Lemma reading_error_names (p e : string) :
  contains p (reading_error p e) = true /\ contains e (reading_error p e) = true.
Proof.
  unfold reading_error. split.
  - apply contains_append.
  - rewrite <- (append_empty_r e) at 2.
    rewrite <- (append_assoc' p ": "), <- (append_assoc' "Error reading data from ").
    apply contains_append.
Qed.

Section LoaderFacts.
Variable read_csv : string -> read_result.

Lemma try_each_not_found (before rest : list string) :
  Forall (fun q => read_csv q = FileNotFound) before ->
  try_each read_csv (before ++ rest) = try_each read_csv rest.
Proof.
  induction 1 as [|q before Hq Hall IH]; simpl; [reflexivity|].
  now rewrite Hq.
Qed.

Lemma try_each_exhausted (paths : list string) :
  Forall (fun q => read_csv q = FileNotFound) paths ->
  try_each read_csv paths = None.
Proof.
  intros H. rewrite <- (app_nil_r paths). now rewrite try_each_not_found.
Qed.

End LoaderFacts.

(** C9 (amended).  The candidates tried in the loop are the file in the
    working directory, the file beside the script and, exactly when
    DATA_URL is set and not empty, that URL as the third and last one.  A candidate of the loop that is not found is
    skipped without a message; the first one that is found decides: its
    table is returned, or its failure halts the run with one error message
    that names the candidate and the cause.  When every candidate of the
    loop is not found, the hardcoded URL is read: its table is returned, and
    any failure of it, of whatever kind, halts the run with the remediation
    message and the offer, which name neither.  [load_data] always ends in
    one of these two ways. *)
Theorem load_data_failure_policy
  (read_csv : string -> read_result) (script_dir : string) (DATA_URL : option string) :
  let paths := try_paths script_dir DATA_URL in
  let result := load_data read_csv script_dir DATA_URL in
  (exists extra,
      paths = filename :: path_join script_dir filename :: extra /\
      (extra = [] \/ exists url, DATA_URL = Some url /\ url <> ""%string /\ extra = [url]) /\
      (extra = [] <-> DATA_URL = None \/ DATA_URL = Some ""%string) /\
      (forall url, DATA_URL = Some url -> url <> ""%string -> extra = [url])) /\
  (forall before p after,
      paths = before ++ p :: after ->
      Forall (fun q => read_csv q = FileNotFound) before ->
      (forall df, read_csv p = ReadOk df -> result = Return (strip_columns df)) /\
      (forall e, read_csv p = ReadError e ->
         result = Stop [st_error (reading_error p e)] /\
         contains p (reading_error p e) = true /\
         contains e (reading_error p e) = true)) /\
  (Forall (fun q => read_csv q = FileNotFound) paths ->
     (forall df, read_csv github_raw = ReadOk df -> result = Return (strip_columns df)) /\
     (read_csv github_raw = FileNotFound \/ (exists e, read_csv github_raw = ReadError e) ->
      result = Stop [st_error not_found_text; st_info offer_text])).
Proof.
  intros paths result. split; [|split].
  - unfold paths, try_paths. simpl. eexists. split; [reflexivity|].
    destruct DATA_URL as [url|].
    + destruct (String.eqb url "") eqn:E.
      * apply String.eqb_eq in E. subst url.
        split; [now left|]. split; [split; auto|].
        intros url H Hne. injection H as <-. now contradiction Hne.
      * apply String.eqb_neq in E.
        split; [right; exists url; auto|]. split.
        -- split; [discriminate|]. intros [H|H]; [discriminate H|].
           injection H as ->. now contradiction E.
        -- intros url' H _. now injection H as <-.
    + split; [now left|]. split; [split; auto|]. discriminate.
  - intros before p after Hp Hnf. unfold result, load_data. fold paths.
    rewrite Hp, try_each_not_found by exact Hnf. simpl. split.
    + intros df ->. reflexivity.
    + intros e ->. split; [reflexivity | apply reading_error_names].
  - intros Hnf. unfold result, load_data. fold paths.
    rewrite try_each_exhausted by exact Hnf. split.
    + intros df ->. reflexivity.
    + intros [-> | [e ->]]; reflexivity.
Qed.

(** The file beside the script exists but does not parse: the run halts
    with an error naming that file and the parser's message; the URLs are
    not tried. *)
Example load_data_local_file_broken :
  load_data local_file_broken "/app" (Some "https://example.org/who.csv"%string)
  = Stop [st_error
            ("Error reading data from /app/WHO-COVID-19-global-data.csv: "
             ++ parser_error)%string].
Proof. reflexivity. Qed.

(** C9 as stated fails for the fourth candidate: a failure of the hardcoded
    URL that is not "file not found" is answered with the remediation
    message, which names neither the URL nor the cause. *)
Lemma load_data_fallback_counterexample :
  fallback_down github_raw = ReadError server_error /\
  load_data fallback_down "/app" None
  = Stop [st_error not_found_text; st_info offer_text] /\
  load_data fallback_down "/app" None
  <> Stop [st_error (reading_error github_raw server_error)] /\
  contains github_raw not_found_text = false /\
  contains server_error not_found_text = false /\
  contains github_raw offer_text = false /\
  contains server_error offer_text = false.
Proof.
  split; [reflexivity|]. split; [reflexivity|]. split; [|repeat split; reflexivity].
  intros H. vm_compute in H. discriminate H.
Qed.

(** ** Frames *)

Lemma getitem_Ok_In (df : DataFrame) (l : string) (v : list cell) :
  getitem df l = Ok v -> In l (labels df).
Proof.
  unfold getitem, labels. intros H.
  destruct (filter (fun c => String.eqb (fst c) l) (columns df)) as [|c [|c' r]] eqn:E;
    try discriminate.
  assert (Hc : In c (filter (fun c => String.eqb (fst c) l) (columns df)))
    by (rewrite E; now left).
  apply filter_fst_In in Hc. destruct Hc as [Hc <-]. now apply in_map.
Qed.

Lemma getitem_absent (df : DataFrame) (l : string) :
  ~ In l (labels df) -> getitem df l = Raise (KeyError l).
Proof. intros H. unfold getitem. now rewrite filter_fst_absent. Qed.

Lemma getitem_NoDup (df : DataFrame) (l : string) :
  NoDup (labels df) -> In l (labels df) -> exists v, getitem df l = Ok v.
Proof.
  intros Hnd Hin. unfold getitem.
  pose proof (filter_fst_present l (columns df) Hnd Hin) as Hlen.
  destruct (filter (fun c => String.eqb (fst c) l) (columns df)) as [|c [|c' r]];
    try discriminate Hlen.
  now exists (snd c).
Qed.

Lemma labels_setitem_present (df : DataFrame) (l : string) (v : list cell) :
  In l (labels df) -> labels (setitem df l v) = labels df.
Proof.
  intros H. unfold setitem. apply existsb_eqb_In in H. rewrite H.
  unfold labels. simpl. rewrite map_map. apply map_ext.
  intros c. now destruct (String.eqb (fst c) l).
Qed.

Lemma labels_setitem_absent (df : DataFrame) (l : string) (v : list cell) :
  ~ In l (labels df) -> labels (setitem df l v) = labels df ++ [l].
Proof.
  intros H. unfold setitem.
  destruct (existsb (String.eqb l) (labels df)) eqn:E.
  - apply existsb_eqb_In in E. contradiction.
  - unfold labels. simpl. now rewrite map_app.
Qed.

Lemma labels_setitem_In (df : DataFrame) (l l' : string) (v : list cell) :
  In l' (labels (setitem df l v)) <-> l' = l \/ In l' (labels df).
Proof.
  destruct (in_dec string_dec l (labels df)) as [Hin|Hnin].
  - rewrite labels_setitem_present by exact Hin. split; [tauto|].
    intros [->|H]; assumption.
  - rewrite labels_setitem_absent by exact Hnin. rewrite in_app_iff. simpl.
    split; [intros [H|[H|[]]]; auto | intros [H|H]; auto].
Qed.

Lemma setitem_NoDup (df : DataFrame) (l : string) (v : list cell) :
  NoDup (labels df) -> NoDup (labels (setitem df l v)).
Proof.
  intros Hnd. destruct (in_dec string_dec l (labels df)) as [Hin|Hnin].
  - now rewrite labels_setitem_present.
  - rewrite labels_setitem_absent by exact Hnin.
    eapply Permutation_NoDup; [apply Permutation_cons_append|]. now constructor.
Qed.

Lemma nrows_setitem (df : DataFrame) (l : string) (v : list cell) :
  nrows (setitem df l v) = nrows df.
Proof. unfold setitem. now destruct (existsb (String.eqb l) (labels df)). Qed.

Lemma filter_replace_other (l l' : string) (v : list cell) (cols : list (string * list cell)) :
  l' <> l ->
  filter (fun c => String.eqb (fst c) l')
         (map (fun c => if String.eqb (fst c) l then (fst c, v) else c) cols)
  = filter (fun c => String.eqb (fst c) l') cols.
Proof.
  intros Hne. induction cols as [|c cols IH]; simpl; [reflexivity|].
  destruct (String.eqb (fst c) l) eqn:E; simpl; rewrite IH.
  - apply String.eqb_eq in E. rewrite E.
    assert (E' : String.eqb l l' = false) by (apply String.eqb_neq; congruence).
    now rewrite E'.
  - reflexivity.
Qed.

Lemma filter_replace_same (l : string) (v : list cell) (cols : list (string * list cell)) :
  filter (fun c => String.eqb (fst c) l)
         (map (fun c => if String.eqb (fst c) l then (fst c, v) else c) cols)
  = map (fun c => (fst c, v)) (filter (fun c => String.eqb (fst c) l) cols).
Proof.
  induction cols as [|c cols IH]; simpl; [reflexivity|].
  destruct (String.eqb (fst c) l) eqn:E; simpl; rewrite E, IH; reflexivity.
Qed.

(** Writing one column leaves the others as they are. *)
Lemma getitem_setitem_other (df : DataFrame) (l l' : string) (v : list cell) :
  l' <> l -> getitem (setitem df l v) l' = getitem df l'.
Proof.
  intros Hne. unfold getitem, setitem.
  destruct (existsb (String.eqb l) (labels df)); simpl.
  - now rewrite filter_replace_other.
  - rewrite filter_app. simpl.
    assert (E : String.eqb l l' = false) by (apply String.eqb_neq; congruence).
    now rewrite E, app_nil_r.
Qed.

(** A column that was read, or that is new, reads back as written. *)
Lemma getitem_setitem_same (df : DataFrame) (l : string) (v : list cell) :
  (exists old, getitem df l = Ok old) \/ ~ In l (labels df) ->
  getitem (setitem df l v) l = Ok v.
Proof.
  intros [[old Hold]|Hnin].
  - pose proof (getitem_Ok_In _ _ _ Hold) as Hin.
    apply existsb_eqb_In in Hin. unfold getitem, setitem in *. rewrite Hin. simpl.
    rewrite filter_replace_same.
    destruct (filter (fun c => String.eqb (fst c) l) (columns df)) as [|c [|c' r]];
      try discriminate. reflexivity.
  - unfold getitem, setitem.
    destruct (existsb (String.eqb l) (labels df)) eqn:E.
    + apply existsb_eqb_In in E. contradiction.
    + simpl. rewrite filter_app, filter_fst_absent by exact Hnin.
      simpl. now rewrite String.eqb_refl.
Qed.

(** ** Stripping *)

Lemma lstrip_empty (s : string) : lstrip s = EmptyString <-> all_space s = true.
Proof.
  induction s as [|c s IH]; simpl.
  - tauto.
  - destruct (is_space c); simpl; [exact IH|]. split; discriminate.
Qed.

Lemma all_space_lstrip (s : string) : all_space (lstrip s) = all_space s.
Proof.
  induction s as [|c s IH]; simpl; [reflexivity|].
  destruct (is_space c) eqn:E; simpl; [exact IH | now rewrite E].
Qed.

Lemma rev_string_empty (s acc : string) :
  rev_string s acc = EmptyString <-> s = EmptyString /\ acc = EmptyString.
Proof.
  revert acc. induction s as [|c s IH]; intros acc; simpl.
  - tauto.
  - rewrite IH. split; [intros [_ H]; discriminate H | intros [H _]; discriminate H].
Qed.

Lemma all_space_rev_string (s acc : string) :
  all_space (rev_string s acc) = all_space s && all_space acc.
Proof.
  revert acc. induction s as [|c s IH]; intros acc; simpl; [reflexivity|].
  rewrite IH. simpl. destruct (is_space c), (all_space s); reflexivity.
Qed.

Lemma rstrip_empty (s : string) : rstrip s = EmptyString <-> all_space s = true.
Proof.
  unfold rstrip. rewrite rev_string_empty, lstrip_empty, all_space_rev_string.
  simpl. rewrite andb_true_r. tauto.
Qed.

(** The stripped text is empty exactly when the text is blank. *)
Lemma strip_empty (s : string) : strip s = EmptyString <-> all_space s = true.
Proof. unfold strip. now rewrite rstrip_empty, all_space_lstrip. Qed.

(** ** [preprocess] *)

Section PreprocessFacts.
Variable parse_numeric : cell -> num.
Variable parse_datetime : cell -> option Z.
Variable datetimelike : list cell -> bool.
Variable py_str : cell -> string.

(** The coerced cell by the value that [to_numeric] gives. *)
Lemma numeric_cell_cases (c : cell) :
  (forall q, to_numeric parse_numeric c = Fin q -> numeric_cell parse_numeric c = Num q) /\
  (to_numeric parse_numeric c = NaN -> numeric_cell parse_numeric c = Num 0) /\
  (to_numeric parse_numeric c = PInf -> numeric_cell parse_numeric c = Inf false) /\
  (to_numeric parse_numeric c = NInf -> numeric_cell parse_numeric c = Inf true).
Proof.
  unfold numeric_cell.
  destruct (to_numeric parse_numeric c) as [q| | |]; simpl;
    repeat split; try discriminate; try reflexivity.
  intros q' E. now injection E as ->.
Qed.

(** A coerced cell is a number or an infinity, never null, text or a
    timestamp. *)
Lemma numeric_cell_kind (c : cell) :
  (exists q, numeric_cell parse_numeric c = Num q) \/
  (exists b, numeric_cell parse_numeric c = Inf b).
Proof.
  unfold numeric_cell.
  destruct (to_numeric parse_numeric c) as [q| | |]; simpl; eauto.
Qed.

(** The coerced cell is a finite number exactly when the value is not an
    infinity. *)
Lemma numeric_cell_finite (c : cell) :
  (exists q, numeric_cell parse_numeric c = Num q) <->
  is_inf (to_numeric parse_numeric c) = false.
Proof.
  unfold numeric_cell.
  destruct (to_numeric parse_numeric c) as [q| | |]; simpl;
    (split; [intros [q' E]; try discriminate E; reflexivity
            | intros E; try discriminate E; eauto]).
Qed.

Lemma numeric_cell_Inf (b : bool) : numeric_cell parse_numeric (Inf b) = Inf b.
Proof. now destruct b. Qed.

Lemma numeric_cell_Num (q : Q) : numeric_cell parse_numeric (Num q) = Num q.
Proof. reflexivity. Qed.

Lemma numeric_cell_Null : numeric_cell parse_numeric Null = Num 0.
Proof. reflexivity. Qed.

Lemma fold_coerce_Raise (cols : list string) (e : exn) :
  fold_left (coerce_column parse_numeric) cols (Raise e) = Raise e.
Proof. induction cols as [|c cols IH]; simpl; [reflexivity | exact IH]. Qed.

(** The loop over the numeric columns, when it ends without an exception:
    the labels are unchanged, a listed column that is present holds the
    coerced cells of the column it held, every other column is as it was. *)
Lemma fold_coerce_Ok (cols : list string) :
  NoDup cols ->
  forall d d3,
    fold_left (coerce_column parse_numeric) cols (Ok d) = Ok d3 ->
    labels d3 = labels d /\
    (forall l, ~ In l cols -> getitem d3 l = getitem d l) /\
    (forall l, In l cols -> In l (labels d) ->
       exists src, getitem d l = Ok src /\
                   getitem d3 l = Ok (map (numeric_cell parse_numeric) src)).
Proof.
  induction 1 as [|c cols Hnin Hnd IH]; intros d d3 H; simpl in H.
  - injection H as <-. repeat split; auto. intros l [].
  - destruct (existsb (String.eqb c) (labels d)) eqn:E.
    + destruct (getitem d c) as [s|e] eqn:G; simpl in H;
        [|rewrite fold_coerce_Raise in H; discriminate H].
      apply existsb_eqb_In in E.
      destruct (IH _ _ H) as [L [Hother Hin]].
      rewrite labels_setitem_present in L by exact E.
      split; [exact L|]. split.
      * intros l Hl. rewrite Hother by (intros Hc; apply Hl; now right).
        apply getitem_setitem_other. intros ->. apply Hl. now left.
      * intros l [<-|Hl] Hlab.
        -- exists s. split; [exact G|]. rewrite Hother by exact Hnin.
           apply getitem_setitem_same. left. eauto.
        -- assert (Hne : l <> c) by (intros ->; contradiction).
           destruct (Hin l Hl) as [src [G1 G2]].
           { rewrite labels_setitem_present by exact E. exact Hlab. }
           exists src. split; [|exact G2].
           now rewrite getitem_setitem_other in G1.
    + simpl in H. destruct (IH _ _ H) as [L [Hother Hin]].
      split; [exact L|]. split.
      * intros l Hl. apply Hother. intros Hc. apply Hl. now right.
      * intros l [<-|Hl] Hlab.
        -- apply existsb_eqb_In in Hlab. congruence.
        -- now apply Hin.
Qed.

Lemma ensure_Country_Ok (df d1 : DataFrame) :
  ensure_Country df = Ok d1 ->
  (forall l, l <> "Country"%string -> getitem d1 l = getitem df l) /\
  (forall l, In l (labels d1) <-> l = "Country"%string \/ In l (labels df)) /\
  (forall src, getitem d1 "Country" = Ok src -> source_country df src).
Proof.
  unfold ensure_Country, source_country.
  destruct (existsb (String.eqb "Country") (labels df)) eqn:E; simpl.
  - intros H. injection H as <-. apply existsb_eqb_In in E.
    split; [reflexivity|]. split; [intros l; split; [tauto | intros [->|H]; assumption]|].
    intros src H. now left.
  - assert (Hnin : ~ In "Country"%string (labels df)).
    { intros Hc. apply existsb_eqb_In in Hc. congruence. }
    destruct (filter (fun c => contains "country" (lower c)) (labels df))
      as [|c0 rest] eqn:F.
    + intros H. injection H as <-.
      split; [intros l Hl; now apply getitem_setitem_other|].
      split; [intros l; apply labels_setitem_In|].
      intros src H. rewrite getitem_setitem_same in H by now right.
      injection H as <-. right. split; [exact Hnin|]. right. now split.
    + destruct (getitem df c0) as [s|e] eqn:G; simpl; [|discriminate].
      intros H. injection H as <-.
      split; [intros l Hl; now apply getitem_setitem_other|].
      split; [intros l; apply labels_setitem_In|].
      intros src H. rewrite getitem_setitem_same in H by now right.
      injection H as <-. right. split; [exact Hnin|]. left. eauto.
Qed.

Lemma dt_date_Ok (l : string) (column days : list cell) :
  dt_date parse_datetime datetimelike l column = Ok days ->
  datetimelike column = true /\ days = map (to_date parse_datetime) column.
Proof.
  unfold dt_date. destruct (datetimelike column); [|discriminate].
  intros H. injection H as <-. auto.
Qed.

(** The steps of a run of [preprocess] that returns. *)
Lemma preprocess_Ok (df df' : DataFrame) :
  preprocess parse_numeric parse_datetime datetimelike py_str df = Ok df' ->
  exists d1 dates d3 country,
    ensure_Country df = Ok d1 /\
    getitem d1 "Date_reported" = Ok dates /\
    fold_left (coerce_column parse_numeric) numeric_columns
              (Ok (setitem d1 "Date" (map (to_date parse_datetime) dates))) = Ok d3 /\
    getitem d3 "Country" = Ok country /\
    df' = setitem d3 "Country" (map (country_cell py_str) country).
Proof.
  unfold preprocess. intros H.
  destruct (ensure_Country df) as [d1|e] eqn:E1; cbn [bind] in H; [|discriminate].
  destruct (getitem d1 "Date_reported") as [dates|e] eqn:E2; cbn [bind] in H;
    [|discriminate].
  destruct (dt_date parse_datetime datetimelike "Date_reported" dates)
    as [days|e] eqn:Ed; cbn [bind] in H; [|discriminate].
  apply dt_date_Ok in Ed. destruct Ed as [_ ->].
  destruct (fold_left (coerce_column parse_numeric) numeric_columns
              (Ok (setitem d1 "Date" (map (to_date parse_datetime) dates))))
    as [d3|e] eqn:E3; cbn [bind] in H; [|discriminate].
  destruct (getitem d3 "Country") as [country|e] eqn:E4; cbn [bind] in H;
    [|discriminate].
  injection H as <-. exists d1, dates, d3, country. auto.
Qed.

(** A run of [preprocess] that returns has read one column Date_reported
    that converts to a datetime column. *)
Lemma preprocess_Ok_dates (df df' : DataFrame) :
  preprocess parse_numeric parse_datetime datetimelike py_str df = Ok df' ->
  exists dates,
    getitem df "Date_reported" = Ok dates /\ datetimelike dates = true.
Proof.
  unfold preprocess. intros H.
  destruct (ensure_Country df) as [d1|e] eqn:E1; cbn [bind] in H; [|discriminate].
  destruct (getitem d1 "Date_reported") as [dates|e] eqn:E2; cbn [bind] in H;
    [|discriminate].
  destruct (dt_date parse_datetime datetimelike "Date_reported" dates)
    as [days|e] eqn:Ed; cbn [bind] in H; [|discriminate].
  apply dt_date_Ok in Ed. destruct Ed as [Hd _].
  exists dates. split; [|exact Hd].
  rewrite <- E2. symmetry.
  apply (proj1 (ensure_Country_Ok df d1 E1)). discriminate.
Qed.

Lemma numeric_columns_NoDup : NoDup numeric_columns.
Proof.
  unfold numeric_columns.
  repeat (constructor;
          [simpl; intros H; repeat (destruct H as [H|H]; [discriminate H|]); exact H|]).
  constructor.
Qed.

Lemma numeric_columns_other (l : string) :
  In l numeric_columns -> l <> "Country"%string /\ l <> "Date"%string.
Proof.
  unfold numeric_columns. simpl.
  intros H; repeat destruct H as [H|H]; try contradiction; subst l; split; discriminate.
Qed.

End PreprocessFacts.

Section PreprocessClaims.
Variable parse_numeric : cell -> num.
Variable parse_datetime : cell -> option Z.
Variable datetimelike : list cell -> bool.
Variable py_str : cell -> string.

Lemma read_once_setitem (df : DataFrame) (l l' : string) (v : list cell) :
  l' <> l -> (read_once (setitem df l v) l' <-> read_once df l').
Proof.
  intros Hne. unfold read_once.
  rewrite getitem_setitem_other by exact Hne. rewrite labels_setitem_In.
  split; (intros [H|H]; [left | now right]); intros Hc; apply H; tauto.
Qed.

(** The country column is settled without an exception exactly when the
    column taken in place of an absent Country is a single one. *)
Lemma ensure_Country_total (df : DataFrame) :
  (exists d1, ensure_Country df = Ok d1) <-> country_settled df.
Proof.
  unfold ensure_Country, country_settled.
  destruct (existsb (String.eqb "Country") (labels df)) eqn:E; simpl.
  - apply existsb_eqb_In in E. split; [intros _ Hn; contradiction | eauto].
  - assert (Hnin : ~ In "Country"%string (labels df)).
    { intros Hc. apply existsb_eqb_In in Hc. congruence. }
    destruct (filter (fun c => contains "country" (lower c)) (labels df))
      as [|c0 rest] eqn:F.
    + split; [intros _ _ c0 rest Hf; discriminate Hf | eauto].
    + destruct (getitem df c0) as [s|e] eqn:G; simpl.
      * split; [|eauto]. intros _ _ c0' rest' Hf. injection Hf as <- <-.
        right. eauto.
      * split; [intros [d1 H]; discriminate H|].
        intros H. destruct (H Hnin c0 rest eq_refl) as [Hc|[v Hv]].
        -- exfalso. apply Hc.
           assert (Hin : In c0 (c0 :: rest)) by now left.
           rewrite <- F in Hin. now apply filter_In in Hin.
        -- congruence.
Qed.

(** After the country column is settled, Country can be read exactly when
    the table held at most one column Country. *)
Lemma ensure_Country_read_once (df d1 : DataFrame) :
  ensure_Country df = Ok d1 ->
  ((exists v, getitem d1 "Country" = Ok v) <-> read_once df "Country") /\
  (forall l, l <> "Country"%string -> (read_once d1 l <-> read_once df l)).
Proof.
  intros E1. destruct (ensure_Country_Ok df d1 E1) as [Hget [Hlab _]]. split.
  - revert E1. unfold ensure_Country, read_once.
    destruct (existsb (String.eqb "Country") (labels df)) eqn:E; simpl.
    + apply existsb_eqb_In in E. intros H. injection H as <-.
      split; [now right | intros [Hc|Hv]; [contradiction | exact Hv]].
    + assert (Hnin : ~ In "Country"%string (labels df)).
      { intros Hc. apply existsb_eqb_In in Hc. congruence. }
      intros H. split; [now left | intros _].
      destruct (filter (fun c => contains "country" (lower c)) (labels df))
        as [|c0 rest].
      * injection H as <-. eexists. apply getitem_setitem_same. now right.
      * destruct (getitem df c0) as [s|e]; simpl in H; [|discriminate H].
        injection H as <-. eexists. apply getitem_setitem_same. now right.
  - intros l Hl. unfold read_once. rewrite (Hget l Hl), Hlab.
    split; (intros [H|H]; [left | now right]); intros Hc; apply H; tauto.
Qed.

(** The loop over the numeric columns ends without an exception exactly
    when each listed label is carried by at most one column. *)
Lemma fold_coerce_total (cols : list string) :
  NoDup cols ->
  forall d,
    (exists d3, fold_left (coerce_column parse_numeric) cols (Ok d) = Ok d3) <->
    (forall c, In c cols -> read_once d c).
Proof.
  induction 1 as [|c cols Hnin Hnd IH]; intros d; simpl.
  - split; [intros _ c [] | eauto].
  - destruct (existsb (String.eqb c) (labels d)) eqn:E.
    + destruct (getitem d c) as [s|e] eqn:G; simpl.
      * rewrite IH. split.
        -- intros H c' [<-|Hc']; [right; eauto|].
           apply (read_once_setitem d c c' (map (numeric_cell parse_numeric) s));
             [intros ->; contradiction | now apply H].
        -- intros H c' Hc'. apply read_once_setitem;
             [intros ->; contradiction | apply H; now right].
      * rewrite fold_coerce_Raise. split; [intros [d3 H]; discriminate H|].
        intros H. destruct (H c (or_introl eq_refl)) as [Hc|[v Hv]].
        -- apply existsb_eqb_In in E. contradiction.
        -- congruence.
    + simpl. rewrite IH. split.
      * intros H c' [<-|Hc']; [|now apply H].
        left. intros Hc. apply existsb_eqb_In in Hc. congruence.
      * intros H c' Hc'. apply H. now right.
Qed.

(** C7 (amended).  [preprocess] returns a table exactly when the table has
    one column Date_reported that converts to a datetime column and at most
    one column for each other label that is read: Country, the column taken
    in its place when it is absent, and the four numeric labels.  That
    includes tables without country column or without any numeric column,
    tables whose cells do not convert, and tables in which labels that are
    not read are repeated.  When the country column is settled, a table
    without Date_reported raises KeyError, and one whose Date_reported does
    not convert to a datetime column raises at the date accessor. *)
Theorem preprocess_total_with_dates (df : DataFrame) :
  ((exists df', preprocess parse_numeric parse_datetime datetimelike py_str df = Ok df')
   <-> cleanable datetimelike df) /\
  (country_settled df ->
   ~ In "Date_reported"%string (labels df) ->
   preprocess parse_numeric parse_datetime datetimelike py_str df
   = Raise (KeyError "Date_reported")) /\
  (country_settled df ->
   forall dates,
     getitem df "Date_reported" = Ok dates ->
     datetimelike dates = false ->
     preprocess parse_numeric parse_datetime datetimelike py_str df
     = Raise (NotDatetimeLike "Date_reported")).
Proof.
  split; [split|split].
  - intros [df' H].
    destruct (preprocess_Ok_dates parse_numeric parse_datetime datetimelike py_str
                df df' H) as [dates [Hd Hl]].
    apply preprocess_Ok in H.
    destruct H as [d1 [dates' [d3 [country [E1 [E2 [E3 [E4 _]]]]]]]].
    destruct (ensure_Country_read_once df d1 E1) as [HC Hro].
    set (d2 := setitem d1 "Date" (map (to_date parse_datetime) dates')) in *.
    destruct (fold_coerce_Ok parse_numeric numeric_columns numeric_columns_NoDup d2 d3 E3)
      as [_ [Hother _]].
    split; [eauto|]. split; [|split].
    + apply HC. exists country. rewrite <- E4, Hother.
      * unfold d2. symmetry. apply getitem_setitem_other. discriminate.
      * intros Hc. apply numeric_columns_other in Hc. now destruct Hc.
    + intros col Hcol. destruct (numeric_columns_other col Hcol) as [HnC HnD].
      apply (Hro col HnC).
      apply (read_once_setitem d1 "Date" col (map (to_date parse_datetime) dates') HnD).
      apply (proj1 (fold_coerce_total numeric_columns numeric_columns_NoDup d2)); eauto.
    + apply ensure_Country_total. eauto.
  - intros [[dates [Hd Hl]] [HC [Hnum Hset]]].
    apply ensure_Country_total in Hset. destruct Hset as [d1 E1].
    destruct (ensure_Country_Ok df d1 E1) as [Hget _].
    destruct (ensure_Country_read_once df d1 E1) as [HC1 Hro].
    unfold preprocess. rewrite E1. cbn [bind].
    rewrite Hget, Hd by discriminate. cbn [bind].
    unfold dt_date. rewrite Hl. cbn [bind].
    set (d2 := setitem d1 "Date" (map (to_date parse_datetime) dates)).
    destruct (proj2 (fold_coerce_total numeric_columns numeric_columns_NoDup d2))
      as [d3 E3].
    { intros col Hcol. destruct (numeric_columns_other col Hcol) as [HnC HnD].
      apply read_once_setitem; [exact HnD|]. apply (Hro col HnC). now apply Hnum. }
    rewrite E3. cbn [bind].
    destruct (fold_coerce_Ok parse_numeric numeric_columns numeric_columns_NoDup d2 d3 E3)
      as [_ [Hother _]].
    destruct (proj2 HC1 HC) as [country E4].
    rewrite Hother by (intros Hc; apply numeric_columns_other in Hc; now destruct Hc).
    unfold d2. rewrite getitem_setitem_other by discriminate.
    rewrite E4. cbn [bind]. eauto.
  - intros Hset Hdr. apply ensure_Country_total in Hset. destruct Hset as [d1 E1].
    destruct (ensure_Country_Ok df d1 E1) as [Hget _].
    unfold preprocess. rewrite E1. cbn [bind].
    rewrite Hget by discriminate. now rewrite getitem_absent.
  - intros Hset dates Hd Hl. apply ensure_Country_total in Hset.
    destruct Hset as [d1 E1].
    destruct (ensure_Country_Ok df d1 E1) as [Hget _].
    unfold preprocess. rewrite E1. cbn [bind].
    rewrite Hget, Hd by discriminate. cbn [bind].
    unfold dt_date. now rewrite Hl.
Qed.

(** C5 (amended).  When [preprocess] returns, the cleaned Country column
    holds, for every cell of the source country column, the text of that
    cell, "Unknown" for a null one, stripped of surrounding whitespace: it
    is never null, and it is the empty text exactly when the source text is
    blank.  Each of the four numeric columns is present in the result
    exactly when it is present in the source, and then holds for every
    source cell a value that is never null: the source number itself when
    it is one or converts to one, whatever its sign; exactly 0 when it is
    missing or does not convert; and an infinity of the same sign when the
    source is an infinity or a text that converts to one.  So the cleaned
    value is finite exactly when the source value is not an infinity. *)
Theorem preprocess_output_invariant (df df' : DataFrame) :
  preprocess parse_numeric parse_datetime datetimelike py_str df = Ok df' ->
  (exists src,
      source_country df src /\
      getitem df' "Country" = Ok (map (country_cell py_str) src)) /\
  (forall c,
      country_cell py_str c = Str (strip (country_text py_str c)) /\
      (c = Null -> country_cell py_str c = Str "Unknown") /\
      (country_cell py_str c = Str "" <-> all_space (country_text py_str c) = true)) /\
  (forall l, In l numeric_columns ->
      (In l (labels df') <-> In l (labels df)) /\
      (In l (labels df) ->
       exists src,
         getitem df l = Ok src /\
         getitem df' l = Ok (map (numeric_cell parse_numeric) src))) /\
  (forall c,
      ((exists q, numeric_cell parse_numeric c = Num q) \/
       (exists b, numeric_cell parse_numeric c = Inf b)) /\
      (forall q, to_numeric parse_numeric c = Fin q -> numeric_cell parse_numeric c = Num q) /\
      (to_numeric parse_numeric c = NaN -> numeric_cell parse_numeric c = Num 0) /\
      (to_numeric parse_numeric c = PInf -> numeric_cell parse_numeric c = Inf false) /\
      (to_numeric parse_numeric c = NInf -> numeric_cell parse_numeric c = Inf true) /\
      ((exists q, numeric_cell parse_numeric c = Num q) <->
       is_inf (to_numeric parse_numeric c) = false) /\
      (forall q, c = Num q -> numeric_cell parse_numeric c = Num q) /\
      (forall b, c = Inf b -> numeric_cell parse_numeric c = Inf b) /\
      (c = Null -> numeric_cell parse_numeric c = Num 0)).
Proof.
  intros H. apply preprocess_Ok in H.
  destruct H as [d1 [dates [d3 [country [E1 [E2 [E3 [E4 ->]]]]]]]].
  destruct (ensure_Country_Ok df d1 E1) as [Hget [Hlab Hsrc]].
  set (d2 := setitem d1 "Date" (map (to_date parse_datetime) dates)) in *.
  destruct (fold_coerce_Ok parse_numeric numeric_columns numeric_columns_NoDup d2 d3 E3)
    as [L [Hother Hnum]].
  assert (HC : In "Country"%string (labels d3)) by (eapply getitem_Ok_In; eauto).
  split; [|split; [|split]].
  - exists country. split.
    + apply Hsrc. rewrite <- E4, Hother.
      * unfold d2. apply eq_sym, getitem_setitem_other. discriminate.
      * intros Hc. apply numeric_columns_other in Hc. now destruct Hc.
    + apply getitem_setitem_same. left. eauto.
  - intros c. split; [reflexivity|]. split; [now intros ->|].
    unfold country_cell. rewrite <- strip_empty. split; [now intros [=] | now intros ->].
  - intros l Hl. destruct (numeric_columns_other l Hl) as [HnC HnD].
    assert (Hiff : In l (labels d2) <-> In l (labels df)).
    { unfold d2. rewrite labels_setitem_In, Hlab. split; [|tauto].
      intros [Hc|[Hc|Hc]]; [contradiction | contradiction | exact Hc]. }
    split.
    + rewrite labels_setitem_present by exact HC. now rewrite L.
    + intros Hin. destruct (Hnum l Hl) as [src [G1 G2]]; [now apply Hiff|].
      exists src. split.
      * rewrite <- G1. unfold d2. rewrite getitem_setitem_other by exact HnD.
        symmetry. now apply Hget.
      * now rewrite getitem_setitem_other.
  - intros c. destruct (numeric_cell_cases parse_numeric c) as [A [B [C D]]].
    split; [apply numeric_cell_kind|]. split; [exact A|]. split; [exact B|].
    split; [exact C|]. split; [exact D|]. split; [apply numeric_cell_finite|].
    split; [now intros q ->|]. split; [intros b ->; apply numeric_cell_Inf|].
    now intros ->.
Qed.

End PreprocessClaims.

(** A table without country column and without two numeric columns is
    cleaned: the country is "Unknown", the missing count and the text
    "many" become 0, the date that does not parse becomes null.  So is a
    table in which a label that is not read is carried by two columns. *)
Lemma preprocess_total_sparse :
  (cleanable offsets_agree sparse_frame /\
   exists df', preprocess text_numeric no_datetime offsets_agree str_nan sparse_frame
               = Ok df') /\
  (~ NoDup (labels duplicate_unread_frame) /\
   cleanable offsets_agree duplicate_unread_frame /\
   exists df', preprocess text_numeric no_datetime offsets_agree str_nan
                 duplicate_unread_frame = Ok df').
Proof.
  assert (H1 : cleanable offsets_agree sparse_frame).
  { split; [eexists; split; reflexivity|].
    split; [left; simpl; intros H; repeat (destruct H as [H|H]; [discriminate H|]); exact H|].
    split.
    - intros col Hcol. simpl in Hcol.
      repeat (destruct Hcol as [<-|Hcol];
              [first [ right; eexists; reflexivity
                     | left; simpl; intros H;
                       repeat (destruct H as [H|H]; [discriminate H|]); exact H ]|]).
      contradiction.
    - intros _ c0 rest F. vm_compute in F. discriminate F. }
  assert (H2 : cleanable offsets_agree duplicate_unread_frame).
  { split; [eexists; split; reflexivity|].
    split; [right; eexists; reflexivity|].
    split.
    - intros col Hcol. simpl in Hcol.
      repeat (destruct Hcol as [<-|Hcol];
              [first [ right; eexists; reflexivity
                     | left; simpl; intros H;
                       repeat (destruct H as [H|H]; [discriminate H|]); exact H ]|]).
      contradiction.
    - intros Hn. exfalso. apply Hn. simpl. auto. }
  split; [split; [exact H1|]|split; [|split; [exact H2|]]].
  - apply (proj1 (preprocess_total_with_dates text_numeric no_datetime offsets_agree
                    str_nan sparse_frame)).
    exact H1.
  - intros Hnd. inversion Hnd as [|x l Hx Hl]; subst.
    inversion Hl as [|x l Hx' Hl']; subst.
    inversion Hl' as [|x l Hx'' Hl'']; subst.
    apply Hx''. now left.
  - apply (proj1 (preprocess_total_with_dates text_numeric no_datetime offsets_agree
                    str_nan duplicate_unread_frame)).
    exact H2.
Defined.

(** C7 as stated fails: a table without the column Date_reported makes
    [preprocess] raise KeyError; a table in which a label that is read is
    carried by two columns, and one whose reported dates carry different
    UTC offsets, make it raise other exceptions. *)
Lemma preprocess_not_total_counterexample :
  preprocess text_numeric no_datetime offsets_agree str_nan no_dates_frame
  = Raise (KeyError "Date_reported") /\
  preprocess text_numeric no_datetime offsets_agree str_nan duplicate_label_frame
  = Raise (NotASeries "New_cases") /\
  preprocess text_numeric no_datetime offsets_agree str_nan mixed_offsets_frame
  = Raise (NotDatetimeLike "Date_reported") /\
  ~ (forall pn pd dl ps df, exists df', preprocess pn pd dl ps df = Ok df').
Proof.
  split; [reflexivity|]. split; [reflexivity|]. split; [reflexivity|].
  intros H.
  destruct (H text_numeric no_datetime offsets_agree str_nan no_dates_frame) as [df' E].
  discriminate E.
Qed.

(** The sparse table is cleaned as the invariant says. *)
Lemma preprocess_output_sparse :
  preprocess text_numeric no_datetime offsets_agree str_nan sparse_frame = Ok sparse_cleaned /\
  (exists src,
      source_country sparse_frame src /\
      getitem sparse_cleaned "Country" = Ok (map (country_cell str_nan) src)) /\
  (forall l, In l numeric_columns ->
     In l (labels sparse_frame) ->
     exists src,
       getitem sparse_frame l = Ok src /\
       getitem sparse_cleaned l = Ok (map (numeric_cell text_numeric) src)).
Proof.
  split; [reflexivity|].
  destruct (preprocess_output_invariant text_numeric no_datetime offsets_agree str_nan
              sparse_frame sparse_cleaned eq_refl) as [A [_ [B _]]].
  split; [exact A|]. intros l Hl. apply (B l Hl).
Defined.

(** C5 as stated fails: a blank country is cleaned to the empty text, a
    negative count stays negative, and an infinite count, stored as a float
    or written as the text "inf", stays infinite. *)
Lemma preprocess_invariant_counterexample :
  preprocess text_numeric no_datetime offsets_agree str_nan blank_country_frame
  = Ok blank_country_cleaned /\
  getitem blank_country_cleaned "Country" = Ok [Str ""; Str "Unknown"] /\
  getitem blank_country_cleaned "New_cases" = Ok [Num (-5); Num 0] /\
  -5 < 0 /\
  preprocess text_numeric no_datetime offsets_agree str_nan infinite_count_frame
  = Ok infinite_count_cleaned /\
  getitem infinite_count_cleaned "New_cases" = Ok [Inf false; Num 4; Num 0] /\
  getitem infinite_count_cleaned "New_deaths" = Ok [Inf true; Num 0; Num 0].
Proof. repeat split. Qed.

(** * Further properties of the code *)

(** ** The sidebar *)

Lemma leb_true_cases (a b : string) :
  String.leb a b = true <-> a = b \/ OrderedTypeEx.String_as_OT.lt a b.
Proof.
  unfold String.leb.
  pose proof (OrderedTypeEx.String_as_OT.cmp_eq a b) as He.
  pose proof (OrderedTypeEx.String_as_OT.cmp_lt a b) as Hl.
  unfold OrderedTypeEx.String_as_OT.cmp in He, Hl.
  destruct (String.compare a b) eqn:E.
  - split; [intros _; left; now apply He | reflexivity].
  - split; [intros _; right; now apply Hl | reflexivity].
  - split; [discriminate|]. intros [H|H].
    + apply He in H. discriminate H.
    + apply Hl in H. discriminate H.
Qed.

Lemma leb_trans (a b c : string) :
  String.leb a b = true -> String.leb b c = true -> String.leb a c = true.
Proof.
  rewrite !leb_true_cases. intros [->|Hab] [->|Hbc]; auto.
  right. eapply OrderedTypeEx.String_as_OT.lt_trans; eassumption.
Qed.

Lemma leb_false_flip (a b : string) :
  String.leb a b = false -> String.leb b a = true.
Proof.
  intros H. destruct (String.leb_total a b) as [E|E]; [congruence | exact E].
Qed.

Lemma all_countries_In (df : list Row) (c : string) :
  In c (all_countries df) <-> In c (map Country df).
Proof.
  unfold all_countries. split; intros H.
  - apply (nodup_In string_dec). eapply Permutation_in; [apply sort_by_perm | exact H].
  - eapply Permutation_in; [apply Permutation_sym, sort_by_perm|].
    now apply (nodup_In string_dec).
Qed.

Lemma all_countries_NoDup (df : list Row) : NoDup (all_countries df).
Proof.
  unfold all_countries.
  eapply Permutation_NoDup; [apply Permutation_sym, sort_by_perm | apply NoDup_nodup].
Qed.

Lemma all_countries_sorted (df : list Row) :
  StronglySorted (fun a b => String.leb a b = true) (all_countries df).
Proof.
  apply Sorted_StronglySorted.
  - intros a b c. apply leb_trans.
  - unfold all_countries. apply sort_by_sorted. apply leb_false_flip.
Qed.

Lemma index_Some (x : string) (l : list string) :
  In x l -> exists i, index x l = Some i /\ nth_error l i = Some x.
Proof.
  induction l as [|y l IH]; simpl; [contradiction|].
  intros H. destruct (String.eqb y x) eqn:E.
  - apply String.eqb_eq in E. subst y. now exists 0%nat.
  - destruct IH as [i [Hi Hn]].
    + destruct H as [->|H]; [|exact H]. now rewrite String.eqb_refl in E.
    + exists (S i). rewrite Hi. auto.
Qed.

(** X1.  The country selectors offer every country of the table exactly
    once, in ascending order.  The primary selector starts on the first of
    them, which precedes every other country; the comparison selector
    starts on Italy whenever the table has a row of Italy, and otherwise on
    the second country of the list.  The comparison selector has no value
    to start with exactly when Italy is absent and the table holds fewer
    than two countries. *)
Theorem country_selectors (df : list Row) :
  (forall c, In c (all_countries df) <-> In c (map Country df)) /\
  NoDup (all_countries df) /\
  StronglySorted (fun a b => String.leb a b = true) (all_countries df) /\
  (forall c, primary_default df = Some c ->
     forall c', In c' (map Country df) -> String.leb c c' = true) /\
  (df <> [] -> exists c, primary_default df = Some c) /\
  (In "Italy"%string (map Country df) ->
   comparison_default df = Some "Italy"%string) /\
  (~ In "Italy"%string (map Country df) ->
   comparison_default df = nth_error (all_countries df) 1) /\
  (comparison_default df = None <->
   ~ In "Italy"%string (map Country df) /\ (n_countries df < 2)%nat).
Proof.
  pose proof (all_countries_sorted df) as Hs.
  assert (Hlen : List.length (all_countries df) = n_countries df)
    by (unfold all_countries, n_countries; apply Permutation_length, sort_by_perm).
  assert (Hyes : In "Italy"%string (map Country df) ->
                 comparison_default df = Some "Italy"%string).
  { intros H. apply all_countries_In in H. unfold comparison_default, comparison_index.
    pose proof H as H'. apply existsb_eqb_In in H'. rewrite H'.
    destruct (index_Some _ _ H) as [i [-> Hn]]. exact Hn. }
  assert (Hno : ~ In "Italy"%string (map Country df) ->
                comparison_default df = nth_error (all_countries df) 1).
  { intros H. unfold comparison_default, comparison_index.
    destruct (existsb (String.eqb "Italy") (all_countries df)) eqn:E; [|reflexivity].
    apply existsb_eqb_In, all_countries_In in E. contradiction. }
  split; [apply all_countries_In|]. split; [apply all_countries_NoDup|].
  split; [exact Hs|]. split; [|split; [|split; [exact Hyes|split; [exact Hno|]]]].
  - intros c Hc c' Hc'. unfold primary_default, selectbox in Hc.
    apply all_countries_In in Hc'.
    destruct (all_countries df) as [|c0 rest]; [discriminate|].
    simpl in Hc. injection Hc as ->. apply StronglySorted_inv in Hs.
    destruct Hs as [_ Hall]. destruct Hc' as [->|Hc'].
    + apply leb_true_cases. now left.
    + rewrite Forall_forall in Hall. now apply Hall.
  - intros Hne. unfold primary_default, selectbox.
    destruct df as [|r df]; [congruence|].
    assert (Hin : In (Country r) (all_countries (r :: df)))
      by (apply all_countries_In; now left).
    destruct (all_countries (r :: df)) as [|c0 rest]; [contradiction | now exists c0].
  - split.
    + intros Hnone.
      destruct (in_dec string_dec "Italy"%string (map Country df)) as [Hin|Hnin].
      * rewrite Hyes in Hnone by exact Hin. discriminate.
      * split; [exact Hnin|]. rewrite Hno in Hnone by exact Hnin.
        apply nth_error_None in Hnone. rewrite Hlen in Hnone. lia.
    + intros [Hnin Hlt]. rewrite Hno by exact Hnin.
      apply nth_error_None. rewrite Hlen. lia.
Qed.

(** ** The date range *)

Lemma fold_min_spec (l : list Z) (d : Z) :
  (fold_left Z.min l d <= d)%Z /\
  (forall x, In x l -> (fold_left Z.min l d <= x)%Z) /\
  In (fold_left Z.min l d) (d :: l).
Proof.
  revert d. induction l as [|y l IH]; intros d; simpl.
  - split; [lia|]. split; [intros x []|now left].
  - destruct (IH (Z.min d y)) as [H1 [H2 H3]]. split; [lia|]. split.
    + intros x [<-|Hx]; [lia | now apply H2].
    + destruct H3 as [H3|H3]; [|now right; right].
      rewrite <- H3. destruct (Z.min_spec d y) as [[_ ->]|[_ ->]]; auto.
Qed.

Lemma fold_max_spec (l : list Z) (d : Z) :
  (d <= fold_left Z.max l d)%Z /\
  (forall x, In x l -> (x <= fold_left Z.max l d)%Z) /\
  In (fold_left Z.max l d) (d :: l).
Proof.
  revert d. induction l as [|y l IH]; intros d; simpl.
  - split; [lia|]. split; [intros x []|now left].
  - destruct (IH (Z.max d y)) as [H1 [H2 H3]]. split; [lia|]. split.
    + intros x [<-|Hx]; [lia | now apply H2].
    + destruct H3 as [H3|H3]; [|now right; right].
      rewrite <- H3. destruct (Z.max_spec d y) as [[_ ->]|[_ ->]]; auto.
Qed.

Lemma mask_true (date_range : Z * Z) (r : Row) :
  mask date_range r = true <->
  exists d, Date r = Some d /\ (fst date_range <= d <= snd date_range)%Z.
Proof.
  unfold mask. destruct (Date r) as [d|].
  - rewrite andb_true_iff, !Z.leb_le. split.
    + intros H. exists d. auto.
    + intros [d' [E H]]. injection E as <-. exact H.
  - split; [discriminate | intros [d [E _]]; discriminate E].
Qed.

(** X2.  The date slider starts on the earliest and the latest reported
    day of the table.  With that range the window holds every row that has
    a date, in table order, and only those; both ends are days of the
    table and the first does not follow the second.  The slider has no
    range to start on exactly when no row of the table has a date. *)
Theorem default_date_range (df : list Row) :
  (default_range df = None <-> forall r, In r df -> Date r = None) /\
  (forall lo hi, default_range df = Some (lo, hi) ->
     (lo <= hi)%Z /\
     (exists r, In r df /\ Date r = Some lo) /\
     (exists r, In r df /\ Date r = Some hi) /\
     (forall r d, In r df -> Date r = Some d -> (lo <= d <= hi)%Z) /\
     filter_window df (lo, hi)
     = filter (fun r => match Date r with Some _ => true | None => false end) df).
Proof.
  unfold default_range, date_min, date_max.
  pose proof (keys_of_In Z.leb Date df) as Hk.
  destruct (keys_of Date df) as [|d0 ds] eqn:E.
  - split.
    + split; [intros _|reflexivity]. intros r Hr.
      destruct (Date r) as [d|] eqn:Ed; [|reflexivity].
      exfalso. apply (proj2 (Hk d)). now exists r.
    + intros lo hi H. discriminate H.
  - split.
    + split; [discriminate|]. intros Hnone.
      destruct (proj1 (Hk d0) (or_introl eq_refl)) as [r [Hr Ed]].
      rewrite (Hnone r Hr) in Ed. discriminate Ed.
    + intros lo hi H. injection H as <- <-.
      destruct (fold_min_spec ds d0) as [m1 [m2 m3]].
      destruct (fold_max_spec ds d0) as [M1 [M2 M3]].
      assert (Hb : forall r d, In r df -> Date r = Some d ->
                   (fold_left Z.min ds d0 <= d <= fold_left Z.max ds d0)%Z).
      { intros r d Hr Ed.
        assert (Hd : In d (d0 :: ds)) by (apply Hk; now exists r).
        destruct Hd as [<-|Hd]; [lia|]. split; [now apply m2 | now apply M2]. }
      split; [lia|]. split; [now apply Hk|]. split; [now apply Hk|].
      split; [exact Hb|].
      unfold filter_window. apply filter_ext_in. intros r Hr.
      destruct (Date r) as [d|] eqn:Ed.
      * apply mask_true. exists d. split; [exact Ed|]. simpl. now apply (Hb r).
      * unfold mask. now rewrite Ed.
Qed.

(** X3.  A row is in the filtered window exactly when it is a row of the
    table whose date lies between the two ends, both included; a row
    without a date is never in it.  A range whose end precedes its start
    gives the empty window, and filtering a window again by a second range
    is filtering the table once by the intersection of the two ranges. *)
Theorem window_by_range (df : list Row) (date_range : Z * Z) :
  (forall r, In r (filter_window df date_range) <->
     In r df /\
     exists d, Date r = Some d /\ (fst date_range <= d <= snd date_range)%Z) /\
  ((snd date_range < fst date_range)%Z -> filter_window df date_range = []) /\
  (forall second : Z * Z,
     filter_window (filter_window df date_range) second
     = filter_window df (Z.max (fst date_range) (fst second),
                         Z.min (snd date_range) (snd second))).
Proof.
  split; [|split].
  - intros r. unfold filter_window. now rewrite filter_In, mask_true.
  - intros Hlt. unfold filter_window.
    induction df as [|r df IH]; simpl; [reflexivity|].
    destruct (mask date_range r) eqn:E; [|exact IH].
    apply mask_true in E. destruct E as [d [_ Hd]]. lia.
  - intros second. unfold filter_window.
    induction df as [|r df IH]; simpl; [reflexivity|].
    destruct (mask date_range r) eqn:E1; simpl; rewrite IH.
    + unfold mask in *. destruct (Date r) as [d|]; [|discriminate E1]. simpl.
      apply andb_true_iff in E1. destruct E1 as [A B].
      apply Z.leb_le in A, B.
      destruct ((fst second <=? d)%Z) eqn:C, ((d <=? snd second)%Z) eqn:D; simpl;
        try apply Z.leb_le in C; try apply Z.leb_gt in C;
        try apply Z.leb_le in D; try apply Z.leb_gt in D.
      * replace (Z.max (fst date_range) (fst second) <=? d)%Z with true
          by (symmetry; apply Z.leb_le; lia).
        replace (d <=? Z.min (snd date_range) (snd second))%Z with true
          by (symmetry; apply Z.leb_le; lia).
        reflexivity.
      * replace (d <=? Z.min (snd date_range) (snd second))%Z with false
          by (symmetry; apply Z.leb_gt; lia).
        now rewrite andb_false_r.
      * replace (Z.max (fst date_range) (fst second) <=? d)%Z with false
          by (symmetry; apply Z.leb_gt; lia).
        reflexivity.
      * replace (Z.max (fst date_range) (fst second) <=? d)%Z with false
          by (symmetry; apply Z.leb_gt; lia).
        reflexivity.
    + unfold mask in *. destruct (Date r) as [d|]; [|reflexivity]. simpl.
      apply andb_false_iff in E1.
      destruct E1 as [A|B]; [apply Z.leb_gt in A | apply Z.leb_gt in B].
      * replace (Z.max (fst date_range) (fst second) <=? d)%Z with false
          by (symmetry; apply Z.leb_gt; lia).
        reflexivity.
      * replace (d <=? Z.min (snd date_range) (snd second))%Z with false
          by (symmetry; apply Z.leb_gt; lia).
        now rewrite andb_false_r.
Qed.

(** ** The global context series *)

Lemma strictly_ascending (l : list Z) :
  Sorted (fun a b => (a <=? b)%Z = true) l -> NoDup l -> StronglySorted Z.lt l.
Proof.
  intros Hs Hnd. apply Sorted_StronglySorted in Hs.
  - induction Hs as [|x l Hs IH Hall]; constructor.
    + apply IH. now inversion Hnd.
    + inversion Hnd as [|y ys Hnin Hnd']; subst.
      rewrite Forall_forall in *. intros y Hy.
      specialize (Hall y Hy). apply Z.leb_le in Hall.
      assert (x <> y) by (intros ->; contradiction). lia.
  - intros a b c Hab Hbc. apply Z.leb_le in Hab, Hbc. apply Z.leb_le. lia.
Qed.

Lemma group_keys_dates_ascending (rows : list Row) :
  StronglySorted Z.lt (group_keys Z.eq_dec Z.leb Date rows).
Proof.
  apply strictly_ascending; [|apply group_keys_NoDup].
  unfold group_keys. apply sort_by_sorted.
  intros a b H. apply Z.leb_gt in H. apply Z.leb_le. lia.
Qed.

(** X4.  The global context series has one row per day on which the window
    has a row, in strictly ascending order of the days; each row holds the
    sums of new cases and of new deaths over all rows of that day, whatever
    the countries selected.  Its two columns add up to the totals of new
    cases and of new deaths over the window, and its column for the chosen
    metric is the world series from which the rest of world is computed. *)
Theorem global_context_series (df : list Row) (date_range : Z * Z) :
  let df_f := filter_window df date_range in
  StronglySorted Z.lt (map fst (df_global df_f)) /\
  (forall d, In d (map fst (df_global df_f)) <->
     exists r, In r df_f /\ Date r = Some d) /\
  (forall d cases deaths, In (d, (cases, deaths)) (df_global df_f) ->
     cases = total (map New_cases (filter (has_key Z.eq_dec Date d) df_f)) /\
     deaths = total (map New_deaths (filter (has_key Z.eq_dec Date d) df_f))) /\
  total (map (fun x => fst (snd x)) (df_global df_f)) == total (map New_cases df_f) /\
  total (map (fun x => snd (snd x)) (df_global df_f)) == total (map New_deaths df_f) /\
  df_world df_f New_cases_metric
  = map (fun x => (fst x, fst (snd x))) (df_global df_f) /\
  df_world df_f New_deaths_metric
  = map (fun x => (fst x, snd (snd x))) (df_global df_f).
Proof.
  intros df_f.
  assert (Hd : forall r, In r df_f -> Date r <> None)
    by (intros r; apply filter_window_dated).
  assert (Hkeys : map fst (df_global df_f) = group_keys Z.eq_dec Z.leb Date df_f).
  { unfold df_global. rewrite map_map. simpl. apply map_id. }
  assert (Hcov : forall r, In r df_f ->
            exists k, Date r = Some k /\ In k (group_keys Z.eq_dec Z.leb Date df_f)).
  { intros r Hr. destruct (Date r) as [k|] eqn:E.
    - exists k. split; [reflexivity|]. apply group_keys_In. now exists r.
    - now apply Hd in Hr. }
  split; [rewrite Hkeys; apply group_keys_dates_ascending|].
  split; [intros d; rewrite Hkeys; apply group_keys_In|].
  split.
  { intros d cases deaths Hin. unfold df_global in Hin. apply in_map_iff in Hin.
    destruct Hin as [d' [E _]]. injection E as -> <- <-. split; reflexivity. }
  split.
  { unfold df_global. rewrite map_map. simpl.
    apply (total_group_sums Z.eq_dec Date New_cases);
      [apply group_keys_NoDup | exact Hcov]. }
  split.
  { unfold df_global. rewrite map_map. simpl.
    apply (total_group_sums Z.eq_dec Date New_deaths);
      [apply group_keys_NoDup | exact Hcov]. }
  split; unfold df_world, groupby_sum, df_global; rewrite map_map; reflexivity.
Qed.

(** ** The two-country table and its growth rates *)

Lemma filter_either {A : Type} (p q : A -> bool) (l : list A) :
  (forall x, In x l -> p x = true -> q x = false) ->
  Permutation (filter p l ++ filter q l) (filter (fun x => p x || q x) l).
Proof.
  induction l as [|x l IH]; intros H; simpl; [constructor|].
  assert (IH' := IH (fun y Hy => H y (or_intror Hy))).
  destruct (p x) eqn:P; simpl.
  - rewrite (H x (or_introl eq_refl) P). now constructor.
  - destruct (q x); simpl; [|exact IH'].
    eapply perm_trans; [apply Permutation_sym, Permutation_middle|].
    now constructor.
Qed.

(** X5.  The two-country comparison table holds the rows of the window
    whose country is one of the two selected, unaggregated and unchanged,
    the rows of the primary country first and each group in table order.
    When the two countries differ every such row is there exactly once. *)
Theorem two_country_table (df_f : list Row) (c1 c2 : string) :
  c1 <> c2 ->
  df_compare df_f c1 c2 = country_rows c1 df_f ++ country_rows c2 df_f /\
  (forall r, In r (df_compare df_f c1 c2) <->
     In r df_f /\ (Country r = c1 \/ Country r = c2)) /\
  Permutation (df_compare df_f c1 c2)
    (filter (fun r => String.eqb (Country r) c1 || String.eqb (Country r) c2) df_f).
Proof.
  intros Hne. rewrite df_compare_rows. split; [reflexivity|]. split.
  - intros r. rewrite in_app_iff. unfold country_rows.
    rewrite !filter_In, !String.eqb_eq. tauto.
  - apply filter_either. intros r _ E. apply String.eqb_eq in E.
    apply String.eqb_neq. congruence.
Qed.

Lemma two_country_table_Italy_Germany :
  "Germany"%string <> "Italy"%string /\
  Permutation (df_compare italy_window "Germany" "Italy")
    (filter (fun r => String.eqb (Country r) "Germany" || String.eqb (Country r) "Italy")
            italy_window).
Proof.
  assert (H : "Germany"%string <> "Italy"%string) by discriminate.
  split; [exact H|].
  apply (two_country_table italy_window "Germany" "Italy" H).
Defined.

Lemma groupby_shift_length (last : string -> num) (rows : list (string * Q)) :
  List.length (groupby_shift last rows) = List.length rows.
Proof.
  revert last. induction rows as [|[k v] rows IH]; intros last; simpl;
    [|rewrite IH]; reflexivity.
Qed.

(** X6.  The growth-rate column has one value for every row of the
    two-country table, in the same order, also when both selectors name the
    same country, and it never holds a missing value: what [fillna(0)]
    leaves is a number or an infinity. *)
Theorem growth_rate_column (df_f : list Row) (c1 c2 : string) (metric : Metric) :
  List.length (GrowthRate df_f c1 c2 metric) = List.length (df_compare df_f c1 c2) /\
  map fst (df_gr df_f c1 c2 metric) = df_compare df_f c1 c2 /\
  map snd (df_gr df_f c1 c2 metric) = GrowthRate df_f c1 c2 metric /\
  Forall (fun g => g <> NaN) (GrowthRate df_f c1 c2 metric).
Proof.
  assert (L : List.length (GrowthRate df_f c1 c2 metric)
              = List.length (df_compare df_f c1 c2)).
  { unfold GrowthRate, groupby_pct_change.
    rewrite !length_map, length_combine, groupby_shift_length, !length_map.
    apply Nat.min_id. }
  split; [exact L|]. split; [|split].
  - unfold df_gr. revert L. generalize (GrowthRate df_f c1 c2 metric).
    induction (df_compare df_f c1 c2) as [|r rows IH]; intros [|g gs] L;
      try discriminate; [reflexivity|]. simpl. f_equal. apply IH. now injection L.
  - unfold df_gr. apply map_snd_combine_same. now rewrite L.
  - unfold GrowthRate. apply Forall_forall. intros g Hg. apply in_map_iff in Hg.
    destruct Hg as [x [<- _]]. destruct x; discriminate.
Qed.

Lemma growth_from_after_zero (prev : num) (vs : list Q) (i : nat) (p x : Q) :
  nth_error vs i = Some p -> nth_error vs (S i) = Some x -> p == 0 ->
  nth_error (growth_from prev vs) (S i)
  = Some (if Qeq_bool x 0 then Fin 0 else if Qle_bool 0 x then PInf else NInf).
Proof.
  revert prev vs. induction i as [|i IH]; intros prev vs Hp Hx Hz.
  - destruct vs as [|p' [|x' vs]]; try discriminate.
    simpl in Hp, Hx. injection Hp as ->. injection Hx as ->.
    simpl. now rewrite <- (pct_after_zero x p Hz).
  - destruct vs as [|v vs]; [discriminate|].
    simpl in Hp. change (nth_error (v :: vs) (S (S i))) with (nth_error vs (S i)) in Hx.
    apply (IH (Fin v) vs Hp Hx Hz).
Qed.

Lemma growth_from_after_nonzero (prev : num) (vs : list Q) (i : nat) (p x : Q) :
  nth_error vs i = Some p -> nth_error vs (S i) = Some x -> ~ p == 0 ->
  nth_error (growth_from prev vs) (S i) = Some (Fin (x / p - 1)).
Proof.
  revert prev vs. induction i as [|i IH]; intros prev vs Hp Hx Hnz.
  - destruct vs as [|p' [|x' vs]]; try discriminate.
    simpl in Hp, Hx. injection Hp as ->. injection Hx as ->.
    simpl. now rewrite <- (pct_after_nonzero x p Hnz).
  - destruct vs as [|v vs]; [discriminate|].
    simpl in Hp. change (nth_error (v :: vs) (S (S i))) with (nth_error vs (S i)) in Hx.
    apply (IH (Fin v) vs Hp Hx Hnz).
Qed.

Lemma growth_of_series (df_f : list Row) (c1 c2 c : string) (metric : Metric) :
  c1 <> c2 -> c = c1 \/ c = c2 ->
  growth_of c (df_gr df_f c1 c2 metric)
  = growth_from NaN (map (col metric) (country_rows c df_f)).
Proof.
  intros Hne Hc. destruct (rows_of_distinct df_f c1 c2 metric Hne) as [G1 G2].
  unfold growth_of.
  destruct Hc as [-> | ->]; [rewrite G1 | rewrite G2];
    apply map_snd_combine_same; now rewrite growth_from_length, length_map.
Qed.

(** X7.  For two distinct countries, the growth rate of an observation that
    follows another one of the same country in the table is infinite
    exactly when the previous value is zero and the current one is not:
    plus infinity after a zero for a positive value, minus infinity for a
    negative one, and 0 when both are zero.  After a nonzero value it is
    always a number. *)
Theorem growth_rate_infinite_iff
  (df_f : list Row) (c1 c2 c : string) (metric : Metric) (i : nat) (p x : Q) :
  c1 <> c2 ->
  c = c1 \/ c = c2 ->
  nth_error (map (col metric) (country_rows c df_f)) i = Some p ->
  nth_error (map (col metric) (country_rows c df_f)) (S i) = Some x ->
  exists g,
    nth_error (growth_of c (df_gr df_f c1 c2 metric)) (S i) = Some g /\
    (is_inf g = true <-> p == 0 /\ ~ x == 0) /\
    (p == 0 -> x == 0 -> g = Fin 0) /\
    (p == 0 -> 0 < x -> g = PInf) /\
    (p == 0 -> x < 0 -> g = NInf) /\
    (~ p == 0 -> g = Fin (x / p - 1)).
Proof.
  intros Hne Hc Hp Hx. rewrite (growth_of_series df_f c1 c2 c metric Hne Hc).
  destruct (Qeq_dec p 0) as [Hz|Hnz].
  - rewrite (growth_from_after_zero NaN _ i p x Hp Hx Hz).
    eexists. split; [reflexivity|].
    destruct (Qeq_bool x 0) eqn:Ex.
    + apply Qeq_bool_iff in Ex. split; [|split; [|split; [|split]]].
      * split; [discriminate | intros [_ H]; contradiction].
      * reflexivity.
      * intros _ H. rewrite Ex in H. now apply Qlt_irrefl in H.
      * intros _ H. rewrite Ex in H. now apply Qlt_irrefl in H.
      * intros H. contradiction.
    + assert (Hx0 : ~ x == 0) by (intros H; apply Qeq_bool_iff in H; congruence).
      destruct (Qle_bool 0 x) eqn:Lx.
      * apply Qle_bool_iff in Lx. split; [|split; [|split; [|split]]].
        -- split; [auto | reflexivity].
        -- intros _ H. contradiction.
        -- reflexivity.
        -- intros _ H. exfalso. apply (Qlt_irrefl x).
           eapply Qlt_le_trans; eassumption.
        -- intros H. contradiction.
      * assert (Hneg : x < 0).
        { apply Qnot_le_lt. intros H. apply Qle_bool_iff in H. congruence. }
        split; [|split; [|split; [|split]]].
        -- split; [auto | reflexivity].
        -- intros _ H. contradiction.
        -- intros _ H. exfalso. apply (Qlt_irrefl x).
           eapply Qlt_trans; eassumption.
        -- reflexivity.
        -- intros H. contradiction.
  - rewrite (growth_from_after_nonzero NaN _ i p x Hp Hx Hnz).
    eexists. split; [reflexivity|].
    split; [split; [discriminate | intros [H _]; contradiction]|].
    repeat split; try (intros H; contradiction).
Qed.

Lemma growth_rate_infinite_after_zero :
  ("Germany"%string <> "Italy"%string) /\
  exists g,
    nth_error (growth_of "Italy" (df_gr zero_then_five "Germany" "Italy" New_cases_metric)) 1
    = Some g /\
    (is_inf g = true <-> 0 == 0 /\ ~ 5 == 0).
Proof.
  assert (H : "Germany"%string <> "Italy"%string) by discriminate.
  split; [exact H|].
  destruct (growth_rate_infinite_iff zero_then_five "Germany" "Italy" "Italy"
              New_cases_metric 0 0 5 H (or_intror eq_refl) eq_refl eq_refl)
    as [g [Hg [Hinf _]]].
  exists g. split; [exact Hg | exact Hinf].
Defined.

Lemma growth_from_app (prev : num) (a b : list Q) :
  growth_from prev (a ++ b)
  = growth_from prev a
    ++ growth_from (match rev a with [] => prev | v :: _ => Fin v end) b.
Proof.
  revert prev. induction a as [|v a IH]; intros prev; simpl; [reflexivity|].
  rewrite IH. do 2 f_equal.
  destruct (rev a) as [|w r] eqn:E; simpl; [|reflexivity].
  reflexivity.
Qed.

(** X8.  When both selectors name the same country, the growth-rate column
    is the growth series of that country followed by a second copy of it
    whose first value is computed against the last value of the country:
    only that value differs from the series of the country, and after a
    nonzero last value it is (first - last) / last. *)
Theorem growth_rate_same_country (df_f : list Row) (c : string) (metric : Metric) :
  let vs := map (col metric) (country_rows c df_f) in
  GrowthRate df_f c c metric
  = growth_from NaN vs
    ++ growth_from (match rev vs with [] => NaN | v :: _ => Fin v end) vs /\
  (forall first rest last front,
     vs = first :: rest -> rev vs = last :: front -> ~ last == 0 ->
     nth_error (GrowthRate df_f c c metric) (List.length vs)
     = Some (Fin (first / last - 1)) /\
     first / last - 1 == (first - last) / last) /\
  (forall i, (0 < i < List.length vs)%nat ->
     nth_error (GrowthRate df_f c c metric) (List.length vs + i)
     = nth_error (GrowthRate df_f c c metric) i).
Proof.
  intros vs.
  assert (E : GrowthRate df_f c c metric
              = growth_from NaN vs
                ++ growth_from (match rev vs with [] => NaN | v :: _ => Fin v end) vs).
  { rewrite GrowthRate_same, map_app. apply growth_from_app. }
  split; [exact E|]. split.
  - intros first rest last front Hvs Hrev Hnz. split; [|field; exact Hnz].
    rewrite E, nth_error_app2 by (rewrite growth_from_length; lia).
    rewrite growth_from_length, Nat.sub_diag, Hrev, Hvs. simpl.
    now rewrite <- (pct_after_nonzero first last Hnz).
  - intros i Hi. rewrite E.
    rewrite nth_error_app2 by (rewrite growth_from_length; lia).
    rewrite nth_error_app1 by (rewrite growth_from_length; lia).
    rewrite growth_from_length.
    replace (List.length vs + i - List.length vs)%nat with i by lia.
    destruct vs as [|v vs']; [simpl in Hi; lia|].
    destruct i as [|i]; [lia|]. reflexivity.
Qed.

(** ** Totals, ratios and ranking *)

Lemma total_two_filters {A : Type} (val : A -> Q) (p q : A -> bool) (l : list A) :
  (forall x, In x l -> p x = true -> q x = false) ->
  (forall x, In x l -> 0 <= val x) ->
  total (map val (filter p l)) + total (map val (filter q l)) <= total (map val l).
Proof.
  induction l as [|x l IH]; intros Hd Hpos; simpl.
  - apply Qle_refl.
  - assert (IH' := IH (fun y Hy => Hd y (or_intror Hy)) (fun y Hy => Hpos y (or_intror Hy))).
    assert (Hx := Hpos x (or_introl eq_refl)).
    destruct (p x) eqn:P; simpl.
    + rewrite (Hd x (or_introl eq_refl) P).
      rewrite <- Qplus_assoc. apply Qplus_le_r. exact IH'.
    + destruct (q x); simpl.
      * setoid_replace (total (map val (filter p l)) + (val x + total (map val (filter q l))))
          with (val x + (total (map val (filter p l)) + total (map val (filter q l))))
          by ring.
        apply Qplus_le_r. exact IH'.
      * rewrite <- (Qplus_0_l (_ + _)). apply Qplus_le_compat; assumption.
Qed.

(** X9.  When the two selected countries differ and no row of the window
    has a negative value of the metric, the combined total does not exceed
    the global total and the reported rest of world is not negative. *)
Theorem rest_of_world_nonnegative
  (df : list Row) (date_range : Z * Z) (c1 c2 : string) (metric : Metric) :
  c1 <> c2 ->
  (forall r, In r (filter_window df date_range) -> 0 <= col metric r) ->
  total_two (filter_window df date_range) c1 c2 metric
    <= total_world (filter_window df date_range) metric /\
  0 <= total_rest (filter_window df date_range) c1 c2 metric.
Proof.
  intros Hne Hpos. set (df_f := filter_window df date_range) in *.
  assert (Hd : forall r, In r df_f -> Date r <> None)
    by (intros r; apply filter_window_dated).
  assert (Hle : total_two df_f c1 c2 metric <= total_world df_f metric).
  { rewrite total_two_countries, total_world_all by exact Hd.
    unfold country_total, country_rows. apply total_two_filters; [|exact Hpos].
    intros r _ E. apply String.eqb_eq in E. apply String.eqb_neq. congruence. }
  split; [exact Hle|]. unfold total_rest.
  apply (Qplus_le_l _ _ (total_two df_f c1 c2 metric)). ring_simplify. exact Hle.
Qed.

Lemma rest_of_world_nonnegative_Italy_Germany :
  ("Germany"%string <> "Italy"%string) /\
  (forall r, In r (filter_window italy_window (1, 3)%Z) -> 0 <= col New_cases_metric r) /\
  0 <= total_rest (filter_window italy_window (1, 3)%Z) "Germany" "Italy" New_cases_metric.
Proof.
  assert (H : "Germany"%string <> "Italy"%string) by discriminate.
  assert (Hpos : forall r, In r (filter_window italy_window (1, 3)%Z) ->
                           0 <= col New_cases_metric r).
  { intros r Hr. simpl in Hr.
    repeat (destruct Hr as [<-|Hr]; [discriminate|]). contradiction. }
  split; [exact H|]. split; [exact Hpos|].
  apply (rest_of_world_nonnegative italy_window (1, 3)%Z "Germany" "Italy"
           New_cases_metric H Hpos).
Defined.

(** X10.  On a row whose cumulative deaths are not negative and do not
    exceed its cumulative cases, and whose cumulative cases are positive,
    the case fatality ratio is a number between 0 and 1. *)
Theorem case_fatality_ratio_bounds
  (df_f : list Row) (c1 c2 : string) (r : Row) (v : num) :
  In (r, v) (df_cfr df_f c1 c2) ->
  0 <= Cumulative_deaths r ->
  Cumulative_deaths r <= Cumulative_cases r ->
  0 < Cumulative_cases r ->
  exists q, v = Fin q /\ 0 <= q /\ q <= 1.
Proof.
  intros Hin H0 Hle Hpos.
  unfold df_cfr in Hin. apply in_map_iff in Hin.
  destruct Hin as [r' [E _]]. injection E as -> <-.
  exists (Cumulative_deaths r / Cumulative_cases r). split; [|split].
  - apply CFR_nonzero_cases. intros E. rewrite E in Hpos. now apply Qlt_irrefl in Hpos.
  - apply Qle_shift_div_l; [exact Hpos|]. now rewrite Qmult_0_l.
  - apply Qle_shift_div_r; [exact Hpos|]. now rewrite Qmult_1_l.
Qed.

Lemma case_fatality_ratio_bounds_Italy :
  In (cum "Italy" 2 5 1, CFR (cum "Italy" 2 5 1)) (df_cfr cfr_window "Germany" "Italy") /\
  exists q, CFR (cum "Italy" 2 5 1) = Fin q /\ 0 <= q /\ q <= 1.
Proof.
  assert (Hin : In (cum "Italy" 2 5 1, CFR (cum "Italy" 2 5 1))
                   (df_cfr cfr_window "Germany" "Italy"))
    by (simpl; tauto).
  split; [exact Hin|].
  apply (case_fatality_ratio_bounds cfr_window "Germany" "Italy" _ _ Hin);
    discriminate || reflexivity.
Defined.

Lemma total_perm (a b : list Q) : Permutation a b -> total a == total b.
Proof.
  induction 1 as [|x a b Hp IH|x y a|a b c H1 IH1 H2 IH2]; simpl.
  - reflexivity.
  - now rewrite IH.
  - ring.
  - now rewrite IH1.
Qed.

(** X11.  The ranking splits the window by country: the sums of all its
    rows, before the cut to ten, add up to the sum of the metric over the
    whole window, which for a filtered window is the global total that the
    rest of world is computed from. *)
Theorem ranking_sums_to_global
  (df : list Row) (date_range : Z * Z) (metric : Metric)
  (sort_values : list (string * Q) -> list (string * Q)) :
  sorts_descending sort_values ->
  total (map snd (df_rank (filter_window df date_range) metric sort_values))
    == total (map (col metric) (filter_window df date_range)) /\
  total (map snd (df_rank (filter_window df date_range) metric sort_values))
    == total_world (filter_window df date_range) metric.
Proof.
  intros Hsort. set (df_f := filter_window df date_range).
  assert (H : total (map snd (df_rank df_f metric sort_values))
              == total (map (col metric) df_f)).
  { rewrite (total_perm _ _ (Permutation_map snd (df_rank_perm df_f metric sort_values Hsort))).
    apply total_groupby_sum. intros r _. discriminate. }
  split; [exact H|]. rewrite H. symmetry. apply total_world_all.
  intros r. apply filter_window_dated.
Qed.

Lemma ranking_sums_to_global_twelve :
  sorts_descending stable_sort_desc /\
  total (map snd (df_rank (filter_window twelve_countries (1, 1)%Z)
                          New_cases_metric stable_sort_desc))
    == total_world (filter_window twelve_countries (1, 1)%Z) New_cases_metric.
Proof.
  split; [exact stable_sort_desc_sorts|].
  apply (ranking_sums_to_global twelve_countries (1, 1)%Z New_cases_metric
           stable_sort_desc stable_sort_desc_sorts).
Defined.

(** X12.  A selected country that is already among the first ten rows of
    the ranking, or that has no row in the window, adds nothing: when this
    holds for both selected countries the table shown is exactly the first
    ten rows of the ranking. *)
Theorem ranking_without_appended_rows
  (df_f : list Row) (c1 c2 : string) (metric : Metric)
  (sort_values : list (string * Q) -> list (string * Q)) :
  sorts_descending sort_values ->
  In c1 (map fst (firstn 10 (df_rank df_f metric sort_values)))
    \/ ~ In c1 (map Country df_f) ->
  In c2 (map fst (firstn 10 (df_rank df_f metric sort_values)))
    \/ ~ In c2 (map Country df_f) ->
  df_top df_f c1 c2 metric sort_values = firstn 10 (df_rank df_f metric sort_values).
Proof.
  intros Hsort H1 H2. rewrite df_top_steps.
  assert (Hstep : forall sel,
            In sel (map fst (firstn 10 (df_rank df_f metric sort_values)))
            \/ ~ In sel (map Country df_f) ->
            add_selected (df_rank df_f metric sort_values)
              (firstn 10 (df_rank df_f metric sort_values)) sel
            = firstn 10 (df_rank df_f metric sort_values)).
  { intros sel [Hin|Hout]; unfold add_selected.
    - apply existsb_eqb_In in Hin. now rewrite Hin.
    - destruct (existsb _ _); [reflexivity|].
      rewrite filter_fst_absent; [apply app_nil_r|].
      intros Hc. apply Hout. now apply (df_rank_countries df_f metric sort_values Hsort). }
  rewrite (Hstep c1 H1). apply Hstep, H2.
Qed.

Lemma ranking_without_appended_rows_top :
  sorts_descending stable_sort_desc /\
  df_top twelve_countries "A" "B" New_cases_metric stable_sort_desc
  = firstn 10 (df_rank twelve_countries New_cases_metric stable_sort_desc).
Proof.
  split; [exact stable_sort_desc_sorts|].
  apply (ranking_without_appended_rows twelve_countries "A" "B" New_cases_metric
           stable_sort_desc stable_sort_desc_sorts).
  - left. vm_compute. tauto.
  - left. vm_compute. tauto.
Defined.

(** ** Key metrics *)

Lemma Qmax_cases (x y : Q) : Qmax x y = x \/ Qmax x y = y.
Proof. unfold Qmax, GenericMinMax.gmax. destruct (x ?= y); auto. Qed.

Lemma fold_Qmax_spec (l : list Q) (x : Q) :
  x <= fold_left Qmax l x /\
  (forall y, In y l -> y <= fold_left Qmax l x) /\
  In (fold_left Qmax l x) (x :: l).
Proof.
  revert x. induction l as [|z l IH]; intros x; simpl.
  - split; [apply Qle_refl|]. split; [intros y []|now left].
  - destruct (IH (Qmax x z)) as [H1 [H2 H3]]. split; [|split].
    + eapply Qle_trans; [apply Q.le_max_l | exact H1].
    + intros y [<-|Hy]; [|now apply H2].
      eapply Qle_trans; [apply Q.le_max_r | exact H1].
    + destruct H3 as [H3|H3]; [|now right; right].
      rewrite <- H3. destruct (Qmax_cases x z) as [->| ->]; auto.
Qed.

Lemma total_le_bound (l : list Q) (p : Q) :
  (forall y, In y l -> y <= p) ->
  total l <= p * inject_Z (Z.of_nat (List.length l)).
Proof.
  induction l as [|x l IH]; intros H.
  - simpl. rewrite Qmult_0_r. apply Qle_refl.
  - change (List.length (x :: l)) with (S (List.length l)).
    rewrite Nat2Z.inj_succ. unfold Z.succ. rewrite inject_Z_plus. simpl total.
    setoid_replace (p * (inject_Z (Z.of_nat (List.length l)) + inject_Z 1))
      with (p + p * inject_Z (Z.of_nat (List.length l))) by ring.
    apply Qplus_le_compat; [apply H; now left | apply IH].
    intros y Hy. apply H. now right.
Qed.

(** X13.  The key metrics of a selected country: when it has no row in the
    window both the peak and the average are the missing value, and
    nothing is raised.  Otherwise the peak is the value of one of its rows
    and no row exceeds it, the average times the number of rows is the sum
    of its values, and the average does not exceed the peak. *)
Theorem key_metrics (df_f : list Row) (c : string) (metric : Metric) :
  (country_rows c df_f = [] ->
   peak df_f c metric = NaN /\ average df_f c metric = NaN) /\
  (country_rows c df_f <> [] ->
   exists p a,
     peak df_f c metric = Fin p /\
     average df_f c metric = Fin a /\
     (exists r, In r (country_rows c df_f) /\ col metric r = p) /\
     (forall r, In r (country_rows c df_f) -> col metric r <= p) /\
     a * inject_Z (Z.of_nat (List.length (country_rows c df_f)))
       == country_total metric c df_f /\
     a <= p).
Proof.
  unfold peak, average, df_c1, country_total.
  change (filter (fun r => String.eqb (Country r) c) df_f) with (country_rows c df_f).
  split.
  - intros ->. split; reflexivity.
  - intros Hne. destruct (country_rows c df_f) as [|r0 rows] eqn:E; [congruence|].
    set (vs := map (col metric) (r0 :: rows)).
    set (n := inject_Z (Z.of_nat (List.length vs))).
    assert (Hn : 0 < n).
    { unfold n, vs. simpl List.length. rewrite Nat2Z.inj_succ.
      change 0 with (inject_Z 0). rewrite <- Zlt_Qlt. lia. }
    assert (Hn0 : ~ n == 0) by (intros H; rewrite H in Hn; now apply Qlt_irrefl in Hn).
    destruct (fold_Qmax_spec (map (col metric) rows) (col metric r0)) as [M1 [M2 M3]].
    set (p := fold_left Qmax (map (col metric) rows) (col metric r0)) in *.
    assert (Hall : forall y, In y vs -> y <= p).
    { intros y [<-|Hy]; [exact M1 | now apply M2]. }
    exists p, (total vs / n). split; [reflexivity|]. split; [|split; [|split; [|split]]].
    + unfold Series_mean. fold vs. fold n. simpl.
      destruct (Qeq_bool n 0) eqn:Q; [|reflexivity].
      apply Qeq_bool_iff in Q. contradiction.
    + change (col metric r0 :: map (col metric) rows) with (map (col metric) (r0 :: rows)) in M3.
      apply in_map_iff in M3. destruct M3 as [r [Hr Hin]]. now exists r.
    + intros r Hr. apply Hall. unfold vs. now apply in_map.
    + unfold n, vs at 2. rewrite length_map. fold vs.
      replace (inject_Z (Z.of_nat (List.length (r0 :: rows)))) with n
        by (unfold n, vs; now rewrite length_map).
      field. exact Hn0.
    + apply Qle_shift_div_r; [exact Hn|]. apply total_le_bound. exact Hall.
Qed.

(** ** Stripped text *)

Lemma lstrip_no_leading_space (s : string) : no_leading_space (lstrip s).
Proof.
  induction s as [|c s IH]; simpl; [exact I|].
  destruct (is_space c) eqn:E; [exact IH | exact E].
Qed.

Lemma lstrip_fixed (s : string) : no_leading_space s -> lstrip s = s.
Proof. destruct s as [|c s]; simpl; [reflexivity|]. now intros ->. Qed.

Lemma rev_string_rev_string (s acc acc' : string) :
  rev_string (rev_string s acc) acc' = rev_string acc (s ++ acc').
Proof.
  revert acc acc'. induction s as [|c s IH]; intros acc acc'; simpl; [reflexivity|].
  now rewrite IH.
Qed.

Lemma rev_string_involutive (s : string) :
  rev_string (rev_string s EmptyString) EmptyString = s.
Proof. rewrite rev_string_rev_string. simpl. apply append_empty_r. Qed.

Lemma rev_string_acc (s acc : string) :
  rev_string s acc = (rev_string s EmptyString ++ acc)%string.
Proof.
  revert acc. induction s as [|c s IH]; intros acc; simpl; [reflexivity|].
  rewrite IH, (IH (String c EmptyString)), append_assoc'. reflexivity.
Qed.

Lemma rev_string_append (a b acc : string) :
  rev_string (a ++ b) acc = rev_string b (rev_string a acc).
Proof.
  revert acc. induction a as [|c a IH]; intros acc; simpl; [reflexivity | apply IH].
Qed.

Lemma lstrip_before_mark (u : string) (c : ascii) :
  is_space c = false ->
  lstrip (u ++ String c EmptyString) = (lstrip u ++ String c EmptyString)%string.
Proof.
  intros Hc. induction u as [|d u IH]; simpl; [now rewrite Hc|].
  destruct (is_space d); [exact IH | reflexivity].
Qed.

Lemma rstrip_keeps_head (s : string) :
  no_leading_space s -> no_leading_space (rstrip s).
Proof.
  destruct s as [|c s]; [intros _; exact I|]. simpl. intros Hc.
  unfold rstrip. simpl.
  rewrite (rev_string_acc s (String c EmptyString)), lstrip_before_mark by exact Hc.
  rewrite rev_string_append. simpl. exact Hc.
Qed.

Lemma rstrip_idempotent (s : string) : rstrip (rstrip s) = rstrip s.
Proof.
  unfold rstrip. rewrite rev_string_involutive.
  now rewrite (lstrip_fixed _ (lstrip_no_leading_space _)).
Qed.

(** The stripped text has no whitespace at either end, and stripping it
    again changes nothing. *)
Lemma strip_trimmed (s : string) :
  lstrip (strip s) = strip s /\ rstrip (strip s) = strip s /\
  strip (strip s) = strip s.
Proof.
  assert (L : lstrip (strip s) = strip s).
  { apply lstrip_fixed. unfold strip. apply rstrip_keeps_head, lstrip_no_leading_space. }
  assert (R : rstrip (strip s) = strip s) by (unfold strip; apply rstrip_idempotent).
  split; [exact L|]. split; [exact R|].
  unfold strip at 1. now rewrite L, R.
Qed.

(** ** What [load_data] returns *)

(** X14.  Every outcome of [load_data] has one of three origins.  A
    returned table is the table of the first candidate, in the order
    working directory, script directory, DATA_URL, hardcoded URL, that is
    not "not found", with its labels stripped: a later candidate is never
    used in its place.  A halt shows either the one reading error of the
    first candidate of the loop that is not "not found", or, when the loop
    found nothing and the hardcoded URL failed, the remediation message and
    the offer.  The run never halts without an error message. *)
Theorem load_data_outcomes
  (read_csv : string -> read_result) (script_dir : string) (DATA_URL : option string) :
  let paths := try_paths script_dir DATA_URL in
  let result := load_data read_csv script_dir DATA_URL in
  (forall df, result = Return df ->
     exists before p after raw,
       paths ++ [github_raw] = before ++ p :: after /\
       Forall (fun q => read_csv q = FileNotFound) before /\
       read_csv p = ReadOk raw /\ df = strip_columns raw) /\
  (forall shown, result = Stop shown ->
     (exists before p after e,
         paths = before ++ p :: after /\
         Forall (fun q => read_csv q = FileNotFound) before /\
         read_csv p = ReadError e /\
         shown = [st_error (reading_error p e)]) \/
     (Forall (fun q => read_csv q = FileNotFound) paths /\
      (forall raw, read_csv github_raw <> ReadOk raw) /\
      shown = [st_error not_found_text; st_info offer_text])) /\
  (forall shown, result = Stop shown -> exists text rest, shown = st_error text :: rest).
Proof.
  intros paths result.
  assert (Hloop : forall l,
            (try_each read_csv l = None /\ Forall (fun q => read_csv q = FileNotFound) l) \/
            (exists before p after,
                l = before ++ p :: after /\
                Forall (fun q => read_csv q = FileNotFound) before /\
                ((exists raw, read_csv p = ReadOk raw /\
                              try_each read_csv l = Some (Return (strip_columns raw))) \/
                 (exists e, read_csv p = ReadError e /\
                            try_each read_csv l
                            = Some (Stop [st_error (reading_error p e)]))))).
  { induction l as [|q l IH]; simpl.
    - left. split; [reflexivity | constructor].
    - destruct (read_csv q) as [raw| |e] eqn:E.
      + right. exists [], q, l. split; [reflexivity|]. split; [constructor|].
        left. exists raw. auto.
      + destruct IH as [[Hn Hall]|[before [p [after [-> [Hall H]]]]]].
        * left. split; [exact Hn | now constructor].
        * right. exists (q :: before), p, after. split; [reflexivity|].
          split; [now constructor | exact H].
      + right. exists [], q, l. split; [reflexivity|]. split; [constructor|].
        right. exists e. auto. }
  assert (Hcases :
    (exists before p after raw,
        paths ++ [github_raw] = before ++ p :: after /\
        Forall (fun q => read_csv q = FileNotFound) before /\
        read_csv p = ReadOk raw /\ result = Return (strip_columns raw)) \/
    (exists before p after e,
        paths = before ++ p :: after /\
        Forall (fun q => read_csv q = FileNotFound) before /\
        read_csv p = ReadError e /\
        result = Stop [st_error (reading_error p e)]) \/
    (Forall (fun q => read_csv q = FileNotFound) paths /\
     (forall raw, read_csv github_raw <> ReadOk raw) /\
     result = Stop [st_error not_found_text; st_info offer_text])).
  { unfold result, load_data. fold paths.
    destruct (Hloop paths) as [[Hn Hall]|[before [p [after [Hp [Hall H]]]]]].
    - rewrite Hn. destruct (read_csv github_raw) as [raw| |e] eqn:E.
      + left. exists paths, github_raw, [], raw. auto.
      + right. right. split; [exact Hall|]. split; [discriminate | reflexivity].
      + right. right. split; [exact Hall|]. split; [discriminate | reflexivity].
    - destruct H as [[raw [Hr Ht]]|[e [He Ht]]]; rewrite Ht.
      + left. exists before, p, (after ++ [github_raw]), raw.
        split; [rewrite Hp, <- app_assoc; reflexivity | auto].
      + right. left. exists before, p, after, e. auto. }
  assert (Hstop : forall shown, result = Stop shown ->
     (exists before p after e,
         paths = before ++ p :: after /\
         Forall (fun q => read_csv q = FileNotFound) before /\
         read_csv p = ReadError e /\
         shown = [st_error (reading_error p e)]) \/
     (Forall (fun q => read_csv q = FileNotFound) paths /\
      (forall raw, read_csv github_raw <> ReadOk raw) /\
      shown = [st_error not_found_text; st_info offer_text])).
  { intros shown Hres.
    destruct Hcases as [[b [p [a [raw [_ [_ [_ H]]]]]]]|[[b [p [a [e [H1 [H2 [H3 H]]]]]]]|[H1 [H2 H]]]];
      rewrite H in Hres; [discriminate Hres| |]; injection Hres as <-.
    - left. exists b, p, a, e. auto.
    - right. auto. }
  split; [|split; [exact Hstop|]].
  - intros df Hres.
    destruct Hcases as [[b [p [a [raw [H1 [H2 [H3 H]]]]]]]|[[b [p [a [e [_ [_ [_ H]]]]]]]|[_ [_ H]]]];
      rewrite H in Hres; try discriminate Hres.
    injection Hres as <-. exists b, p, a, raw. auto.
  - intros shown Hres.
    destruct (Hstop shown Hres) as [[b [p [a [e [_ [_ [_ ->]]]]]]]|[_ [_ ->]]]; eauto.
Qed.

(** X15.  The table that [load_data] returns is the table read, with the
    same rows and cells and with every column label stripped: no label of
    it starts or ends with whitespace. *)
Theorem load_data_labels_stripped
  (read_csv : string -> read_result) (script_dir : string) (DATA_URL : option string)
  (df : DataFrame) :
  load_data read_csv script_dir DATA_URL = Return df ->
  exists p raw,
    read_csv p = ReadOk raw /\
    nrows df = nrows raw /\
    map snd (columns df) = map snd (columns raw) /\
    labels df = map strip (labels raw) /\
    Forall (fun l => lstrip l = l /\ rstrip l = l) (labels df).
Proof.
  intros H.
  assert (Hraw : exists p raw, read_csv p = ReadOk raw /\ df = strip_columns raw).
  { unfold load_data in H.
    destruct (try_each read_csv (try_paths script_dir DATA_URL)) as [o|] eqn:E.
    - subst o. revert E. induction (try_paths script_dir DATA_URL) as [|q l IH];
        simpl; [discriminate|].
      destruct (read_csv q) as [raw| |e] eqn:Eq; intros E.
      + injection E as <-. eauto.
      + now apply IH.
      + discriminate E.
    - destruct (read_csv github_raw) as [raw| |e] eqn:Eq; try discriminate H.
      injection H as <-. eauto. }
  destruct Hraw as [p [raw [Hr ->]]]. exists p, raw.
  split; [exact Hr|]. split; [reflexivity|].
  assert (L : labels (strip_columns raw) = map strip (labels raw)).
  { unfold labels, strip_columns. simpl. now rewrite !map_map. }
  split; [unfold strip_columns; simpl; now rewrite map_map|].
  split; [exact L|]. rewrite L. apply Forall_forall. intros l Hl.
  apply in_map_iff in Hl. destruct Hl as [l0 [<- _]].
  destruct (strip_trimmed l0) as [A [B _]]. auto.
Qed.

Lemma load_data_labels_stripped_beside_script :
  load_data beside_script "/app" None = Return (strip_columns padded_frame) /\
  labels (strip_columns padded_frame) = ["Date_reported"; "Country"; "New_cases"]%string /\
  exists p raw,
    beside_script p = ReadOk raw /\
    labels (strip_columns padded_frame) = map strip (labels raw).
Proof.
  split; [reflexivity|]. split; [reflexivity|].
  destruct (load_data_labels_stripped beside_script "/app" None
              (strip_columns padded_frame) eq_refl)
    as [p [raw [H1 [_ [_ [H2 _]]]]]].
  exists p, raw. split; [exact H1 | exact H2].
Defined.

(** ** What [preprocess] keeps *)

(** Every column labelled [l] holds the cells [v]. *)
Lemma getitem_Ok_holds (df : DataFrame) (l : string) (v : list cell) :
  getitem df l = Ok v ->
  forall c, In c (columns df) -> fst c = l -> snd c = v.
Proof.
  unfold getitem. intros H c Hc Hl.
  assert (Hf : In c (filter (fun c => String.eqb (fst c) l) (columns df)))
    by (apply filter_fst_In; auto).
  destruct (filter (fun c => String.eqb (fst c) l) (columns df)) as [|c0 [|c1 r]];
    try discriminate.
  injection H as <-. destruct Hf as [->|[]]. reflexivity.
Qed.

Lemma getitem_Ok_column (df : DataFrame) (l : string) (v : list cell) :
  getitem df l = Ok v -> In (l, v) (columns df).
Proof.
  unfold getitem. intros H.
  destruct (filter (fun c => String.eqb (fst c) l) (columns df)) as [|c0 [|c1 r]] eqn:E;
    try discriminate.
  injection H as <-.
  assert (Hf : In c0 (filter (fun c => String.eqb (fst c) l) (columns df)))
    by (rewrite E; now left).
  apply filter_fst_In in Hf. destruct Hf as [Hin <-]. now destruct c0.
Qed.

Lemma setitem_columns (df : DataFrame) (l : string) (v : list cell) (c : string * list cell) :
  In c (columns (setitem df l v)) ->
  (fst c = l /\ snd c = v) \/ (fst c <> l /\ In c (columns df)).
Proof.
  unfold setitem. destruct (existsb (String.eqb l) (labels df)) eqn:X; simpl.
  - rewrite in_map_iff. intros [c0 [E Hin]].
    destruct (String.eqb (fst c0) l) eqn:El.
    + apply String.eqb_eq in El. subst c. simpl. auto.
    + apply String.eqb_neq in El. subst c. auto.
  - rewrite in_app_iff. simpl. intros [Hin|[<-|[]]]; [|simpl; auto].
    destruct (string_dec (fst c) l) as [E|E]; [|auto].
    exfalso. assert (Hl : In l (labels df)) by (rewrite <- E; now apply in_map).
    apply existsb_eqb_In in Hl. congruence.
Qed.

Lemma setitem_fixed (df : DataFrame) (l : string) (v : list cell) :
  In l (labels df) ->
  (forall c, In c (columns df) -> fst c = l -> snd c = v) ->
  setitem df l v = df.
Proof.
  intros Hin Hall. unfold setitem. apply existsb_eqb_In in Hin. rewrite Hin.
  destruct df as [n cols]. simpl in *. f_equal.
  rewrite <- (map_id cols) at 2. apply map_ext_in. intros c Hc.
  destruct (String.eqb (fst c) l) eqn:E; [|reflexivity].
  apply String.eqb_eq in E. rewrite <- (Hall c Hc E). now destruct c.
Qed.

Lemma setitem_well_formed (df : DataFrame) (l : string) (v : list cell) :
  well_formed df -> List.length v = nrows df -> well_formed (setitem df l v).
Proof.
  unfold well_formed. rewrite !Forall_forall. intros Hwf Hv c Hc.
  rewrite nrows_setitem. apply setitem_columns in Hc.
  destruct Hc as [[_ ->]|[_ Hc]]; [exact Hv | now apply Hwf].
Qed.

Lemma getitem_length (df : DataFrame) (l : string) (v : list cell) :
  well_formed df -> getitem df l = Ok v -> List.length v = nrows df.
Proof.
  unfold well_formed. rewrite Forall_forall. intros Hwf H.
  apply getitem_Ok_column in H. apply (Hwf _ H).
Qed.

Section PreprocessKeeps.
Variable parse_numeric : cell -> num.
Variable parse_datetime : cell -> option Z.
Variable datetimelike : list cell -> bool.
Variable py_str : cell -> string.

(** What the loop over the numeric columns keeps: the shape of the frame,
    and the cells of every column whose label is not one of the four. *)
Lemma fold_coerce_keeps (cols : list string) (d d3 : DataFrame) :
  fold_left (coerce_column parse_numeric) cols (Ok d) = Ok d3 ->
  nrows d3 = nrows d /\
  (well_formed d -> well_formed d3) /\
  (forall l v, ~ In l cols ->
     (forall c, In c (columns d) -> fst c = l -> snd c = v) ->
     forall c, In c (columns d3) -> fst c = l -> snd c = v).
Proof.
  revert d. induction cols as [|col cols IH]; intros d H; simpl in H.
  - injection H as <-. auto.
  - destruct (existsb (String.eqb col) (labels d)) eqn:E.
    + destruct (getitem d col) as [s|e] eqn:G; simpl in H;
        [|rewrite fold_coerce_Raise in H; discriminate H].
      destruct (IH _ H) as [N [W K]]. split; [|split].
      * now rewrite N, nrows_setitem.
      * intros Hwf. apply W, setitem_well_formed; [exact Hwf|].
        rewrite length_map. now apply (getitem_length d col).
      * intros l v Hl Hall. apply K; [intros Hc; apply Hl; now right|].
        intros c Hc Hfst. apply setitem_columns in Hc.
        destruct Hc as [[Hcol _]|[_ Hc]]; [|now apply Hall].
        exfalso. apply Hl. left. congruence.
    + simpl in H. destruct (IH _ H) as [N [W K]]. split; [exact N|].
      split; [exact W|]. intros l v Hl. apply K. intros Hc. apply Hl. now right.
Qed.

Lemma ensure_Country_labels (df d1 : DataFrame) :
  ensure_Country df = Ok d1 ->
  labels d1
  = labels df ++ (if in_dec string_dec "Country"%string (labels df) then []
                  else ["Country"%string]) /\
  nrows d1 = nrows df /\
  (well_formed df -> well_formed d1).
Proof.
  unfold ensure_Country.
  destruct (in_dec string_dec "Country"%string (labels df)) as [Hin|Hnin].
  - pose proof Hin as Hb. apply existsb_eqb_In in Hb. rewrite Hb. simpl.
    intros H. injection H as <-. rewrite app_nil_r. auto.
  - destruct (existsb (String.eqb "Country") (labels df)) eqn:Hb;
      [apply existsb_eqb_In in Hb; contradiction|]. simpl.
    destruct (filter (fun c => contains "country" (lower c)) (labels df)) as [|c0 rest].
    + intros H. injection H as <-.
      split; [now apply labels_setitem_absent|]. split; [apply nrows_setitem|].
      intros Hwf. apply setitem_well_formed; [exact Hwf | apply repeat_length].
    + destruct (getitem df c0) as [s|e] eqn:G; simpl; [|discriminate].
      intros H. injection H as <-.
      split; [now apply labels_setitem_absent|]. split; [apply nrows_setitem|].
      intros Hwf. apply setitem_well_formed; [exact Hwf|].
      now apply (getitem_length df c0).
Qed.

(** X16.  [preprocess] keeps the shape of the table: the number of rows is
    unchanged, and when every column of the source has one cell per row so
    has every column of the result, the new columns Country and Date
    included. *)
Theorem preprocess_keeps_shape (df df' : DataFrame) :
  well_formed df ->
  preprocess parse_numeric parse_datetime datetimelike py_str df = Ok df' ->
  nrows df' = nrows df /\ well_formed df'.
Proof.
  intros Hwf H. apply preprocess_Ok in H.
  destruct H as [d1 [dates [d3 [country [E1 [E2 [E3 [E4 ->]]]]]]]].
  destruct (ensure_Country_labels df d1 E1) as [_ [N1 W1]].
  specialize (W1 Hwf).
  set (d2 := setitem d1 "Date" (map (to_date parse_datetime) dates)) in *.
  assert (W2 : well_formed d2).
  { apply setitem_well_formed; [exact W1|].
    rewrite length_map. now apply (getitem_length d1 "Date_reported"). }
  destruct (fold_coerce_keeps numeric_columns d2 d3 E3) as [N3 [W3 _]].
  specialize (W3 W2). split.
  - rewrite nrows_setitem, N3. unfold d2. now rewrite nrows_setitem.
  - apply setitem_well_formed; [exact W3|].
    rewrite length_map. now apply (getitem_length d3 "Country").
Qed.

(** X17.  [preprocess] never removes, renames or reorders a column: the
    labels of the result are the labels of the source in their order,
    followed by Country when the source had no such column and then by Date
    when it had none.  A column whose label is neither Country, Date nor
    one of the four numeric labels reads back exactly as in the source, the
    reported date among them. *)
Theorem preprocess_keeps_columns (df df' : DataFrame) :
  preprocess parse_numeric parse_datetime datetimelike py_str df = Ok df' ->
  labels df'
  = labels df
    ++ (if in_dec string_dec "Country"%string (labels df) then [] else ["Country"%string])
    ++ (if in_dec string_dec "Date"%string (labels df) then [] else ["Date"%string]) /\
  (forall l, l <> "Country"%string -> l <> "Date"%string -> ~ In l numeric_columns ->
     getitem df' l = getitem df l) /\
  getitem df' "Date_reported" = getitem df "Date_reported".
Proof.
  intros H. apply preprocess_Ok in H.
  destruct H as [d1 [dates [d3 [country [E1 [E2 [E3 [E4 ->]]]]]]]].
  destruct (ensure_Country_labels df d1 E1) as [L1 _].
  destruct (ensure_Country_Ok df d1 E1) as [Hget _].
  set (d2 := setitem d1 "Date" (map (to_date parse_datetime) dates)) in *.
  destruct (fold_coerce_Ok parse_numeric numeric_columns numeric_columns_NoDup d2 d3 E3)
    as [L3 [Hother _]].
  assert (Hkeep : forall l, l <> "Country"%string -> l <> "Date"%string ->
                            ~ In l numeric_columns ->
                            getitem (setitem d3 "Country" (map (country_cell py_str) country)) l
                            = getitem df l).
  { intros l HC HD HN. rewrite getitem_setitem_other by exact HC.
    rewrite Hother by exact HN. unfold d2.
    rewrite getitem_setitem_other by exact HD. now apply Hget. }
  split; [|split; [exact Hkeep|]].
  - rewrite labels_setitem_present by (eapply getitem_Ok_In; eauto).
    rewrite L3. unfold d2.
    destruct (in_dec string_dec "Date"%string (labels df)) as [HD|HD].
    + rewrite labels_setitem_present, L1; [now rewrite app_nil_r|].
      rewrite L1. apply in_or_app. now left.
    + rewrite labels_setitem_absent, L1; [now rewrite app_assoc|].
      rewrite L1, in_app_iff. intros [Hc|Hc]; [contradiction|].
      destruct (in_dec string_dec "Country"%string (labels df)); simpl in Hc;
        [contradiction|]. destruct Hc as [Hc|[]]. discriminate Hc.
  - apply Hkeep; try discriminate. unfold numeric_columns. simpl.
    intros Hc. repeat (destruct Hc as [Hc|Hc]; [discriminate Hc|]). exact Hc.
Qed.

End PreprocessKeeps.

(** ** The cleaned columns *)

Section PreprocessCleans.
Variable parse_numeric : cell -> num.
Variable parse_datetime : cell -> option Z.
Variable datetimelike : list cell -> bool.
Variable py_str : cell -> string.

Lemma to_date_cases (c : cell) :
  to_date parse_datetime c = Null \/ exists d, to_date parse_datetime c = Stamp d.
Proof.
  destruct c; simpl; eauto; destruct (parse_datetime _); eauto.
Qed.

(** X18.  When the source has at most one column labelled Date, the Date
    column of the cleaned table is made from the reported dates cell by
    cell: a timestamp gives its day, a missing value or a value that does
    not convert gives a null date, and nothing else can appear in it. *)
Theorem preprocess_Date_column (df df' : DataFrame) :
  preprocess parse_numeric parse_datetime datetimelike py_str df = Ok df' ->
  ~ In "Date"%string (labels df) \/ (exists old, getitem df "Date" = Ok old) ->
  exists dates,
    getitem df "Date_reported" = Ok dates /\
    getitem df' "Date" = Ok (map (to_date parse_datetime) dates) /\
    Forall2 (fun src out =>
               (forall d, src = Stamp d -> out = Stamp d) /\
               (src = Null -> out = Null) /\
               (out = Null \/ exists d, out = Stamp d))
            dates (map (to_date parse_datetime) dates).
Proof.
  intros H HD. apply preprocess_Ok in H.
  destruct H as [d1 [dates [d3 [country [E1 [E2 [E3 [E4 ->]]]]]]]].
  destruct (ensure_Country_Ok df d1 E1) as [Hget [Hlab _]].
  set (d2 := setitem d1 "Date" (map (to_date parse_datetime) dates)) in *.
  destruct (fold_coerce_Ok parse_numeric numeric_columns numeric_columns_NoDup d2 d3 E3)
    as [_ [Hother _]].
  exists dates. split; [|split].
  - rewrite <- E2. symmetry. apply Hget. discriminate.
  - rewrite getitem_setitem_other by discriminate. rewrite Hother.
    + unfold d2. apply getitem_setitem_same. destruct HD as [HD|[old HD]].
      * right. intros Hc. apply Hlab in Hc.
        destruct Hc as [Hc|Hc]; [discriminate Hc | contradiction].
      * left. exists old. rewrite <- HD. apply Hget. discriminate.
    + unfold numeric_columns. simpl.
      intros Hc. repeat (destruct Hc as [Hc|Hc]; [discriminate Hc|]). exact Hc.
  - clear. induction dates as [|c dates IH]; simpl; constructor; [|exact IH].
    split; [now intros d ->|]. split; [now intros ->|]. apply to_date_cases.
Qed.

Lemma numeric_cell_idempotent (c : cell) :
  numeric_cell parse_numeric (numeric_cell parse_numeric c) = numeric_cell parse_numeric c.
Proof.
  destruct (numeric_cell_kind parse_numeric c) as [[q ->] | [b ->]];
    [reflexivity | apply numeric_cell_Inf].
Qed.

Lemma country_cell_idempotent (c : cell) :
  country_cell py_str (country_cell py_str c) = country_cell py_str c.
Proof.
  unfold country_cell. simpl. f_equal. apply strip_trimmed.
Qed.

Lemma fold_coerce_fixed (cols : list string) (d : DataFrame) :
  (forall col, In col cols -> In col (labels d) ->
     exists v, getitem d col = Ok v /\ map (numeric_cell parse_numeric) v = v) ->
  fold_left (coerce_column parse_numeric) cols (Ok d) = Ok d.
Proof.
  induction cols as [|col cols IH]; intros H; simpl; [reflexivity|].
  destruct (existsb (String.eqb col) (labels d)) eqn:E.
  - apply existsb_eqb_In in E.
    destruct (H col (or_introl eq_refl) E) as [v [G Hv]]. rewrite G. simpl.
    rewrite Hv, setitem_fixed; [|exact E|now apply getitem_Ok_holds].
    apply IH. intros c Hc. apply H. now right.
  - apply IH. intros c Hc. apply H. now right.
Qed.

(** X19.  Cleaning is idempotent: a table that [preprocess] returned is
    returned unchanged when [preprocess] is applied to it again. *)
Theorem preprocess_idempotent (df df' : DataFrame) :
  preprocess parse_numeric parse_datetime datetimelike py_str df = Ok df' ->
  preprocess parse_numeric parse_datetime datetimelike py_str df' = Ok df'.
Proof.
  intros H.
  destruct (preprocess_Ok_dates parse_numeric parse_datetime datetimelike py_str
              df df' H) as [dates0 [E0 Hlike]].
  apply preprocess_Ok in H.
  destruct H as [d1 [dates [d3 [country [E1 [E2 [E3 [E4 Hdf]]]]]]]].
  destruct (ensure_Country_Ok df d1 E1) as [Hget [Hlab _]].
  assert (Hsame : dates0 = dates).
  { rewrite Hget in E2 by discriminate. congruence. }
  subst dates0.
  set (v := map (to_date parse_datetime) dates) in *.
  set (d2 := setitem d1 "Date" v) in *.
  destruct (fold_coerce_Ok parse_numeric numeric_columns numeric_columns_NoDup d2 d3 E3)
    as [L3 [Hother Hnum]].
  destruct (fold_coerce_keeps parse_numeric numeric_columns d2 d3 E3) as [_ [_ Hkeep]].
  assert (HC3 : In "Country"%string (labels d3)) by (eapply getitem_Ok_In; eauto).
  assert (Lab : labels df' = labels d2).
  { rewrite Hdf, labels_setitem_present by exact HC3. exact L3. }
  assert (HnumC : ~ In "Country"%string numeric_columns).
  { intros Hc. apply numeric_columns_other in Hc. now destruct Hc. }
  assert (HnumD : ~ In "Date"%string numeric_columns).
  { intros Hc. apply numeric_columns_other in Hc. now destruct Hc. }
  assert (HnumR : ~ In "Date_reported"%string numeric_columns).
  { unfold numeric_columns. simpl.
    intros Hc. repeat (destruct Hc as [Hc|Hc]; [discriminate Hc|]). exact Hc. }
  (* the country column is present, so the first step changes nothing *)
  assert (S1 : ensure_Country df' = Ok df').
  { unfold ensure_Country.
    assert (Hin : In "Country"%string (labels df')).
    { rewrite Lab, <- L3. exact HC3. }
    apply existsb_eqb_In in Hin. now rewrite Hin. }
  (* the reported dates are the ones read the first time *)
  assert (S2 : getitem df' "Date_reported" = Ok dates).
  { rewrite Hdf, getitem_setitem_other by discriminate.
    rewrite Hother by exact HnumR. unfold d2.
    rewrite getitem_setitem_other by discriminate. exact E2. }
  (* every column labelled Date already holds the converted dates *)
  assert (S3 : setitem df' "Date" v = df').
  { apply setitem_fixed.
    - rewrite Lab. unfold d2. apply labels_setitem_In. now left.
    - intros c Hc Hl. rewrite Hdf in Hc. apply setitem_columns in Hc.
      destruct Hc as [[Hc _]|[_ Hc]]; [rewrite Hl in Hc; discriminate Hc|].
      apply (Hkeep "Date"%string v HnumD); [|exact Hc|exact Hl].
      intros c' Hc' Hl'. unfold d2 in Hc'. apply setitem_columns in Hc'.
      destruct Hc' as [[_ Hv]|[Hne _]]; [exact Hv | contradiction]. }
  (* every numeric column that is present already holds coerced cells *)
  assert (S4 : fold_left (coerce_column parse_numeric) numeric_columns (Ok df') = Ok df').
  { apply fold_coerce_fixed. intros col Hcol Hin.
    destruct (numeric_columns_other col Hcol) as [HnC HnD].
    rewrite Lab in Hin. destruct (Hnum col Hcol Hin) as [src [_ G]].
    exists (map (numeric_cell parse_numeric) src). split.
    - rewrite Hdf, getitem_setitem_other by exact HnC. exact G.
    - rewrite map_map. apply map_ext. intros c. apply numeric_cell_idempotent. }
  assert (S5 : getitem df' "Country" = Ok (map (country_cell py_str) country)).
  { rewrite Hdf. apply getitem_setitem_same. left. eauto. }
  unfold preprocess. rewrite S1. cbn [bind]. rewrite S2. cbn [bind].
  unfold dt_date. rewrite Hlike. cbn [bind].
  fold v. rewrite S3, S4. cbn [bind]. rewrite S5. cbn [bind]. f_equal.
  rewrite map_map.
  rewrite (map_ext _ (country_cell py_str) (fun c => country_cell_idempotent c)).
  apply setitem_fixed.
  - rewrite Lab, <- L3. exact HC3.
  - now apply getitem_Ok_holds.
Qed.

(** X20.  Every cell of the cleaned Country column is text without
    whitespace at its start or at its end. *)
Theorem preprocess_Country_trimmed (df df' : DataFrame) :
  preprocess parse_numeric parse_datetime datetimelike py_str df = Ok df' ->
  exists out,
    getitem df' "Country" = Ok out /\
    Forall (fun c => exists s, c = Str s /\ lstrip s = s /\ rstrip s = s) out.
Proof.
  intros H. apply preprocess_Ok in H.
  destruct H as [d1 [dates [d3 [country [_ [_ [_ [E4 ->]]]]]]]].
  exists (map (country_cell py_str) country). split.
  - apply getitem_setitem_same. left. eauto.
  - apply Forall_forall. intros c Hc. apply in_map_iff in Hc.
    destruct Hc as [c0 [<- _]]. unfold country_cell. eexists. split; [reflexivity|].
    destruct (strip_trimmed (country_text py_str c0)) as [A [B _]]. auto.
Qed.

End PreprocessCleans.

(** The sparse sample table through these properties. *)

Lemma preprocess_keeps_shape_sparse :
  well_formed sparse_frame /\
  preprocess text_numeric no_datetime offsets_agree str_nan sparse_frame = Ok sparse_cleaned /\
  nrows sparse_cleaned = nrows sparse_frame /\ well_formed sparse_cleaned.
Proof.
  assert (Hwf : well_formed sparse_frame) by (repeat constructor).
  split; [exact Hwf|]. split; [reflexivity|].
  apply (preprocess_keeps_shape text_numeric no_datetime offsets_agree str_nan
           sparse_frame sparse_cleaned Hwf eq_refl).
Defined.

Lemma preprocess_keeps_columns_sparse :
  preprocess text_numeric no_datetime offsets_agree str_nan sparse_frame = Ok sparse_cleaned /\
  labels sparse_cleaned
  = labels sparse_frame ++ ["Country"%string; "Date"%string] /\
  getitem sparse_cleaned "Date_reported" = getitem sparse_frame "Date_reported".
Proof.
  split; [reflexivity|].
  destruct (preprocess_keeps_columns text_numeric no_datetime offsets_agree str_nan
              sparse_frame sparse_cleaned eq_refl) as [L [_ R]].
  split; [exact L | exact R].
Defined.

Lemma preprocess_Date_column_sparse :
  preprocess text_numeric no_datetime offsets_agree str_nan sparse_frame = Ok sparse_cleaned /\
  ~ In "Date"%string (labels sparse_frame) /\
  exists dates,
    getitem sparse_frame "Date_reported" = Ok dates /\
    getitem sparse_cleaned "Date" = Ok (map (to_date no_datetime) dates).
Proof.
  assert (Hno : ~ In "Date"%string (labels sparse_frame)).
  { simpl. intros H. repeat (destruct H as [H|H]; [discriminate H|]). exact H. }
  split; [reflexivity|]. split; [exact Hno|].
  destruct (preprocess_Date_column text_numeric no_datetime offsets_agree str_nan
              sparse_frame sparse_cleaned eq_refl (or_introl Hno))
    as [dates [A [B _]]].
  exists dates. split; [exact A | exact B].
Defined.

Lemma preprocess_idempotent_sparse :
  preprocess text_numeric no_datetime offsets_agree str_nan sparse_frame = Ok sparse_cleaned /\
  preprocess text_numeric no_datetime offsets_agree str_nan sparse_cleaned = Ok sparse_cleaned.
Proof.
  split; [reflexivity|].
  apply (preprocess_idempotent text_numeric no_datetime offsets_agree str_nan
           sparse_frame sparse_cleaned eq_refl).
Defined.

Lemma preprocess_Country_trimmed_blank :
  preprocess text_numeric no_datetime offsets_agree str_nan blank_country_frame
  = Ok blank_country_cleaned /\
  exists out,
    getitem blank_country_cleaned "Country" = Ok out /\
    Forall (fun c => exists s, c = Str s /\ lstrip s = s /\ rstrip s = s) out.
Proof.
  split; [reflexivity|].
  apply (preprocess_Country_trimmed text_numeric no_datetime offsets_agree str_nan
           blank_country_frame blank_country_cleaned eq_refl).
Defined.

(** ** A selected country without rows *)

(** X21.  A selected country that has no row in the window contributes
    nothing: its series is empty, the two-country table is the table of the
    other country, it has no growth rate, no fatality ratio and no bar in
    the ranking, the combined total is the total of the other country, and
    the rest of the world is the window total without that country. *)
Theorem absent_selected_country
  (df : list Row) (date_range : Z * Z) (c1 c2 sel other : string) (metric : Metric)
  (sort_values : list (string * Q) -> list (string * Q)) :
  sorts_descending sort_values ->
  (sel = c1 /\ other = c2) \/ (sel = c2 /\ other = c1) ->
  ~ In sel (map Country (filter_window df date_range)) ->
  country_rows sel (filter_window df date_range) = [] /\
  df_compare (filter_window df date_range) c1 c2
  = country_rows other (filter_window df date_range) /\
  growth_of sel (df_gr (filter_window df date_range) c1 c2 metric) = [] /\
  (forall r v, In (r, v) (df_cfr (filter_window df date_range) c1 c2) ->
     Country r <> sel) /\
  total_two (filter_window df date_range) c1 c2 metric
  == country_total metric other (filter_window df date_range) /\
  total_rest (filter_window df date_range) c1 c2 metric
  == total_world (filter_window df date_range) metric
     - country_total metric other (filter_window df date_range) /\
  ~ In sel (map fst (df_top (filter_window df date_range) c1 c2 metric sort_values)).
Proof.
  intros Hsort Hsel Habs. set (df_f := filter_window df date_range) in *.
  assert (Hd : forall r, In r df_f -> Date r <> None)
    by (intros r; apply filter_window_dated).
  destruct (absent_country_tables df_f sel other metric Hd Habs)
    as [E [C1 [C2 [G1 [G2 [T1 T2]]]]]].
  assert (Hcfr : forall a b r v, In (r, v) (df_cfr df_f a b) -> Country r <> sel).
  { intros a b r v Hin <-. apply Habs. unfold df_cfr in Hin.
    apply in_map_iff in Hin. destruct Hin as [r' [Er Hr]]. injection Er as -> _.
    apply in_map. now apply df_compare_In in Hr. }
  assert (Htop : ~ In sel (map fst (df_top df_f c1 c2 metric sort_values))).
  { intros Hin. apply Habs.
    apply (df_rank_countries df_f metric sort_values Hsort).
    revert Hin. apply incl_map, df_top_incl. }
  destruct Hsel as [[-> ->] | [-> ->]].
  - repeat split; try assumption; [apply Hcfr|].
    unfold total_rest. now rewrite T1.
  - repeat split; try assumption; [apply Hcfr|].
    unfold total_rest. now rewrite T2.
Qed.

(** Italy and Spain selected on the days 1 to 3, on which only Italy
    reports. *)
Lemma absent_selected_country_Spain :
  sorts_descending stable_sort_desc /\
  ~ In "Spain"%string (map Country (filter_window italy_spain_table (1, 3)%Z)) /\
  df_compare (filter_window italy_spain_table (1, 3)%Z) "Italy" "Spain"
  = country_rows "Italy" (filter_window italy_spain_table (1, 3)%Z) /\
  total_two (filter_window italy_spain_table (1, 3)%Z) "Italy" "Spain" New_cases_metric
  == country_total New_cases_metric "Italy" (filter_window italy_spain_table (1, 3)%Z).
Proof.
  assert (Habs : ~ In "Spain"%string
                   (map Country (filter_window italy_spain_table (1, 3)%Z))).
  { vm_compute. intros [H|[]]. discriminate H. }
  split; [exact stable_sort_desc_sorts|]. split; [exact Habs|].
  destruct (absent_selected_country italy_spain_table (1, 3)%Z "Italy" "Spain"
              "Spain" "Italy" New_cases_metric stable_sort_desc
              stable_sort_desc_sorts (or_intror (conj eq_refl eq_refl)) Habs)
    as [_ [C [_ [_ [T _]]]]].
  split; [exact C | exact T].
Defined.
